(** * Claude Flow Multilang: language pipeline and cultural analyzer

    A shallow embedding of
      - [src/polyglot/types.ts]            (SupportedLanguage and the result records),
      - [src/i18n/language-manager.ts]     (detectLanguage, normalize, extractIntent, translate),
      - [src/cultural/context-analyzer.ts] (analyze, detectBusinessContext, applyPluralization),
      - [src/polyglot/polyglot-agent.ts]   (translate, generateMultilingualResponse),
    followed by the properties of the specification that concern them.

    Conventions.  A JavaScript string is the list of its UTF-16 code units.
    Numbers that the code only compares, adds or divides are integers or
    rationals; the two confidence constants 0.8 and 0.5 are the rationals
    8/10 and 5/10.  Objects that the code shares by reference live in an
    explicit store; caches are finite maps threaded through the calls. *)

From Stdlib Require Import ZArith QArith Lia Bool List Sorted Permutation.
From stdpp Require Import base gmap strings list fin_maps sorting.

Open Scope Z_scope.

(** ** The JavaScript platform: strings *)

Module JS.

(** UTF-16 code units. *)
Abbreviation jsstring := (list Z).

(** Source literals are written as Rocq strings (UTF-8 bytes) and decoded
    to code units, so that the tables below read like the TypeScript ones. *)
Fixpoint utf16_of_utf8 (bs : list Z) : jsstring :=
  match bs with
  | [] => []
  | b0 :: r =>
    if b0 <? 0x80 then b0 :: utf16_of_utf8 r
    else if b0 <? 0xE0 then
      match r with
      | b1 :: r1 => ((b0 - 0xC0) * 64 + (b1 - 0x80)) :: utf16_of_utf8 r1
      | _ => []
      end
    else if b0 <? 0xF0 then
      match r with
      | b1 :: b2 :: r2 =>
        ((b0 - 0xE0) * 4096 + (b1 - 0x80) * 64 + (b2 - 0x80)) :: utf16_of_utf8 r2
      | _ => []
      end
    else
      match r with
      | b1 :: b2 :: b3 :: r3 =>
        let cp := (b0 - 0xF0) * 262144 + (b1 - 0x80) * 4096
                  + (b2 - 0x80) * 64 + (b3 - 0x80) - 0x10000 in
        (0xD800 + cp / 1024) :: (0xDC00 + cp mod 1024) :: utf16_of_utf8 r3
      | _ => []
      end
  end.

Definition js (s : string) : jsstring :=
  utf16_of_utf8 (map (fun a => Z.of_nat (Ascii.nat_of_ascii a)) (String.list_ascii_of_string s)).

(** [WhiteSpace] and [LineTerminator] code points, as stripped by
    [String.prototype.trim]. *)
Definition isWhiteSpace (c : Z) : bool :=
  ((9 <=? c) && (c <=? 13)) || (c =? 0x20) || (c =? 0xA0) || (c =? 0x1680)
  || ((0x2000 <=? c) && (c <=? 0x200A)) || (c =? 0x2028) || (c =? 0x2029)
  || (c =? 0x202F) || (c =? 0x205F) || (c =? 0x3000) || (c =? 0xFEFF).

Fixpoint trimStart (s : jsstring) : jsstring :=
  match s with
  | [] => []
  | c :: s' => if isWhiteSpace c then trimStart s' else s
  end.

Definition trimEnd (s : jsstring) : jsstring := rev (trimStart (rev s)).

Definition trim (s : jsstring) : jsstring := trimEnd (trimStart s).

(** [String.prototype.toLowerCase], per code unit, on the blocks that hold
    the cased letters of the supported languages: Basic Latin, Latin-1
    Supplement, Latin Extended-A (with the two-unit image of U+0130) and
    Cyrillic U+0400..U+045F.  Code units of other blocks are left as they
    are. *)
Definition lowerUnit (c : Z) : jsstring :=
  if (0x41 <=? c) && (c <=? 0x5A) then [c + 32]
  else if (0xC0 <=? c) && (c <=? 0xDE) && negb (c =? 0xD7) then [c + 32]
  else if c =? 0x130 then [0x69; 0x307]
  else if c =? 0x178 then [0xFF]
  else if ((0x100 <=? c) && (c <=? 0x12F) || (0x132 <=? c) && (c <=? 0x137)
           || (0x14A <=? c) && (c <=? 0x177)) && Z.even c then [c + 1]
  else if ((0x139 <=? c) && (c <=? 0x148) || (0x179 <=? c) && (c <=? 0x17E))
          && Z.odd c then [c + 1]
  else if (0x400 <=? c) && (c <=? 0x40F) then [c + 80]
  else if (0x410 <=? c) && (c <=? 0x42F) then [c + 32]
  else [c].

Definition toLowerCase (s : jsstring) : jsstring := flat_map lowerUnit s.

(** [String.prototype.toUpperCase] of one code unit; [None] when the image
    is not a single code unit. *)
Definition upperUnit (c : Z) : option Z :=
  if (0x61 <=? c) && (c <=? 0x7A) then Some (c - 32)
  else if c =? 0xB5 then Some 0x39C
  else if c =? 0xDF then None
  else if (0xE0 <=? c) && (c <=? 0xFE) && negb (c =? 0xF7) then Some (c - 32)
  else if c =? 0xFF then Some 0x178
  else if c =? 0x131 then Some 0x49
  else if c =? 0x149 then None
  else if c =? 0x17F then Some 0x53
  else if ((0x100 <=? c) && (c <=? 0x12F) || (0x132 <=? c) && (c <=? 0x137)
           || (0x14A <=? c) && (c <=? 0x177)) && Z.odd c then Some (c - 1)
  else if ((0x139 <=? c) && (c <=? 0x148) || (0x179 <=? c) && (c <=? 0x17E))
          && Z.even c then Some (c - 1)
  else if (0x430 <=? c) && (c <=? 0x44F) then Some (c - 32)
  else if (0x450 <=? c) && (c <=? 0x45F) then Some (c - 80)
  else Some c.

Fixpoint startsWith (s p : jsstring) : bool :=
  match p, s with
  | [], _ => true
  | _ :: _, [] => false
  | a :: p', b :: s' => (a =? b) && startsWith s' p'
  end.

(** [String.prototype.includes]. *)
Fixpoint includes (s p : jsstring) : bool :=
  startsWith s p ||
  match s with
  | [] => false
  | _ :: s' => includes s' p
  end.

(** Truthiness of a string value. *)
Definition truthy (s : jsstring) : bool :=
  match s with [] => false | _ => true end.

(** [Array.prototype.some]. *)
Definition some {A} (p : A → bool) (l : list A) : bool := existsb p l.

End JS.

Import JS.

(** ** The JavaScript platform: regular expressions

    The backtracking matcher of ECMAScript (a pattern is compiled to a
    function of a match state and a continuation), for the constructs that
    occur in the patterns of this repository. *)

Module RegExp.

Inductive regex : Type :=
| REmpty
| RChar (c : Z)
| RClass (ranges : list (Z * Z))
| RDot
| RWordBoundary
| RSeq (r1 r2 : regex)
| RAlt (r1 r2 : regex)
| RStar (greedy : bool) (r : regex)
| RGroup (name : option string) (r : regex).

Record MatchState := {
  endIndex : nat;
  groups : list (string * jsstring);
}.

(** [\w]: the basic word characters. *)
Definition wordRanges : list (Z * Z) :=
  [(0x30, 0x39); (0x41, 0x5A); (0x5F, 0x5F); (0x61, 0x7A)].

Definition inRanges (rs : list (Z * Z)) (c : Z) : bool :=
  existsb (fun r => (fst r <=? c) && (c <=? snd r)) rs.

Definition isLineTerminator (c : Z) : bool :=
  (c =? 0x0A) || (c =? 0x0D) || (c =? 0x2028) || (c =? 0x2029).

(** [Canonicalize] without the [u] flag: upper-case the code unit, unless
    the image is not a single unit or would turn a non-ASCII unit into an
    ASCII one. *)
Definition canonicalize (ignoreCase : bool) (ch : Z) : Z :=
  if ignoreCase then
    match upperUnit ch with
    | Some cu => if (128 <=? ch) && (cu <? 128) then ch else cu
    | None => ch
    end
  else ch.

Definition enumRange (lo hi : Z) : list Z :=
  map (fun i => lo + Z.of_nat i) (seq 0 (Z.to_nat (hi + 1 - lo))).

(** [CharacterSetMatcher]: some member of the set has the canonical form
    of the current character. *)
Definition classMatches (ignoreCase : bool) (rs : list (Z * Z)) (ch : Z) : bool :=
  if ignoreCase then
    existsb (fun r =>
      existsb (fun a => canonicalize true a =? canonicalize true ch)
              (enumRange (fst r) (snd r))) rs
  else inRanges rs ch.

Section Matcher.

Variable input : jsstring.
Variable ignoreCase : bool.

Definition isWordChar (e : Z) : bool :=
  if (e <? 0) || (Z.of_nat (length input) <=? e) then false
  else match input !! Z.to_nat e with
       | Some c => inRanges wordRanges c
       | None => false
       end.

Definition advance (x : MatchState) : MatchState :=
  {| endIndex := S (endIndex x); groups := groups x |}.

Definition substring (from to : nat) : jsstring :=
  take (to - from) (drop from input).

Definition capture (name : option string) (from : nat) (y : MatchState)
  : MatchState :=
  match name with
  | Some n =>
    {| endIndex := endIndex y;
       groups := groups y ++ [(n, substring from (endIndex y))] |}
  | None => y
  end.

Definition step (ok : Z → bool) (x : MatchState)
    (k : MatchState → option MatchState) : option MatchState :=
  match input !! endIndex x with
  | Some ch => if ok ch then k (advance x) else None
  | None => None
  end.

Fixpoint matcher (r : regex) (x : MatchState)
    (k : MatchState → option MatchState) {struct r} : option MatchState :=
  match r with
  | REmpty => k x
  | RChar a =>
    step (fun ch => canonicalize ignoreCase a =? canonicalize ignoreCase ch) x k
  | RClass rs => step (classMatches ignoreCase rs) x k
  | RDot => step (fun ch => negb (isLineTerminator ch)) x k
  | RWordBoundary =>
    let e := Z.of_nat (endIndex x) in
    if xorb (isWordChar (e - 1)) (isWordChar e) then k x else None
  | RSeq r1 r2 => matcher r1 x (fun y => matcher r2 y k)
  | RAlt r1 r2 =>
    match matcher r1 x k with
    | Some z => Some z
    | None => matcher r2 x k
    end
  | RStar greedy r' =>
    (fix repeat (fuel : nat) (x : MatchState)
         (k : MatchState → option MatchState) {struct fuel}
       : option MatchState :=
       match fuel with
       | O => k x
       | S fuel' =>
         let again (_ : unit) :=
           matcher r' x (fun y =>
             if Nat.eqb (endIndex y) (endIndex x) then None
             else repeat fuel' y k) in
         if greedy then
           match again tt with
           | Some z => Some z
           | None => k x
           end
         else
           match k x with
           | Some z => Some z
           | None => again tt
           end
       end) (S (length input - endIndex x)) x k
  | RGroup name r' =>
    matcher r' x (fun y => k (capture name (endIndex x) y))
  end.

(** The first index at or after [i] where the pattern matches. *)
Fixpoint search (r : regex) (fuel i : nat) : option (nat * MatchState) :=
  match fuel with
  | O => None
  | S fuel' =>
    match matcher r {| endIndex := i; groups := [] |} Some with
    | Some y => Some (i, y)
    | None => search r fuel' (S i)
    end
  end.

Definition exec (r : regex) (lastIndex : nat) : option (nat * MatchState) :=
  search r (S (length input) - lastIndex) lastIndex.

(** The number of matches collected by [String.prototype.match] for a
    pattern with the [g] flag. *)
Fixpoint countFrom (r : regex) (fuel lastIndex : nat) : nat :=
  match fuel with
  | O => O
  | S fuel' =>
    match exec r lastIndex with
    | None => O
    | Some (i, y) =>
      S (countFrom r fuel'
           (if Nat.eqb (endIndex y) i then S i else endIndex y))
    end
  end.

End Matcher.

(** A pattern with its flags. *)
Record RegExp := {
  source : regex;
  flagI : bool;
  flagG : bool;
}.

(** [RegExp.prototype.test] of a pattern without the [g] flag. *)
Definition test (p : RegExp) (text : jsstring) : bool :=
  match exec text (flagI p) (source p) 0 with
  | Some _ => true
  | None => false
  end.

(** [String.prototype.match] of a pattern without the [g] flag: the named
    groups of the first match. *)
Definition matchGroups (text : jsstring) (p : RegExp)
  : option (list (string * jsstring)) :=
  match exec text (flagI p) (source p) 0 with
  | Some (_, y) => Some (groups y)
  | None => None
  end.

(** [String.prototype.match] of a pattern with the [g] flag: the length of
    the array of matches, 0 standing for [null]. *)
Definition matchCount (text : jsstring) (p : RegExp) : nat :=
  countFrom text (flagI p) (source p) (S (S (length text))) 0.

(** Pattern syntax. *)
Fixpoint lit (s : jsstring) : regex :=
  match s with
  | [] => REmpty
  | [c] => RChar c
  | c :: s' => RSeq (RChar c) (lit s')
  end.

Fixpoint alt (rs : list regex) : regex :=
  match rs with
  | [] => REmpty
  | [r] => r
  | r :: rs' => RAlt r (alt rs')
  end.

Fixpoint seqs (rs : list regex) : regex :=
  match rs with
  | [] => REmpty
  | [r] => r
  | r :: rs' => RSeq r (seqs rs')
  end.

Definition words (ws : list string) : regex := alt (map (fun w => lit (js w)) ws).
Definition plus (r : regex) : regex := RSeq r (RStar true r).
Definition oneOf (s : string) : regex := RClass (map (fun c => (c, c)) (js s)).
Definition range (lo hi : Z) : regex := RClass [(lo, hi)].
Definition wordChar : regex := RClass wordRanges.

(** The code unit of a one-character literal, and a class given by the
    end points of its ranges, as in [[a-zA-Z]]. *)
Definition chr (s : string) : Z := hd 0 (js s).
Definition ranges (l : list (string * string)) : regex :=
  RClass (map (fun r => (chr (fst r), chr (snd r))) l).

End RegExp.

Import RegExp.

(** [Array.prototype.sort] with a comparator.  The sort is stable, so its
    result is determined: elements are inserted from the right, each one
    in front of the sorted rest up to the first element it must follow. *)
Module JSArray.

Fixpoint insert {A} (cmp : A → A → Z) (x : A) (l : list A) : list A :=
  match l with
  | [] => [x]
  | y :: l' => if cmp x y <=? 0 then x :: l else y :: insert cmp x l'
  end.

Fixpoint sort {A} (cmp : A → A → Z) (l : list A) : list A :=
  match l with
  | [] => []
  | x :: l' => insert cmp x (sort cmp l')
  end.

(** [slice(from, to)] for indices within range. *)
Definition slice {A} (from to : nat) (l : list A) : list A :=
  take (to - from) (drop from l).

End JSArray.

(** Abrupt completions: the errors a call can raise. *)
Inductive Error : Type := TypeError | ReferenceError | SyntaxError.

Inductive completion (A : Type) : Type :=
| Normal (a : A)
| Throw (e : Error).
Arguments Normal {A} a.
Arguments Throw {A} e.

#[global] Instance completion_ret : MRet completion := fun A a => Normal a.

#[global] Instance completion_bind : MBind completion := fun A B f c =>
  match c with
  | Normal a => f a
  | Throw e => Throw e
  end.

(** ** [src/polyglot/types.ts] *)

Inductive SupportedLanguage : Type :=
| EN | RU | ZH_CN | ZH_TW | JA | KO | DE | FR | ES | PT | TR | TH | IT | HI.

#[global] Instance SupportedLanguage_eq_dec : EqDecision SupportedLanguage.
Proof. solve_decision. Defined.

Definition SupportedLanguage_index (l : SupportedLanguage) : nat :=
  match l with
  | EN => 0 | RU => 1 | ZH_CN => 2 | ZH_TW => 3 | JA => 4 | KO => 5 | DE => 6
  | FR => 7 | ES => 8 | PT => 9 | TR => 10 | TH => 11 | IT => 12 | HI => 13
  end%nat.

(** [Object.values(SupportedLanguage)], in declaration order. *)
Definition SupportedLanguage_values : list SupportedLanguage :=
  [EN; RU; ZH_CN; ZH_TW; JA; KO; DE; FR; ES; PT; TR; TH; IT; HI].

#[global] Instance SupportedLanguage_countable : Countable SupportedLanguage.
Proof.
  apply (inj_countable' SupportedLanguage_index
           (fun n => nth n SupportedLanguage_values EN)).
  intros []; reflexivity.
Defined.

Inductive Script : Type := latin | cyrillic | cjk | arabic | devanagari.

Module Alternative.
Record t := { language : SupportedLanguage; confidence : Q }.
End Alternative.

Module LanguageDetectionResult.
Record t := {
  language : SupportedLanguage;
  confidence : Q;
  alternatives : list Alternative.t;
  script : Script;
}.
End LanguageDetectionResult.

Inductive FormalityLevel : Type := informal | neutral | formal | very_formal.
Inductive CommunicationStyle : Type := direct | indirect | contextual.
Inductive DecisionMaking : Type := individual | consensus | hierarchical.
Inductive WritingDirection : Type := ltr | rtl.

(** The nested object of a cultural context. *)
Module BusinessEtiquette.
Record t := {
  greetingStyle : jsstring;
  communicationStyle : CommunicationStyle;
  decisionMaking : DecisionMaking;
}.
End BusinessEtiquette.

(** A value stored under a key of [pluralizationRules : Record<string, any>]. *)
Inductive RuleValue : Type :=
| RuleNumber (n : Z)
| RuleString (s : jsstring).

(** Objects are held by reference: a [ref] names a business-etiquette
    object in the store. *)
Abbreviation ref := nat.

(** A cultural-context object.  Every property may be absent, as in the
    object that spreading [undefined] produces. *)
Module CulturalContext.
Record t := {
  language : option SupportedLanguage;
  region : option jsstring;
  timezone : option jsstring;
  dateFormat : option jsstring;
  numberFormat : option jsstring;
  currencyFormat : option jsstring;
  formalityLevel : option FormalityLevel;
  businessEtiquette : option ref;
  writingDirection : option WritingDirection;
  pluralizationRules : option (gmap string RuleValue);
}.

(** The object with no property: [{}]. *)
Definition empty : t :=
  {| language := None; region := None; timezone := None; dateFormat := None;
     numberFormat := None; currencyFormat := None; formalityLevel := None;
     businessEtiquette := None; writingDirection := None;
     pluralizationRules := None |}.
End CulturalContext.

Module TranslationContext.
Record t := {
  sourceLanguage : SupportedLanguage;
  targetLanguage : SupportedLanguage;
  domain : option jsstring;
  preserveFormatting : option bool;
  culturalAdaptation : option bool;
}.
End TranslationContext.

(** ** [src/i18n/language-manager.ts] *)

Module LanguageManager.

(** [/\b(w1|w2|...)\b/gi] *)
Definition wordList (ws : list string) : RegExp :=
  {| source := seqs [RWordBoundary; RGroup None (words ws); RWordBoundary];
     flagI := true; flagG := true |}.

Definition global (r : regex) : RegExp :=
  {| source := r; flagI := false; flagG := true |}.

Definition globalI (r : regex) : RegExp :=
  {| source := r; flagI := true; flagG := true |}.

(** Language patterns for detection, in the key order of the object
    literal (the order of [Object.entries]). *)
Definition LANGUAGE_PATTERNS : list (SupportedLanguage * list RegExp) := [
  (EN, [ wordList ["the"; "and"; "or"; "but"; "in"; "on"; "at"; "to"; "for"];
         wordList ["is"; "are"; "was"; "were"; "been"; "being"] ]);
  (RU, [ global (plus (ranges [("а", "я"); ("А", "Я"); ("ё", "ё"); ("Ё", "Ё")]));
         wordList ["и"; "или"; "но"; "в"; "на"; "для"; "с"; "по"] ]);
  (ZH_CN, [ global (plus (range 0x4e00 0x9fff));
            global (plus (range 0x3400 0x4dbf)) ]);
  (ZH_TW, [ global (plus (range 0x4e00 0x9fff));
            global (plus (range 0x3400 0x4dbf)) ]);
  (JA, [ global (plus (range 0x3040 0x309f));
         global (plus (range 0x30a0 0x30ff));
         global (plus (range 0x4e00 0x9faf)) ]);
  (KO, [ global (plus (range 0xac00 0xd7af));
         global (plus (range 0x1100 0x11ff)) ]);
  (DE, [ wordList ["der"; "die"; "das"; "und"; "oder"; "aber"; "in"; "auf"; "mit"];
         global (oneOf "äöüÄÖÜß") ]);
  (FR, [ wordList ["le"; "la"; "les"; "et"; "ou"; "mais"; "dans"; "sur"; "avec"];
         globalI (oneOf "àâçèéêëîïôùûüÿœæ") ]);
  (ES, [ wordList ["el"; "la"; "los"; "las"; "y"; "o"; "pero"; "en"; "con"];
         globalI (oneOf "áéíóúñ¿¡") ]);
  (PT, [ wordList ["o"; "a"; "os"; "as"; "e"; "ou"; "mas"; "em"; "com"];
         globalI (oneOf "àáâãçéêíóôõú") ]);
  (TR, [ wordList ["ve"; "veya"; "ama"; "ile"; "için"];
         global (oneOf "çğıöşüÇĞİÖŞÜ") ]);
  (TH, [ global (plus (range 0x0e00 0x0e7f));
         wordList ["และ"; "หรือ"; "แต่"; "ใน"; "กับ"] ]);
  (IT, [ wordList ["il"; "la"; "lo"; "gli"; "le"; "e"; "o"; "ma"; "in"; "con"];
         globalI (oneOf "àèéìòù") ]);
  (HI, [ global (plus (range 0x0900 0x097f));
         wordList ["और"; "या"; "लेकिन"; "में"; "के साथ"] ])
].

(** Common phrases for language detection. *)
Definition COMMON_PHRASES (lang : SupportedLanguage) : list jsstring :=
  map js
    match lang with
    | EN => ["hello"; "please"; "thank you"; "yes"; "no"]
    | RU => ["привет"; "пожалуйста"; "спасибо"; "да"; "нет"]
    | ZH_CN => ["你好"; "请"; "谢谢"; "是"; "不是"]
    | ZH_TW => ["你好"; "請"; "謝謝"; "是"; "不是"]
    | JA => ["こんにちは"; "お願いします"; "ありがとう"; "はい"; "いいえ"]
    | KO => ["안녕하세요"; "부탁합니다"; "감사합니다"; "네"; "아니요"]
    | DE => ["hallo"; "bitte"; "danke"; "ja"; "nein"]
    | FR => ["bonjour"; "s'il vous plaît"; "merci"; "oui"; "non"]
    | ES => ["hola"; "por favor"; "gracias"; "sí"; "no"]
    | PT => ["olá"; "por favor"; "obrigado"; "sim"; "não"]
    | TR => ["merhaba"; "lütfen"; "teşekkürler"; "evet"; "hayır"]
    | TH => ["สวัสดี"; "กรุณา"; "ขอบคุณ"; "ใช่"; "ไม่"]
    | IT => ["ciao"; "per favore"; "grazie"; "sì"; "no"]
    | HI => ["नमस्ते"; "कृपया"; "धन्यवाद"; "हाँ"; "नहीं"]
    end.

(** The two caches of a manager.  [intentPatterns] is filled once by the
    constructor and never written again; it is the function below. *)
Record t := {
  translationCache : gmap jsstring (gmap SupportedLanguage jsstring);
  detectionCache : gmap jsstring LanguageDetectionResult.t;
}.

(** The state built by the constructor. *)
Definition new : t := {| translationCache := ∅; detectionCache := ∅ |}.

(** [/\b(v1|v2|...)\b.*?(?<name>\w+)/i] *)
Definition verbThenWord (verbs : list string) (name : string) : RegExp :=
  {| source := seqs [RWordBoundary; RGroup None (words verbs); RWordBoundary;
                     RStar false RDot; RGroup (Some name) (plus wordChar)];
     flagI := true; flagG := false |}.

(** As [verbThenWord], the named group being a greedy run of any
    characters instead of [\w+] (the [search] patterns). *)
Definition verbThenRest (verbs : list string) (name : string) : RegExp :=
  {| source := seqs [RWordBoundary; RGroup None (words verbs); RWordBoundary;
                     RStar false RDot; RGroup (Some name) (RStar true RDot)];
     flagI := true; flagG := false |}.

(** [/\b(v1|v2|...)\b/i] *)
Definition verbOnly (verbs : list string) : RegExp :=
  {| source := seqs [RWordBoundary; RGroup None (words verbs); RWordBoundary];
     flagI := true; flagG := false |}.

(** [initializeIntentPatterns]: the map from language to the ordered map
    from intent to pattern. *)
Definition intentPatterns (lang : SupportedLanguage)
  : option (list (jsstring * RegExp)) :=
  match lang with
  | EN => Some [
      (js "create", verbThenWord ["create"; "make"; "build"; "generate"; "construct"] "target");
      (js "delete", verbThenWord ["delete"; "remove"; "destroy"; "eliminate"] "target");
      (js "update", verbThenWord ["update"; "modify"; "change"; "edit"] "target");
      (js "search", verbThenRest ["search"; "find"; "look for"; "query"] "query");
      (js "help", verbOnly ["help"; "assist"; "support"; "guide"]) ]
  | RU => Some [
      (js "create", verbThenWord ["создать"; "создай"; "сделать"; "сделай"; "построить"] "target");
      (js "delete", verbThenWord ["удалить"; "удали"; "убрать"; "убери"] "target");
      (js "update", verbThenWord ["обновить"; "обнови"; "изменить"; "измени"] "target");
      (js "search", verbThenRest ["найти"; "найди"; "искать"; "ищи"; "поиск"] "query");
      (js "help", verbOnly ["помощь"; "помоги"; "поддержка"; "справка"]) ]
  | _ => None
  end.

(** The score of one language: pattern matches, plus 10 for every common
    phrase found. *)
Definition scoreOf (text : jsstring) (lang : SupportedLanguage)
    (patterns : list RegExp) : nat :=
  let score :=
    fold_left (fun score pattern => (score + matchCount text pattern)%nat)
              patterns 0%nat in
  fold_left (fun score phrase =>
               if includes (toLowerCase text) (toLowerCase phrase)
               then (score + 10)%nat else score)
            (COMMON_PHRASES lang) score.

(** The entries of the [scores] map, in insertion order. *)
Definition scoreLanguages (text : jsstring) : list (SupportedLanguage * nat) :=
  map (fun e => (fst e, scoreOf text (fst e) (snd e))) LANGUAGE_PATTERNS.

(** [totalScore > 0 ? score / totalScore : 0] *)
Definition ratio (score totalScore : nat) : Q :=
  if (0 <? totalScore)%nat
  then (inject_Z (Z.of_nat score) / inject_Z (Z.of_nat totalScore))%Q
  else 0%Q.

Definition testClass (r : regex) (text : jsstring) : bool :=
  test {| source := r; flagI := false; flagG := false |} text.

Definition detectScript (text : jsstring) : Script :=
  if testClass (ranges [("а", "я"); ("А", "Я"); ("ё", "ё"); ("Ё", "Ё")]) text
  then cyrillic
  else if testClass (RClass [(0x4e00, 0x9fff); (0x3040, 0x30ff); (0xac00, 0xd7af)]) text
  then cjk
  else if testClass (range 0x0600 0x06ff) text then arabic
  else if testClass (range 0x0900 0x097f) text then devanagari
  else latin.

(** [detectLanguage]: the cached result when there is one; otherwise the
    scores are computed, ranked, and the result is stored in the cache.
    Reading [sortedScores[0]] of an empty array would raise. *)
Definition detectLanguage (text : jsstring) (this : t)
  : completion (LanguageDetectionResult.t * t) :=
  match detectionCache this !! text with
  | Some cached => Normal (cached, this)
  | None =>
    let scores := scoreLanguages text in
    let sortedScores :=
      JSArray.sort (fun a b => Z.of_nat (snd b) - Z.of_nat (snd a)) scores in
    let totalScore := fold_left (fun sum score => (sum + score)%nat) (map snd scores) 0%nat in
    match sortedScores with
    | [] => Throw TypeError
    | top :: _ =>
      let topScore := snd top in
      let confidence := ratio topScore totalScore in
      let alternatives :=
        map (fun e => {| Alternative.language := fst e;
                         Alternative.confidence := ratio (snd e) totalScore |})
            (JSArray.slice 1 4 sortedScores) in
      let result :=
        {| LanguageDetectionResult.language := fst top;
           LanguageDetectionResult.confidence := confidence;
           LanguageDetectionResult.alternatives := alternatives;
           LanguageDetectionResult.script := detectScript text |} in
      Normal (result,
              {| translationCache := translationCache this;
                 detectionCache := <[text := result]> (detectionCache this) |})
    end
  end.

Definition getLanguagePrefix (language : SupportedLanguage) : jsstring :=
  js match language with
     | EN => "EN" | RU => "RU" | ZH_CN => "ZH-CN" | ZH_TW => "ZH-TW"
     | JA => "JA" | KO => "KO" | DE => "DE" | FR => "FR" | ES => "ES"
     | PT => "PT" | TR => "TR" | TH => "TH" | IT => "IT" | HI => "HI"
     end.

(** The placeholder translation: the text behind a tag of the target
    language. *)
Definition performTranslation (text : jsstring) (context : TranslationContext.t)
  : jsstring :=
  let prefix := getLanguagePrefix (TranslationContext.targetLanguage context) in
  js "[" ++ prefix ++ js "] " ++ text.

(** [translate]: a cached translation is returned when it is a non-empty
    string; otherwise the translation is made, the map of the key is
    created when the cache has none, and the translation is stored in it. *)
Definition translate (text : jsstring) (context : TranslationContext.t) (this : t)
  : jsstring * t :=
  let cacheKey := text in
  let target := TranslationContext.targetLanguage context in
  let cached :=
    match translationCache this !! cacheKey with
    | Some perLanguage =>
      match perLanguage !! target with
      | Some cached => if truthy cached then Some cached else None
      | None => None
      end
    | None => None
    end in
  match cached with
  | Some cached => (cached, this)
  | None =>
    let translated := performTranslation text context in
    let perLanguage := default ∅ (translationCache this !! cacheKey) in
    (translated,
     {| translationCache :=
          <[cacheKey := <[target := translated]> perLanguage]> (translationCache this);
        detectionCache := detectionCache this |})
  end.

(** Every code unit in U+FF01..U+FF5E is shifted down by 0xFEE0. *)
Definition convertFullWidthToHalfWidth (text : jsstring) : jsstring :=
  map (fun ch => if (0xff01 <=? ch) && (ch <=? 0xff5e) then ch - 0xfee0 else ch) text.

Definition normalizeChineseText (text : jsstring) : jsstring := text.

Definition normalize (text : jsstring) (language : SupportedLanguage) : jsstring :=
  let normalized := trim text in
  match language with
  | JA => convertFullWidthToHalfWidth normalized
  | ZH_CN | ZH_TW => normalizeChineseText normalized
  | _ => toLowerCase normalized
  end.

(** Keyword inference, in the key order of [intentKeywords]. *)
Definition intentKeywords : list (jsstring * list jsstring) :=
  map (fun e => (js (fst e), map js (snd e))) [
    ("create", ["new"; "add"; "create"; "make"; "build"]);
    ("delete", ["delete"; "remove"; "destroy"; "clear"]);
    ("update", ["update"; "change"; "modify"; "edit"]);
    ("search", ["find"; "search"; "look"; "where"; "what"]);
    ("help", ["help"; "how"; "why"; "explain"; "guide"]) ].

Fixpoint inferLoop (lowerText : jsstring) (entries : list (jsstring * list jsstring))
  : jsstring :=
  match entries with
  | [] => js "general"
  | (intent, keywords) :: rest =>
    if JS.some (fun keyword => includes lowerText keyword) keywords then intent
    else inferLoop lowerText rest
  end.

Definition inferIntent (text : jsstring) (_language : SupportedLanguage) : jsstring :=
  let lowerText := toLowerCase text in
  inferLoop lowerText intentKeywords.

Module IntentResult.
Record t := {
  intent : jsstring;
  entities : gmap string jsstring;
  confidence : Q;
}.
End IntentResult.

(** [Object.assign(entities, groups)] *)
Definition assign (entities : gmap string jsstring) (groups : list (string * jsstring))
  : gmap string jsstring :=
  fold_left (fun m e => <[fst e := snd e]> m) groups entities.

(** The loop over the intent patterns; the three local variables
    [detectedIntent], [confidence], [entities] are threaded through, and
    the loop stops at the first pattern that tests positive. *)
Fixpoint patternLoop (text : jsstring) (patterns : list (jsstring * RegExp))
    (vars : jsstring * Q * gmap string jsstring)
  : jsstring * Q * gmap string jsstring :=
  match patterns with
  | [] => vars
  | (intent, pattern) :: rest =>
    if test pattern text then
      let entities := snd vars in
      (intent, (8 # 10)%Q,
       match matchGroups text pattern with
       | Some groups => assign entities groups
       | None => entities
       end)
    else patternLoop text rest vars
  end.

Definition extractIntent (text : jsstring) (language : SupportedLanguage)
  : IntentResult.t :=
  let patterns :=
    match intentPatterns language with
    | Some ps => ps
    | None => default [] (intentPatterns EN)
    end in
  let '(detectedIntent, confidence, entities) :=
    patternLoop text patterns (js "unknown", 0%Q, ∅) in
  if bool_decide (detectedIntent = js "unknown") then
    {| IntentResult.intent := inferIntent text language;
       IntentResult.entities := entities;
       IntentResult.confidence := (5 # 10)%Q |}
  else
    {| IntentResult.intent := detectedIntent;
       IntentResult.entities := entities;
       IntentResult.confidence := confidence |}.

Definition clearCache (this : t) : t :=
  {| translationCache := ∅; detectionCache := ∅ |}.

End LanguageManager.

(** ** The JavaScript platform: [String(n)], [replace] and [eval]

    [eval] is modelled on the fragment of expressions in which the
    pluralization rules are written: integer literals, identifiers,
    parentheses and the binary operators [% == != < <= > >= && ||]. *)

Module Eval.

Fixpoint digits (fuel : nat) (n : Z) (acc : jsstring) : jsstring :=
  match fuel with
  | O => acc
  | S fuel' =>
    let acc' := (48 + n mod 10) :: acc in
    if n <? 10 then acc' else digits fuel' (n / 10) acc'
  end.

(** [String(n)] for an integer [n] printed in plain decimal notation. *)
Definition String_of (n : Z) : jsstring :=
  if n <? 0 then 45 :: digits (S (Z.to_nat (Z.log2 (- n)))) (- n) []
  else digits (S (Z.to_nat (Z.log2 n))) n [].

(** [s.replace(pattern, replacement)] with a string pattern: only the
    first occurrence is replaced. *)
Fixpoint replace (s pattern replacement : jsstring) : jsstring :=
  if startsWith s pattern then replacement ++ drop (length pattern) s
  else match s with
       | [] => []
       | c :: s' => c :: replace s' pattern replacement
       end.

Inductive binop : Type := Rem | Eq | Ne | Lt | Le | Gt | Ge | And | Or.

Inductive token : Type :=
| TNum (n : Z)
| TIdent (x : jsstring)
| TOp (o : binop)
| TOpen
| TClose.

Inductive expr : Type :=
| ENum (n : Z)
| EIdent (x : jsstring)
| EBin (o : binop) (a b : expr).

Inductive value : Type :=
| VNum (n : Z)
| VNaN
| VBool (b : bool).

Definition isDigit (c : Z) : bool := (48 <=? c) && (c <=? 57).
Definition isIdentStart (c : Z) : bool :=
  ((97 <=? c) && (c <=? 122)) || ((65 <=? c) && (c <=? 90)) || (c =? 95) || (c =? 36).

Fixpoint lexNumber (s : jsstring) (acc : Z) : Z * jsstring :=
  match s with
  | c :: s' => if isDigit c then lexNumber s' (10 * acc + (c - 48)) else (acc, s)
  | [] => (acc, [])
  end.

Fixpoint lexIdent (s : jsstring) (acc : jsstring) : jsstring * jsstring :=
  match s with
  | c :: s' => if isIdentStart c || isDigit c then lexIdent s' (acc ++ [c]) else (acc, s)
  | [] => (acc, [])
  end.

Fixpoint lex (fuel : nat) (s : jsstring) : option (list token) :=
  match fuel with
  | O => None
  | S fuel' =>
    match s with
    | [] => Some []
    | c :: s' =>
      if isWhiteSpace c then lex fuel' s'
      else if isDigit c then
        let '(n, rest) := lexNumber s 0 in cons (TNum n) <$> lex fuel' rest
      else if isIdentStart c then
        let '(x, rest) := lexIdent s [] in cons (TIdent x) <$> lex fuel' rest
      else if c =? 40 then cons TOpen <$> lex fuel' s'
      else if c =? 41 then cons TClose <$> lex fuel' s'
      else if c =? 37 then cons (TOp Rem) <$> lex fuel' s'
      else
        match s' with
        | d :: s'' =>
          if (c =? 61) && (d =? 61) then cons (TOp Eq) <$> lex fuel' s''
          else if (c =? 33) && (d =? 61) then cons (TOp Ne) <$> lex fuel' s''
          else if (c =? 60) && (d =? 61) then cons (TOp Le) <$> lex fuel' s''
          else if (c =? 62) && (d =? 61) then cons (TOp Ge) <$> lex fuel' s''
          else if (c =? 38) && (d =? 38) then cons (TOp And) <$> lex fuel' s''
          else if (c =? 124) && (d =? 124) then cons (TOp Or) <$> lex fuel' s''
          else if c =? 60 then cons (TOp Lt) <$> lex fuel' s'
          else if c =? 62 then cons (TOp Gt) <$> lex fuel' s'
          else None
        | [] =>
          if c =? 60 then Some [TOp Lt]
          else if c =? 62 then Some [TOp Gt]
          else None
        end
    end
  end.

(** Binding strength of the operators, loosest first. *)
Definition level (o : binop) : nat :=
  match o with
  | Or => 0 | And => 1 | Eq | Ne => 2 | Lt | Le | Gt | Ge => 3 | Rem => 4
  end%nat.

Fixpoint parseLevel (fuel : nat) (l : nat) (ts : list token)
  : option (expr * list token) :=
  match fuel with
  | O => None
  | S fuel' =>
    if (5 <=? l)%nat then
      match ts with
      | TNum n :: rest => Some (ENum n, rest)
      | TIdent x :: rest => Some (EIdent x, rest)
      | TOpen :: rest =>
        match parseLevel fuel' 0 rest with
        | Some (e, TClose :: rest') => Some (e, rest')
        | _ => None
        end
      | _ => None
      end
    else
      match parseLevel fuel' (S l) ts with
      | Some (lhs, rest) => parseTail fuel' l lhs rest
      | None => None
      end
  end
with parseTail (fuel : nat) (l : nat) (lhs : expr) (ts : list token)
  : option (expr * list token) :=
  match fuel with
  | O => None
  | S fuel' =>
    match ts with
    | TOp o :: rest =>
      if (level o =? l)%nat then
        match parseLevel fuel' (S l) rest with
        | Some (rhs, rest') => parseTail fuel' l (EBin o lhs rhs) rest'
        | None => None
        end
      else Some (lhs, ts)
    | _ => Some (lhs, ts)
    end
  end.

Definition parse (s : jsstring) : option expr :=
  match lex (S (length s)) s with
  | Some ts =>
    match parseLevel (8 * S (length ts)) 0 ts with
    | Some (e, []) => Some e
    | _ => None
    end
  | None => None
  end.

Definition truthyValue (v : value) : bool :=
  match v with
  | VNum n => negb (n =? 0)
  | VNaN => false
  | VBool b => b
  end.

(** [ToNumber] *)
Definition toNumber (v : value) : option Z :=
  match v with
  | VNum n => Some n
  | VNaN => None
  | VBool b => Some (if b then 1 else 0)
  end.

Definition compare (o : binop) (a b : value) : value :=
  match toNumber a, toNumber b with
  | Some x, Some y =>
    match o with
    | Eq => VBool (x =? y)
    | Ne => VBool (negb (x =? y))
    | Lt => VBool (x <? y)
    | Le => VBool (x <=? y)
    | Gt => VBool (y <? x)
    | Ge => VBool (y <=? x)
    | Rem => if y =? 0 then VNaN else VNum (Z.rem x y)
    | And | Or => VNaN
    end
  | _, _ =>
    match o with
    | Ne => VBool true
    | Rem => VNaN
    | _ => VBool false
    end
  end.

(** Evaluation in a scope; reading an identifier that the scope does not
    bind raises a [ReferenceError]; [&&] and [||] evaluate their right
    operand only when needed. *)
Fixpoint evaluate (scope : jsstring → option value) (e : expr) : completion value :=
  match e with
  | ENum n => Normal (VNum n)
  | EIdent x =>
    if bool_decide (x = js "true") then Normal (VBool true)
    else if bool_decide (x = js "false") then Normal (VBool false)
    else match scope x with
         | Some v => Normal v
         | None => Throw ReferenceError
         end
  | EBin And a b =>
    va ← evaluate scope a; if truthyValue va then evaluate scope b else Normal va
  | EBin Or a b =>
    va ← evaluate scope a; if truthyValue va then Normal va else evaluate scope b
  | EBin o a b =>
    va ← evaluate scope a; vb ← evaluate scope b; Normal (compare o va vb)
  end.

(** [eval(code)] called in a scope: a text that does not parse raises a
    [SyntaxError] before anything is evaluated. *)
Definition eval (scope : jsstring → option value) (code : jsstring) : completion value :=
  match parse code with
  | Some e => evaluate scope e
  | None => Throw SyntaxError
  end.

End Eval.

(** ** [src/cultural/context-analyzer.ts] *)

(** An entry of the object literal [CULTURAL_CONFIGS], as it is written. *)
Module ConfigLiteral.
Record t := {
  language : SupportedLanguage;
  region : string;
  timezone : string;
  dateFormat : string;
  numberFormat : string;
  currencyFormat : string;
  formalityLevel : FormalityLevel;
  businessEtiquette : string * CommunicationStyle * DecisionMaking;
  writingDirection : WritingDirection;
  pluralizationRules : list (string * RuleValue);
}.
End ConfigLiteral.

(** [Partial<BusinessEtiquette>] *)
Module PartialEtiquette.
Record t := {
  greetingStyle : option jsstring;
  communicationStyle : option CommunicationStyle;
  decisionMaking : option DecisionMaking;
}.
End PartialEtiquette.

(** A [Date], of which the analyzer reads the local hour only; the hour of
    an invalid date is NaN. *)
Inductive Date : Type :=
| DateAt (hours : Z)
| InvalidDate.

Module Options.
Record t := {
  region : option jsstring;
  timezone : option jsstring;
  timeOfDay : option Date;
}.
End Options.

Module CulturalContextAnalyzer.

Import ConfigLiteral.

Definition CULTURAL_CONFIGS_literal : list ConfigLiteral.t := [
  {| language := EN;
     region := "US";
     timezone := "America/New_York";
     dateFormat := "MM/DD/YYYY";
     numberFormat := "1,234.56";
     currencyFormat := "$1,234.56";
     formalityLevel := neutral;
     businessEtiquette := ("Hi/Hello", direct, individual);
     writingDirection := ltr;
     pluralizationRules := [("one", RuleNumber 1); ("other", RuleString (js "n != 1"))] |};
  {| language := RU;
     region := "RU";
     timezone := "Europe/Moscow";
     dateFormat := "DD.MM.YYYY";
     numberFormat := "1 234,56";
     currencyFormat := "1 234,56 ₽";
     formalityLevel := formal;
     businessEtiquette := ("Здравствуйте", contextual, hierarchical);
     writingDirection := ltr;
     pluralizationRules :=
       [("one", RuleString (js "n % 10 == 1 && n % 100 != 11"));
        ("few", RuleString (js "n % 10 >= 2 && n % 10 <= 4 && (n % 100 < 10 || n % 100 >= 20)"));
        ("many", RuleString (js "other"))] |};
  {| language := JA;
     region := "JP";
     timezone := "Asia/Tokyo";
     dateFormat := "YYYY年MM月DD日";
     numberFormat := "1,234.56";
     currencyFormat := "¥1,234";
     formalityLevel := very_formal;
     businessEtiquette := ("お世話になっております", indirect, consensus);
     writingDirection := ltr;
     pluralizationRules := [("other", RuleString (js "true"))] |};
  {| language := ZH_CN;
     region := "CN";
     timezone := "Asia/Shanghai";
     dateFormat := "YYYY年MM月DD日";
     numberFormat := "1,234.56";
     currencyFormat := "¥1,234.56";
     formalityLevel := formal;
     businessEtiquette := ("您好", indirect, hierarchical);
     writingDirection := ltr;
     pluralizationRules := [("other", RuleString (js "true"))] |};
  {| language := ZH_TW;
     region := "TW";
     timezone := "Asia/Taipei";
     dateFormat := "YYYY年MM月DD日";
     numberFormat := "1,234.56";
     currencyFormat := "NT$1,234.56";
     formalityLevel := formal;
     businessEtiquette := ("您好", indirect, consensus);
     writingDirection := ltr;
     pluralizationRules := [("other", RuleString (js "true"))] |};
  {| language := KO;
     region := "KR";
     timezone := "Asia/Seoul";
     dateFormat := "YYYY년 MM월 DD일";
     numberFormat := "1,234.56";
     currencyFormat := "₩1,234";
     formalityLevel := very_formal;
     businessEtiquette := ("안녕하십니까", indirect, hierarchical);
     writingDirection := ltr;
     pluralizationRules := [("other", RuleString (js "true"))] |};
  {| language := DE;
     region := "DE";
     timezone := "Europe/Berlin";
     dateFormat := "DD.MM.YYYY";
     numberFormat := "1.234,56";
     currencyFormat := "1.234,56 €";
     formalityLevel := formal;
     businessEtiquette := ("Guten Tag", direct, consensus);
     writingDirection := ltr;
     pluralizationRules :=
       [("one", RuleString (js "n == 1")); ("other", RuleString (js "n != 1"))] |};
  {| language := FR;
     region := "FR";
     timezone := "Europe/Paris";
     dateFormat := "DD/MM/YYYY";
     numberFormat := "1 234,56";
     currencyFormat := "1 234,56 €";
     formalityLevel := formal;
     businessEtiquette := ("Bonjour", contextual, hierarchical);
     writingDirection := ltr;
     pluralizationRules :=
       [("one", RuleString (js "n == 0 || n == 1")); ("other", RuleString (js "n > 1"))] |};
  {| language := ES;
     region := "ES";
     timezone := "Europe/Madrid";
     dateFormat := "DD/MM/YYYY";
     numberFormat := "1.234,56";
     currencyFormat := "1.234,56 €";
     formalityLevel := neutral;
     businessEtiquette := ("Hola/Buenos días", contextual, hierarchical);
     writingDirection := ltr;
     pluralizationRules :=
       [("one", RuleString (js "n == 1")); ("other", RuleString (js "n != 1"))] |};
  {| language := PT;
     region := "BR";
     timezone := "America/Sao_Paulo";
     dateFormat := "DD/MM/YYYY";
     numberFormat := "1.234,56";
     currencyFormat := "R$ 1.234,56";
     formalityLevel := neutral;
     businessEtiquette := ("Olá/Bom dia", contextual, consensus);
     writingDirection := ltr;
     pluralizationRules :=
       [("one", RuleString (js "n == 0 || n == 1")); ("other", RuleString (js "n > 1"))] |};
  {| language := TR;
     region := "TR";
     timezone := "Europe/Istanbul";
     dateFormat := "DD.MM.YYYY";
     numberFormat := "1.234,56";
     currencyFormat := "1.234,56 ₺";
     formalityLevel := formal;
     businessEtiquette := ("Merhaba/Günaydın", indirect, hierarchical);
     writingDirection := ltr;
     pluralizationRules :=
       [("one", RuleString (js "n == 1")); ("other", RuleString (js "n != 1"))] |}
].

(** Evaluating the literal at module load allocates one business-etiquette
    object per entry; entry number [i] holds a reference to object [i]. *)
Abbreviation Store := (gmap ref BusinessEtiquette.t).

Definition etiquetteOf (c : ConfigLiteral.t) : BusinessEtiquette.t :=
  let '(greeting, style, decision) := businessEtiquette c in
  {| BusinessEtiquette.greetingStyle := js greeting;
     BusinessEtiquette.communicationStyle := style;
     BusinessEtiquette.decisionMaking := decision |}.

Definition initialStore : Store :=
  list_to_map (imap (fun i c => (i, etiquetteOf c)) CULTURAL_CONFIGS_literal).

Definition contextOf (i : ref) (c : ConfigLiteral.t) : CulturalContext.t :=
  {| CulturalContext.language := Some (language c);
     CulturalContext.region := Some (js (region c));
     CulturalContext.timezone := Some (js (timezone c));
     CulturalContext.dateFormat := Some (js (dateFormat c));
     CulturalContext.numberFormat := Some (js (numberFormat c));
     CulturalContext.currencyFormat := Some (js (currencyFormat c));
     CulturalContext.formalityLevel := Some (formalityLevel c);
     CulturalContext.businessEtiquette := Some i;
     CulturalContext.writingDirection := Some (writingDirection c);
     CulturalContext.pluralizationRules := Some (list_to_map (pluralizationRules c)) |}.

Fixpoint lookupConfig (language : SupportedLanguage) (i : ref)
    (entries : list ConfigLiteral.t) : option CulturalContext.t :=
  match entries with
  | [] => None
  | c :: rest =>
    if bool_decide (ConfigLiteral.language c = language) then Some (contextOf i c)
    else lookupConfig language (S i) rest
  end.

(** [CULTURAL_CONFIGS[language]]: the stored object, or [undefined]. *)
Definition CULTURAL_CONFIGS (language : SupportedLanguage) : option CulturalContext.t :=
  lookupConfig language 0%nat CULTURAL_CONFIGS_literal.

(** Time-based greetings for different cultures. *)
Module Greetings.
Record t := { morning : string; afternoon : string; evening : string; night : string }.
End Greetings.

Definition TIME_BASED_GREETINGS (language : SupportedLanguage) : option Greetings.t :=
  match language with
  | EN => Some {| Greetings.morning := "Good morning"; Greetings.afternoon := "Good afternoon";
                  Greetings.evening := "Good evening"; Greetings.night := "Good night" |}
  | RU => Some {| Greetings.morning := "Доброе утро"; Greetings.afternoon := "Добрый день";
                  Greetings.evening := "Добрый вечер"; Greetings.night := "Спокойной ночи" |}
  | JA => Some {| Greetings.morning := "おはようございます"; Greetings.afternoon := "こんにちは";
                  Greetings.evening := "こんばんは"; Greetings.night := "おやすみなさい" |}
  | ZH_CN => Some {| Greetings.morning := "早上好"; Greetings.afternoon := "下午好";
                     Greetings.evening := "晚上好"; Greetings.night := "晚安" |}
  | ZH_TW => Some {| Greetings.morning := "早安"; Greetings.afternoon := "午安";
                     Greetings.evening := "晚安"; Greetings.night := "晚安" |}
  | KO => Some {| Greetings.morning := "좋은 아침입니다"; Greetings.afternoon := "안녕하세요";
                  Greetings.evening := "좋은 저녁입니다"; Greetings.night := "안녕히 주무세요" |}
  | DE => Some {| Greetings.morning := "Guten Morgen"; Greetings.afternoon := "Guten Tag";
                  Greetings.evening := "Guten Abend"; Greetings.night := "Gute Nacht" |}
  | FR => Some {| Greetings.morning := "Bonjour"; Greetings.afternoon := "Bon après-midi";
                  Greetings.evening := "Bonsoir"; Greetings.night := "Bonne nuit" |}
  | ES => Some {| Greetings.morning := "Buenos días"; Greetings.afternoon := "Buenas tardes";
                  Greetings.evening := "Buenas tardes"; Greetings.night := "Buenas noches" |}
  | PT => Some {| Greetings.morning := "Bom dia"; Greetings.afternoon := "Boa tarde";
                  Greetings.evening := "Boa noite"; Greetings.night := "Boa noite" |}
  | TR => Some {| Greetings.morning := "Günaydın"; Greetings.afternoon := "İyi günler";
                  Greetings.evening := "İyi akşamlar"; Greetings.night := "İyi geceler" |}
  | TH | IT | HI => None
  end.

Module Markers.
Record t := { informal : list string; formal : list string; veryFormal : list string }.
End Markers.

(** Language-specific formality markers. *)
Definition formalityMarkers (language : SupportedLanguage) : option Markers.t :=
  match language with
  | EN => Some {|
      Markers.informal := ["hey"; "hi"; "yeah"; "yep"; "nope"; "gonna"; "wanna"];
      Markers.formal := ["please"; "kindly"; "would you"; "could you"; "sir"; "madam"];
      Markers.veryFormal := ["respectfully"; "esteemed"; "distinguished"; "honorable"] |}
  | RU => Some {|
      Markers.informal := ["привет"; "ты"; "твой"; "давай"; "окей"];
      Markers.formal := ["вы"; "ваш"; "пожалуйста"; "будьте добры"];
      Markers.veryFormal := ["уважаемый"; "господин"; "госпожа"; "высокоуважаемый"] |}
  | JA => Some {|
      Markers.informal := ["だ"; "だよ"; "だね"; "じゃん"; "ちゃん"];
      Markers.formal := ["です"; "ます"; "ください"; "さん"];
      Markers.veryFormal := ["ございます"; "いらっしゃいます"; "申し上げます"; "様"] |}
  | KO => Some {|
      Markers.informal := ["야"; "아/어"; "니"; "너"; "네"];
      Markers.formal := ["요"; "습니다"; "세요"; "씨"];
      Markers.veryFormal := ["십니다"; "하십시오"; "님"; "귀하"] |}
  | _ => None
  end.

(** The number of markers of a tier that occur in the text. *)
Definition countMarkers (lowerText : jsstring) (markers : list string) : nat :=
  fold_left (fun count marker =>
               if includes lowerText (js marker) then S count else count)
            markers 0%nat.

Definition detectFormalityLevel (text : jsstring) (language : SupportedLanguage)
  : option FormalityLevel :=
  let lowerText := toLowerCase text in
  match formalityMarkers language with
  | None => None
  | Some markers =>
    let informalCount := countMarkers lowerText (Markers.informal markers) in
    let formalCount := countMarkers lowerText (Markers.formal markers) in
    let veryFormalCount := countMarkers lowerText (Markers.veryFormal markers) in
    if (0 <? veryFormalCount)%nat then Some very_formal
    else if (informalCount <? formalCount)%nat then Some formal
    else if (formalCount <? informalCount)%nat then Some informal
    else Some neutral
  end.

(** Comparisons with the NaN hour of an invalid date are all false. *)
Definition getTimeBasedGreeting (language : SupportedLanguage) (time : Date)
  : option jsstring :=
  match TIME_BASED_GREETINGS language with
  | None => None
  | Some greetings =>
    match time with
    | DateAt hour =>
      if (5 <=? hour) && (hour <? 12) then Some (js (Greetings.morning greetings))
      else if (12 <=? hour) && (hour <? 17) then Some (js (Greetings.afternoon greetings))
      else if (17 <=? hour) && (hour <? 21) then Some (js (Greetings.evening greetings))
      else Some (js (Greetings.night greetings))
    | InvalidDate => Some (js (Greetings.night greetings))
    end
  end.

(** Business context indicators, in key order. *)
Definition businessIndicators : list (string * list string) := [
  ("meeting", ["meeting"; "встреча"; "会議"; "会议"; "회의"]);
  ("presentation", ["presentation"; "презентация"; "プレゼン"; "演示"; "발표"]);
  ("negotiation", ["negotiation"; "переговоры"; "交渉"; "谈判"; "협상"]);
  ("contract", ["contract"; "договор"; "契約"; "合同"; "계약"])
].

(** The loop of [detectBusinessContext]: an entry one of whose keywords
    occurs returns when it is [negotiation] or [presentation]; otherwise
    the loop goes on to the next entry. *)
Fixpoint businessLoop (lowerText : jsstring) (entries : list (string * list string))
  : option PartialEtiquette.t :=
  match entries with
  | [] => None
  | (context, keywords) :: rest =>
    if JS.some (fun keyword => includes lowerText (js keyword)) keywords then
      if bool_decide (context = "negotiation"%string) then
        Some {| PartialEtiquette.greetingStyle := None;
                PartialEtiquette.communicationStyle := Some indirect;
                PartialEtiquette.decisionMaking := Some consensus |}
      else if bool_decide (context = "presentation"%string) then
        Some {| PartialEtiquette.greetingStyle := None;
                PartialEtiquette.communicationStyle := Some direct;
                PartialEtiquette.decisionMaking := Some hierarchical |}
      else businessLoop lowerText rest
    else businessLoop lowerText rest
  end.

Definition detectBusinessContext (text : jsstring) (language : SupportedLanguage)
  : option PartialEtiquette.t :=
  let lowerText := toLowerCase text in
  businessLoop lowerText businessIndicators.

(** Property writes on the fresh top-level copy. *)
Definition setRegion (v : jsstring) (c : CulturalContext.t) : CulturalContext.t :=
  {| CulturalContext.language := CulturalContext.language c;
     CulturalContext.region := Some v;
     CulturalContext.timezone := CulturalContext.timezone c;
     CulturalContext.dateFormat := CulturalContext.dateFormat c;
     CulturalContext.numberFormat := CulturalContext.numberFormat c;
     CulturalContext.currencyFormat := CulturalContext.currencyFormat c;
     CulturalContext.formalityLevel := CulturalContext.formalityLevel c;
     CulturalContext.businessEtiquette := CulturalContext.businessEtiquette c;
     CulturalContext.writingDirection := CulturalContext.writingDirection c;
     CulturalContext.pluralizationRules := CulturalContext.pluralizationRules c |}.

Definition setTimezone (v : jsstring) (c : CulturalContext.t) : CulturalContext.t :=
  {| CulturalContext.language := CulturalContext.language c;
     CulturalContext.region := CulturalContext.region c;
     CulturalContext.timezone := Some v;
     CulturalContext.dateFormat := CulturalContext.dateFormat c;
     CulturalContext.numberFormat := CulturalContext.numberFormat c;
     CulturalContext.currencyFormat := CulturalContext.currencyFormat c;
     CulturalContext.formalityLevel := CulturalContext.formalityLevel c;
     CulturalContext.businessEtiquette := CulturalContext.businessEtiquette c;
     CulturalContext.writingDirection := CulturalContext.writingDirection c;
     CulturalContext.pluralizationRules := CulturalContext.pluralizationRules c |}.

Definition setFormalityLevel (v : FormalityLevel) (c : CulturalContext.t)
  : CulturalContext.t :=
  {| CulturalContext.language := CulturalContext.language c;
     CulturalContext.region := CulturalContext.region c;
     CulturalContext.timezone := CulturalContext.timezone c;
     CulturalContext.dateFormat := CulturalContext.dateFormat c;
     CulturalContext.numberFormat := CulturalContext.numberFormat c;
     CulturalContext.currencyFormat := CulturalContext.currencyFormat c;
     CulturalContext.formalityLevel := Some v;
     CulturalContext.businessEtiquette := CulturalContext.businessEtiquette c;
     CulturalContext.writingDirection := CulturalContext.writingDirection c;
     CulturalContext.pluralizationRules := CulturalContext.pluralizationRules c |}.

(** Property writes on a business-etiquette object of the store. *)
Definition setGreetingStyle (greeting : jsstring) (e : BusinessEtiquette.t)
  : BusinessEtiquette.t :=
  {| BusinessEtiquette.greetingStyle := greeting;
     BusinessEtiquette.communicationStyle := BusinessEtiquette.communicationStyle e;
     BusinessEtiquette.decisionMaking := BusinessEtiquette.decisionMaking e |}.

(** [Object.assign(target, source)] *)
Definition assignEtiquette (source : PartialEtiquette.t) (target : BusinessEtiquette.t)
  : BusinessEtiquette.t :=
  {| BusinessEtiquette.greetingStyle :=
       default (BusinessEtiquette.greetingStyle target) (PartialEtiquette.greetingStyle source);
     BusinessEtiquette.communicationStyle :=
       default (BusinessEtiquette.communicationStyle target)
               (PartialEtiquette.communicationStyle source);
     BusinessEtiquette.decisionMaking :=
       default (BusinessEtiquette.decisionMaking target)
               (PartialEtiquette.decisionMaking source) |}.

(** [analyze]: the spread copies the top-level properties of the stored
    object, so the copy holds the same reference to the business-etiquette
    object as the table does; the writes to [baseContext.businessEtiquette]
    go through that reference into the store. *)
Definition analyze (language : SupportedLanguage) (text : jsstring)
    (options : option Options.t) (store : Store) : CulturalContext.t * Store :=
  let baseContext := default CulturalContext.empty (CULTURAL_CONFIGS language) in
  let baseContext :=
    match options ≫= Options.region with
    | Some region => if truthy region then setRegion region baseContext else baseContext
    | None => baseContext
    end in
  let baseContext :=
    match options ≫= Options.timezone with
    | Some timezone => if truthy timezone then setTimezone timezone baseContext else baseContext
    | None => baseContext
    end in
  let baseContext :=
    match detectFormalityLevel text language with
    | Some detectedFormality => setFormalityLevel detectedFormality baseContext
    | None => baseContext
    end in
  let store :=
    match options ≫= Options.timeOfDay with
    | Some timeOfDay =>
      match getTimeBasedGreeting language timeOfDay, CulturalContext.businessEtiquette baseContext with
      | Some greeting, Some etiquette =>
        if truthy greeting then alter (setGreetingStyle greeting) etiquette store else store
      | _, _ => store
      end
    | None => store
    end in
  let store :=
    match detectBusinessContext text language, CulturalContext.businessEtiquette baseContext with
    | Some businessContext, Some etiquette => alter (assignEtiquette businessContext) etiquette store
    | _, _ => store
    end in
  (baseContext, store).

(** The scope in which [applyPluralization] calls [eval]: of its local
    variables only [count] holds a number; [n] is not among them. *)
Definition pluralizationScope (count : Z) (x : jsstring) : option Eval.value :=
  if bool_decide (x = js "count") then Some (Eval.VNum count) else None.

(** [applyPluralization].  [rules.one] is tested for truthiness, then its
    [replace] method is called, which a number does not have. *)
Definition applyPluralization (count : Z) (singular plural : jsstring)
    (context : CulturalContext.t) : completion jsstring :=
  match CulturalContext.pluralizationRules context with
  | None => Normal (if count =? 1 then singular else plural)
  | Some rules =>
    match rules !! "one"%string with
    | None => Normal plural
    | Some (RuleNumber k) => if k =? 0 then Normal plural else Throw TypeError
    | Some (RuleString one) =>
      if truthy one then
        v ← Eval.eval (pluralizationScope count)
                      (Eval.replace one (js "n") (Eval.String_of count));
        Normal (if Eval.truthyValue v then singular else plural)
      else Normal plural
    end
  end.

(** The stored base profile of a language with its nested object read
    through the store: what a reader of [CULTURAL_CONFIGS[language]] sees. *)
Definition baseProfile (store : Store) (language : SupportedLanguage)
  : option (CulturalContext.t * option BusinessEtiquette.t) :=
  match CULTURAL_CONFIGS language with
  | Some c => Some (c, CulturalContext.businessEtiquette c ≫= fun r => store !! r)
  | None => None
  end.

End CulturalContextAnalyzer.

(** ** [src/polyglot/polyglot-agent.ts] *)

(** [Partial<TranslationContext>] *)
Module PartialTranslationContext.
Record t := {
  sourceLanguage : option SupportedLanguage;
  targetLanguage : option SupportedLanguage;
  domain : option jsstring;
  preserveFormatting : option bool;
  culturalAdaptation : option bool;
}.
End PartialTranslationContext.

Module PolyglotAgent.

(** What an agent reads and writes: its language manager, and the store
    of the objects of the cultural table, which its analyzer reaches. *)
Record t := {
  languageManager : LanguageManager.t;
  culturalStore : CulturalContextAnalyzer.Store;
}.

Definition new : t :=
  {| languageManager := LanguageManager.new;
     culturalStore := CulturalContextAnalyzer.initialStore |}.

Definition withManager (lm : LanguageManager.t) (this : t) : t :=
  {| languageManager := lm; culturalStore := culturalStore this |}.

Definition withStore (store : CulturalContextAnalyzer.Store) (this : t) : t :=
  {| languageManager := languageManager this; culturalStore := store |}.

(** [detectLanguage] of the agent; the warning it may log is not kept. *)
Definition detectLanguage (input : jsstring) (this : t)
  : completion (SupportedLanguage * t) :=
  '(detection, lm) ← LanguageManager.detectLanguage input (languageManager this);
  Normal (LanguageDetectionResult.language detection, withManager lm this).

Definition applyCulturalAdaptations (content : jsstring) (culture : CulturalContext.t)
  : jsstring := content.

(** [{ sourceLanguage, targetLanguage, culturalAdaptation: true,
       preserveFormatting: true, ...options }] *)
Definition spreadContext (sourceLanguage targetLanguage : SupportedLanguage)
    (options : option PartialTranslationContext.t) : TranslationContext.t :=
  {| TranslationContext.sourceLanguage :=
       default sourceLanguage (options ≫= PartialTranslationContext.sourceLanguage);
     TranslationContext.targetLanguage :=
       default targetLanguage (options ≫= PartialTranslationContext.targetLanguage);
     TranslationContext.domain := options ≫= PartialTranslationContext.domain;
     TranslationContext.preserveFormatting :=
       Some (default true (options ≫= PartialTranslationContext.preserveFormatting));
     TranslationContext.culturalAdaptation :=
       Some (default true (options ≫= PartialTranslationContext.culturalAdaptation)) |}.

Definition translate (content : jsstring) (targetLanguage : SupportedLanguage)
    (options : option PartialTranslationContext.t) (this : t)
  : completion (jsstring * t) :=
  '(sourceLanguage, this) ← detectLanguage content this;
  let context := spreadContext sourceLanguage targetLanguage options in
  let '(translated, lm) :=
    LanguageManager.translate content context (languageManager this) in
  let this := withManager lm this in
  if default false (TranslationContext.culturalAdaptation context) then
    let '(targetCulture, store) :=
      CulturalContextAnalyzer.analyze targetLanguage translated None (culturalStore this) in
    Normal (applyCulturalAdaptations translated targetCulture, withStore store this)
  else Normal (translated, this).

(** [{ domain: 'technical', culturalAdaptation: true }], the options that
    [generateMultilingualResponse] passes to [translate]. *)
Definition fanOutOptions : option PartialTranslationContext.t :=
  Some {| PartialTranslationContext.sourceLanguage := None;
          PartialTranslationContext.targetLanguage := None;
          PartialTranslationContext.domain := Some (js "technical");
          PartialTranslationContext.preserveFormatting := None;
          PartialTranslationContext.culturalAdaptation := Some true |}.

Section Agent.

(** [execute] is inherited from the base agent, which is outside this
    repository's sources: it yields a response or raises. *)
Variable execute : jsstring → completion jsstring.

(** The agent's primary language, fixed by its constructor. *)
Variable primaryLanguage : SupportedLanguage.

(** The translations started by [generateMultilingualResponse], taken in
    the order of the list; each one writes its own key of [responses]. *)
Fixpoint translateAll (baseResponse : jsstring) (languages : list SupportedLanguage)
    (responses : gmap SupportedLanguage jsstring) (this : t)
  : completion (gmap SupportedLanguage jsstring * t) :=
  match languages with
  | [] => Normal (responses, this)
  | lang :: rest =>
    '(translated, this) ← translate baseResponse lang fanOutOptions this;
    translateAll baseResponse rest (<[lang := translated]> responses) this
  end.

Definition generateMultilingualResponse (prompt : jsstring)
    (languages : list SupportedLanguage) (this : t)
  : completion (gmap SupportedLanguage jsstring * t) :=
  let responses : gmap SupportedLanguage jsstring := ∅ in
  baseResponse ← execute prompt;
  let responses := <[primaryLanguage := baseResponse]> responses in
  translateAll baseResponse
    (filter (fun lang => lang ≠ primaryLanguage) languages) responses this.

End Agent.

End PolyglotAgent.

(** ** The business-topic scan as the specification words it *)

Module Spec.

Import CulturalContextAnalyzer.

(** What a topic forces once it is the matched one. *)
Definition topicEffect (context : string) : option PartialEtiquette.t :=
  if bool_decide (context = "negotiation"%string) then
    Some {| PartialEtiquette.greetingStyle := None;
            PartialEtiquette.communicationStyle := Some indirect;
            PartialEtiquette.decisionMaking := Some consensus |}
  else if bool_decide (context = "presentation"%string) then
    Some {| PartialEtiquette.greetingStyle := None;
            PartialEtiquette.communicationStyle := Some direct;
            PartialEtiquette.decisionMaking := Some hierarchical |}
  else None.

(** "First topic matched (fixed order) wins, no further topics checked." *)
Fixpoint firstTopicWins (lowerText : jsstring) (entries : list (string * list string))
  : option PartialEtiquette.t :=
  match entries with
  | [] => None
  | (context, keywords) :: rest =>
    if JS.some (fun keyword => includes lowerText (js keyword)) keywords
    then topicEffect context
    else firstTopicWins lowerText rest
  end.

(** Whether a keyword of the topic occurs in the text. *)
Definition mentions (text : jsstring) (context : string) : bool :=
  match list_find (fun e => fst e = context) businessIndicators with
  | Some (_, (_, keywords)) =>
    JS.some (fun keyword => includes (toLowerCase text) (js keyword)) keywords
  | None => false
  end.

End Spec.

(** ** Coherence of the caches

    The two caches are private to the manager; they are written by
    [detectLanguage] and [translate] and emptied by [clearCache]. *)

Module Cache.

Import LanguageManager.

(** Every cached detection is the result that a manager with empty caches
    computes for that text. *)
Definition detectionCoherent (this : LanguageManager.t) : Prop :=
  ∀ text cached,
    detectionCache this !! text = Some cached →
    ∃ this', detectLanguage text LanguageManager.new = Normal (cached, this').

(** Every cached translation is the tagged text that [performTranslation]
    makes for its key and language. *)
Definition translationCoherent (this : LanguageManager.t) : Prop :=
  ∀ text perLanguage target translated,
    translationCache this !! text = Some perLanguage →
    perLanguage !! target = Some translated →
    translated = js "[" ++ getLanguagePrefix target ++ js "] " ++ text.

Definition coherent (this : LanguageManager.t) : Prop :=
  detectionCoherent this ∧ translationCoherent this.

(** The states of a manager: the one built by the constructor, and those
    that its operations lead to. *)
Inductive reachable : LanguageManager.t → Prop :=
| reachable_new : reachable LanguageManager.new
| reachable_detectLanguage text this r this' :
    reachable this →
    detectLanguage text this = Normal (r, this') →
    reachable this'
| reachable_translate text context this :
    reachable this →
    reachable (snd (LanguageManager.translate text context this))
| reachable_clearCache this :
    reachable this →
    reachable (clearCache this).

End Cache.

(** ** The patterns that [extractIntent] resolves for a language *)

Module Intent.

Import LanguageManager.

Definition resolvedPatterns (language : SupportedLanguage) : list (jsstring * RegExp) :=
  match intentPatterns language with
  | Some ps => ps
  | None => default [] (intentPatterns EN)
  end.

(** Whether some resolved pattern tests positive on the text. *)
Definition patternMatched (text : jsstring) (language : SupportedLanguage) : bool :=
  existsb (fun e => test (snd e) text) (resolvedPatterns language).

End Intent.

Import LanguageManager CulturalContextAnalyzer.

(** ** Auxiliary notions of the proofs *)

(** The result that [detectLanguage] computes on a cache miss. *)
Definition computed (text : jsstring) (r : LanguageDetectionResult.t) : Prop :=
  ∃ top rest,
    JSArray.sort (fun a b => Z.of_nat (snd b) - Z.of_nat (snd a)) (scoreLanguages text)
      = top :: rest
    ∧ r = {| LanguageDetectionResult.language := fst top;
             LanguageDetectionResult.confidence :=
               ratio (snd top)
                 (fold_left (fun sum score => (sum + score)%nat)
                            (map snd (scoreLanguages text)) 0%nat);
             LanguageDetectionResult.alternatives :=
               map (fun e =>
                      {| Alternative.language := fst e;
                         Alternative.confidence :=
                           ratio (snd e)
                             (fold_left (fun sum score => (sum + score)%nat)
                                        (map snd (scoreLanguages text)) 0%nat) |})
                   (take 3 rest);
             LanguageDetectionResult.script := detectScript text |}.

(** A string is clean at an end when it is empty or its character at that
    end is not white space. *)
Definition startsClean (s : jsstring) : bool :=
  match s with
  | [] => true
  | c :: _ => negb (isWhiteSpace c)
  end.

Definition endsClean (s : jsstring) : bool := startsClean (rev s).

(** The full-width fold, as a per-unit transform. *)
Definition halfWidthUnit (ch : Z) : jsstring :=
  [if (0xff01 <=? ch) && (ch <=? 0xff5e) then ch - 0xfee0 else ch].

(** ** [getCacheStats] of the language manager *)

Module CacheStats.
Record t := {
  translationEntries : nat;
  detectionEntries : nat;
  totalSize : nat;
}.
End CacheStats.

Module ManagerStats.

Import LanguageManager.

(** [translationEntries] is the size of the outer map, keyed by text;
    [totalSize] adds two bytes for every code unit of every cached
    translation. *)
Definition getCacheStats (this : LanguageManager.t) : CacheStats.t :=
  let translationEntries := size (translationCache this) in
  let detectionEntries := size (detectionCache this) in
  let totalSize :=
    map_fold (fun _ langMap totalSize =>
                map_fold (fun _ translation totalSize =>
                            (totalSize + length translation * 2)%nat)
                         totalSize langMap)
             0%nat (translationCache this) in
  {| CacheStats.translationEntries := translationEntries;
     CacheStats.detectionEntries := detectionEntries;
     CacheStats.totalSize := totalSize |}.

End ManagerStats.

(** ** The analyzer's formatting and advice *)

(** What [formatDate] reads of a [Date]: the local year, month and day of
    a valid date; all three are NaN for an invalid one. *)
Inductive CalendarDate : Type :=
| ValidDate (getFullYear getMonth getDate : Z)
| InvalidCalendarDate.

Module Sensitivity.
Record t := { isSensitive : bool; warnings : list string }.
End Sensitivity.

Module CulturalAdvice.

Import CulturalContextAnalyzer.

(** [s.padStart(2, '0')] *)
Definition padStart2 (s : jsstring) : jsstring :=
  replicate (2 - length s) 0x30 ++ s.

(** [String(x)] of a number read from a date. *)
Definition String_of_field (x : option Z) : jsstring :=
  match x with
  | Some n => Eval.String_of n
  | None => js "NaN"
  end.

(** [formatDate]: reading [replace] of an absent [dateFormat] raises. *)
Definition formatDate (date : CalendarDate) (context : CulturalContext.t)
  : completion jsstring :=
  let year := match date with ValidDate y _ _ => Some y | InvalidCalendarDate => None end in
  let month :=
    padStart2 (String_of_field
                 match date with ValidDate _ m _ => Some (m + 1) | InvalidCalendarDate => None end) in
  let day :=
    padStart2 (String_of_field
                 match date with ValidDate _ _ d => Some d | InvalidCalendarDate => None end) in
  match CulturalContext.dateFormat context with
  | None => Throw TypeError
  | Some dateFormat =>
    let s := Eval.replace dateFormat (js "YYYY") (String_of_field year) in
    let s := Eval.replace s (js "MM") month in
    let s := Eval.replace s (js "DD") day in
    let s := Eval.replace s (js "年") (js "年") in
    let s := Eval.replace s (js "月") (js "月") in
    let s := Eval.replace s (js "日") (js "日") in
    let s := Eval.replace s (js "년") (js "년") in
    let s := Eval.replace s (js "월") (js "월") in
    let s := Eval.replace s (js "일") (js "일") in
    Normal s
  end.

(** [getCommunicationRecommendations]; the nested object is read through
    the store. *)
Definition getCommunicationRecommendations (context : CulturalContext.t) (store : Store)
  : list string :=
  let recommendations := [] in
  let recommendations :=
    match CulturalContext.businessEtiquette context ≫= (fun r => store !! r) with
    | Some etiquette =>
      let communicationStyle := BusinessEtiquette.communicationStyle etiquette in
      let decisionMaking := BusinessEtiquette.decisionMaking etiquette in
      let recommendations :=
        match communicationStyle with
        | indirect =>
          recommendations ++ ["Use indirect communication, avoid direct confrontation";
                              "Pay attention to non-verbal cues and context"]
        | _ => recommendations
        end in
      let recommendations :=
        match communicationStyle with
        | contextual =>
          recommendations ++ ["Consider the broader context when communicating";
                              "Build relationship before discussing business"]
        | _ => recommendations
        end in
      let recommendations :=
        match decisionMaking with
        | consensus =>
          recommendations ++ ["Involve all stakeholders in decision-making";
                              "Allow time for group discussion and agreement"]
        | _ => recommendations
        end in
      match decisionMaking with
      | hierarchical =>
        recommendations ++ ["Respect organizational hierarchy";
                            "Defer to senior members for final decisions"]
      | _ => recommendations
      end
    | None => recommendations
    end in
  match CulturalContext.formalityLevel context with
  | Some very_formal =>
    recommendations ++ ["Use honorifics and formal titles";
                        "Maintain professional distance"]
  | _ => recommendations
  end.

(** Potentially sensitive topics, in key order. *)
Definition sensitiveTopics : list (string * list string) := [
  ("politics", ["politics"; "government"; "election"; "политика"; "政治"]);
  ("religion", ["religion"; "god"; "faith"; "религия"; "宗教"]);
  ("personal", ["age"; "salary"; "marriage"; "возраст"; "зарплата"; "年齢"; "給料"])
].

Definition informalMarkers : list string := ["hey"; "yeah"; "nope"; "gonna"; "wanna"].

Definition checkCulturalSensitivity (text : jsstring) (context : CulturalContext.t)
  : Sensitivity.t :=
  let lowerText := toLowerCase text in
  let warnings :=
    fold_left (fun warnings entry =>
                 let '(topic, keywords) := entry in
                 if JS.some (fun keyword => includes lowerText (js keyword)) keywords
                 then warnings ++ [String.append "Contains potentially sensitive topic: " topic]
                 else warnings)
              sensitiveTopics [] in
  let warnings :=
    match CulturalContext.formalityLevel context with
    | Some formal | Some very_formal =>
      if JS.some (fun marker => includes lowerText (js marker)) informalMarkers
      then warnings ++ ["Informal language detected in formal context"%string]
      else warnings
    | _ => warnings
    end in
  {| Sensitivity.isSensitive := (0 <? length warnings)%nat;
     Sensitivity.warnings := warnings |}.

End CulturalAdvice.

(** ** The JavaScript platform: [split] and [slice] *)

Module JSSplit.

(** [s.split(/\s+/)]: the pieces between the maximal runs of white
    space; a run at either end leaves an empty piece there, and the
    empty string gives one empty piece. *)
Fixpoint splitLoop (inSeparator : bool) (current : jsstring) (s : jsstring)
  : list jsstring :=
  match s with
  | [] => [current]
  | c :: s' =>
    if isWhiteSpace c then
      if inSeparator then splitLoop true current s'
      else current :: splitLoop true [] s'
    else splitLoop false (current ++ [c]) s'
  end.

Definition split (s : jsstring) : list jsstring := splitLoop false [] s.

(** [l.slice(start)]: a negative start counts from the end. *)
Definition sliceFrom {A} (start : Z) (l : list A) : list A :=
  let len := Z.of_nat (length l) in
  let k := if start <? 0 then Z.max (len + start) 0 else Z.min start len in
  drop (Z.to_nat k) l.

End JSSplit.

(** ** The rest of [src/polyglot/polyglot-agent.ts] *)

Module MultilingualCommand.
Record t := {
  rawInput : jsstring;
  detectedLanguage : SupportedLanguage;
  normalizedCommand : jsstring;
  intent : jsstring;
  entities : gmap string jsstring;
  culturalContext : CulturalContext.t;
  confidence : Q;
}.
End MultilingualCommand.

Module ModelPreferences.
Record t := { provider : option jsstring; model : option jsstring; temperature : option Q }.
End ModelPreferences.

Module CulturalRules.
Record t := {
  formalityLevel : option FormalityLevel;
  dateFormat : option jsstring;
  numberFormat : option jsstring;
}.
End CulturalRules.

Module LanguageAgentConfig.
Record t := {
  language : SupportedLanguage;
  modelPreferences : option ModelPreferences.t;
  responseTemplate : option jsstring;
  culturalRules : option CulturalRules.t;
  specializedVocabulary : option (list jsstring);
}.
End LanguageAgentConfig.

Module PolyglotMemoryEntry.
Record t := {
  id : jsstring;
  timestamp : Z;
  language : SupportedLanguage;
  originalContent : jsstring;
  translations : gmap SupportedLanguage jsstring;
  context : option CulturalContext.t;
  tags : list jsstring;
  culturalNotes : option CommunicationStyle;
}.
End PolyglotMemoryEntry.

(** The object that [executeWithCulturalContext] hands to [execute]. *)
Module TaskRequest.
Record t := {
  task : jsstring;
  language : SupportedLanguage;
  culturalContext : CulturalContext.t;
  formality : option FormalityLevel;
  communicationStyle : CommunicationStyle;
  dateFormat : option jsstring;
  numberFormat : option jsstring;
  modelConfig : option ModelPreferences.t;
}.
End TaskRequest.

(** What [processInNativeLanguage] returns. *)
Module NativeResult.
Record t := {
  response : jsstring;
  language : SupportedLanguage;
  culturalContext : CulturalContext.t;
  confidence : Q;
}.
End NativeResult.

(** What a memory entry takes from outside: the two readings of the
    clock and the text that [Math.random().toString(36).substr(2, 9)]
    gives. *)
Module Entropy.
Record t := { now : Z; random : jsstring; timestamp : Z }.
End Entropy.

Module PolyglotPipeline.

Import PolyglotAgent.

(** [generateTranslationPairs] *)
Definition generateTranslationPairs : list (SupportedLanguage * SupportedLanguage) :=
  let languages := SupportedLanguage_values in
  flat_map (fun source =>
              flat_map (fun target =>
                          if bool_decide (source ≠ target) then [(source, target)] else [])
                       languages)
           languages.

(** [extractTags] *)
Definition extractTags (input : jsstring) : list jsstring :=
  let words := JSSplit.split (toLowerCase input) in
  take 5 (List.filter (fun word => (4 <? length word)%nat) words).

(** [initializeLanguageConfigs] fills the map once, in the constructor. *)
Definition languageConfigs (language : SupportedLanguage) : option LanguageAgentConfig.t :=
  let config temperature responseTemplate formalityLevel dateFormat numberFormat vocabulary :=
    Some {| LanguageAgentConfig.language := language;
            LanguageAgentConfig.modelPreferences :=
              Some {| ModelPreferences.provider := None; ModelPreferences.model := None;
                      ModelPreferences.temperature := Some temperature |};
            LanguageAgentConfig.responseTemplate := Some (js responseTemplate);
            LanguageAgentConfig.culturalRules :=
              Some {| CulturalRules.formalityLevel := Some formalityLevel;
                      CulturalRules.dateFormat := Some (js dateFormat);
                      CulturalRules.numberFormat := Some (js numberFormat) |};
            LanguageAgentConfig.specializedVocabulary := vocabulary |} in
  match language with
  | EN => config (7 # 10)%Q "professional" neutral "MM/DD/YYYY" "1,234.56" None
  | RU => config (8 # 10)%Q "formal" formal "DD.MM.YYYY" "1 234,56" None
  | JA => config (6 # 10)%Q "polite" very_formal "YYYY年MM月DD日" "1,234.56"
                 (Some [js "敬語"; js "丁寧語"; js "謙譲語"])
  | ZH_CN => config (7 # 10)%Q "professional" formal "YYYY年MM月DD日" "1,234.56" None
  | _ => None
  end.

(** [parseMultilingualCommand] *)
Definition parseMultilingualCommand (input : jsstring) (language : SupportedLanguage)
    (culturalContext : CulturalContext.t) : MultilingualCommand.t :=
  let normalized := LanguageManager.normalize input language in
  let r := LanguageManager.extractIntent normalized language in
  {| MultilingualCommand.rawInput := input;
     MultilingualCommand.detectedLanguage := language;
     MultilingualCommand.normalizedCommand := normalized;
     MultilingualCommand.intent := LanguageManager.IntentResult.intent r;
     MultilingualCommand.entities := LanguageManager.IntentResult.entities r;
     MultilingualCommand.culturalContext := culturalContext;
     MultilingualCommand.confidence := LanguageManager.IntentResult.confidence r |}.

(** [adaptExecutionContext]; the communication style is read through the
    store and defaults to [direct]. *)
Definition adaptExecutionContext (culturalContext : CulturalContext.t)
    (config : option LanguageAgentConfig.t) (store : CulturalContextAnalyzer.Store)
  : option FormalityLevel * CommunicationStyle * option jsstring * option jsstring
    * option ModelPreferences.t :=
  (CulturalContext.formalityLevel culturalContext,
   default direct
     (BusinessEtiquette.communicationStyle
        <$> (CulturalContext.businessEtiquette culturalContext ≫= fun r => store !! r)),
   CulturalContext.dateFormat culturalContext,
   CulturalContext.numberFormat culturalContext,
   config ≫= LanguageAgentConfig.modelPreferences).

Definition applyFormalityRules (content : jsstring) (language : SupportedLanguage)
  : jsstring := content.

Definition applyResponseTemplate (content template : jsstring) (language : SupportedLanguage)
  : jsstring := content.

Definition applyCulturalFormatting (content : jsstring) (culture : CulturalContext.t)
  : jsstring := content.

(** [formatCulturalResponse] *)
Definition formatCulturalResponse (response : jsstring) (language : SupportedLanguage)
    (culturalContext : CulturalContext.t) (config : option LanguageAgentConfig.t)
  : jsstring :=
  let formatted := response in
  let formatted :=
    match CulturalContext.formalityLevel culturalContext with
    | Some very_formal => applyFormalityRules formatted language
    | _ => formatted
    end in
  let formatted :=
    match config ≫= LanguageAgentConfig.responseTemplate with
    | Some template =>
      if truthy template then applyResponseTemplate formatted template language
      else formatted
    | None => formatted
    end in
  applyCulturalFormatting formatted culturalContext.

Section Pipeline.

(** The base agent is outside this repository's sources.  Its state is
    kept abstract; [execute] and [addMemory] are its methods: each
    yields a result and a new state, or raises. *)
Variable Base : Type.
Variable execute : TaskRequest.t → Base → completion (jsstring * Base).
Variable addMemory : jsstring → jsstring → Base → completion Base.

Record state := {
  agent : PolyglotAgent.t;
  memoryByLanguage : gmap SupportedLanguage (list PolyglotMemoryEntry.t);
  base : Base;
}.

(** [executeWithCulturalContext] *)
Definition executeWithCulturalContext (command : MultilingualCommand.t)
    (culturalContext : CulturalContext.t) (config : option LanguageAgentConfig.t)
    (this : state) : completion (jsstring * state) :=
  let '(formality, communicationStyle, dateFormat, numberFormat, modelConfig) :=
    adaptExecutionContext culturalContext config (culturalStore (agent this)) in
  '(result, base') ←
    execute {| TaskRequest.task := MultilingualCommand.normalizedCommand command;
               TaskRequest.language := MultilingualCommand.detectedLanguage command;
               TaskRequest.culturalContext := culturalContext;
               TaskRequest.formality := formality;
               TaskRequest.communicationStyle := communicationStyle;
               TaskRequest.dateFormat := dateFormat;
               TaskRequest.numberFormat := numberFormat;
               TaskRequest.modelConfig := modelConfig |}
            (base this);
  let formattedResponse :=
    formatCulturalResponse result (MultilingualCommand.detectedLanguage command)
                           culturalContext config in
  Normal (formattedResponse,
          {| agent := agent this; memoryByLanguage := memoryByLanguage this;
             base := base' |}).

(** [storePolyglotMemory]: the entry is pushed on the list of its
    language, which is created when missing; then the base memory is
    written. *)
Definition storePolyglotMemory (input response : jsstring) (language : SupportedLanguage)
    (culturalContext : option CulturalContext.t) (entropy : Entropy.t) (this : state)
  : completion state :=
  let entry :=
    {| PolyglotMemoryEntry.id :=
         js "poly-" ++ Eval.String_of (Entropy.now entropy) ++ js "-" ++ Entropy.random entropy;
       PolyglotMemoryEntry.timestamp := Entropy.timestamp entropy;
       PolyglotMemoryEntry.language := language;
       PolyglotMemoryEntry.originalContent := input;
       PolyglotMemoryEntry.translations := <[language := response]> ∅;
       PolyglotMemoryEntry.context := culturalContext;
       PolyglotMemoryEntry.tags := extractTags input;
       PolyglotMemoryEntry.culturalNotes :=
         BusinessEtiquette.communicationStyle
           <$> ((culturalContext ≫= CulturalContext.businessEtiquette)
                  ≫= fun r => culturalStore (agent this) !! r) |} in
  let memories := default [] (memoryByLanguage this !! language) in
  let memoryByLanguage' := <[language := memories ++ [entry]]> (memoryByLanguage this) in
  base' ← addMemory (input ++ js " -> " ++ response) (js "polyglot_interaction") (base this);
  Normal {| agent := agent this; memoryByLanguage := memoryByLanguage'; base := base' |}.

(** [getMemoriesInLanguage]; the limit is 10 when none is given. *)
Definition getMemoriesInLanguage (language : SupportedLanguage) (limit : option Z)
    (this : state) : list PolyglotMemoryEntry.t :=
  let limit := default 10 limit in
  let memories := default [] (memoryByLanguage this !! language) in
  JSSplit.sliceFrom (- limit) memories.

(** [processInNativeLanguage]; what its [catch] does is to log and to
    raise the error again. *)
Definition processInNativeLanguage (input : jsstring)
    (explicitLanguage : option SupportedLanguage) (entropy : Entropy.t) (this : state)
  : completion (NativeResult.t * state) :=
  '(detectedLanguage, agent') ←
    match explicitLanguage with
    | Some language => Normal (language, agent this)
    | None => PolyglotAgent.detectLanguage input (agent this)
    end;
  let '(culturalContext, store) :=
    CulturalContextAnalyzer.analyze detectedLanguage input None (culturalStore agent') in
  let this := {| agent := withStore store agent';
                 memoryByLanguage := memoryByLanguage this; base := base this |} in
  let command := parseMultilingualCommand input detectedLanguage culturalContext in
  let config := languageConfigs detectedLanguage in
  '(response, this) ← executeWithCulturalContext command culturalContext config this;
  this ← storePolyglotMemory input response detectedLanguage (Some culturalContext)
                             entropy this;
  Normal ({| NativeResult.response := response;
             NativeResult.language := detectedLanguage;
             NativeResult.culturalContext := culturalContext;
             NativeResult.confidence := MultilingualCommand.confidence command |},
          this).

End Pipeline.

End PolyglotPipeline.

(** An instance of the base agent for the examples: [execute] answers
    with the task it was given, and [addMemory] does nothing. *)
Definition echoExecute (request : TaskRequest.t) (base : unit)
  : completion (jsstring * unit) := Normal (TaskRequest.task request, base).

Definition noMemory (content kind : jsstring) (base : unit) : completion unit :=
  Normal base.

Definition freshPipeline : PolyglotPipeline.state unit :=
  {| PolyglotPipeline.agent := PolyglotAgent.new;
     PolyglotPipeline.memoryByLanguage := ∅;
     PolyglotPipeline.base := tt |}.

Definition someEntropy : Entropy.t :=
  {| Entropy.now := 1700000000000; Entropy.random := js "k3j9x0q2z";
     Entropy.timestamp := 1700000000000 |}.

(** ** [src/cli/multilang-parser.ts] *)

(** A value read from a plain object whose own properties hold strings:
    the string of an own property, or what the key inherits from
    [Object.prototype], which is a function or an object. *)
Inductive PropertyValue : Type :=
| PString (s : jsstring)
| PInherited (key : jsstring).

(** The value of a flag: [true] or the argument that follows it. *)
Inductive FlagValue : Type :=
| FlagTrue
| FlagString (s : jsstring).

Module ParsedCommand.
Record t := {
  command : PropertyValue;
  args : list jsstring;
  flags : gmap jsstring FlagValue;
}.
End ParsedCommand.

Module CommandResult.
Record t := {
  command : PropertyValue;
  args : list jsstring;
  flags : gmap jsstring FlagValue;
  originalInput : jsstring;
  detectedLanguage : SupportedLanguage;
  confidence : Q;
}.
End CommandResult.

Module PhrasePattern.
Record t := { pattern : RegExp; command : string; action : option string }.
End PhrasePattern.

Module MultilingualCommandParser.

(** Command translations for all supported languages, in the order of
    the object literal. *)
Definition COMMAND_TRANSLATIONS (language : SupportedLanguage) : list (string * string) :=
  match language with
  | EN =>
    [("create", "create"); ("build", "build"); ("test", "test"); ("deploy", "deploy");
     ("help", "help"); ("start", "start"); ("stop", "stop"); ("status", "status");
     ("config", "config"); ("init", "init"); ("swarm", "swarm"); ("agent", "agent");
     ("memory", "memory"); ("workflow", "workflow")]
  | RU =>
    [("создать", "create"); ("создай", "create"); ("построить", "build");
     ("собрать", "build"); ("тест", "test"); ("тестировать", "test");
     ("проверить", "test"); ("развернуть", "deploy"); ("деплой", "deploy");
     ("помощь", "help"); ("справка", "help"); ("старт", "start"); ("запустить", "start");
     ("стоп", "stop"); ("остановить", "stop"); ("статус", "status");
     ("состояние", "status"); ("конфиг", "config"); ("настройки", "config");
     ("инит", "init"); ("инициализация", "init"); ("рой", "swarm"); ("агент", "agent");
     ("память", "memory"); ("процесс", "workflow")]
  | JA =>
    [("作成", "create"); ("作る", "create"); ("ビルド", "build"); ("構築", "build");
     ("テスト", "test"); ("試験", "test"); ("デプロイ", "deploy"); ("展開", "deploy");
     ("ヘルプ", "help"); ("助け", "help"); ("スタート", "start"); ("開始", "start");
     ("ストップ", "stop"); ("停止", "stop"); ("ステータス", "status"); ("状態", "status");
     ("設定", "config"); ("初期化", "init"); ("スワーム", "swarm"); ("群れ", "swarm");
     ("エージェント", "agent"); ("メモリ", "memory"); ("記憶", "memory"); ("ワークフロー", "workflow")]
  | ZH_CN =>
    [("创建", "create"); ("建立", "create"); ("构建", "build"); ("建造", "build");
     ("测试", "test"); ("检测", "test"); ("部署", "deploy"); ("发布", "deploy"); ("帮助", "help");
     ("启动", "start"); ("开始", "start"); ("停止", "stop"); ("状态", "status");
     ("配置", "config"); ("设置", "config"); ("初始化", "init"); ("群", "swarm");
     ("代理", "agent"); ("内存", "memory"); ("工作流", "workflow")]
  | ZH_TW =>
    [("創建", "create"); ("建立", "create"); ("構建", "build"); ("建造", "build");
     ("測試", "test"); ("檢測", "test"); ("部署", "deploy"); ("發布", "deploy"); ("幫助", "help");
     ("啟動", "start"); ("開始", "start"); ("停止", "stop"); ("狀態", "status");
     ("配置", "config"); ("設置", "config"); ("初始化", "init"); ("群", "swarm");
     ("代理", "agent"); ("內存", "memory"); ("工作流", "workflow")]
  | KO =>
    [("생성", "create"); ("만들기", "create"); ("빌드", "build"); ("구축", "build");
     ("테스트", "test"); ("시험", "test"); ("배포", "deploy"); ("도움말", "help"); ("시작", "start");
     ("중지", "stop"); ("정지", "stop"); ("상태", "status"); ("설정", "config");
     ("구성", "config"); ("초기화", "init"); ("스웜", "swarm"); ("에이전트", "agent");
     ("메모리", "memory"); ("워크플로", "workflow")]
  | DE =>
    [("erstellen", "create"); ("bauen", "build"); ("testen", "test"); ("prüfen", "test");
     ("bereitstellen", "deploy"); ("hilfe", "help"); ("starten", "start");
     ("stoppen", "stop"); ("status", "status"); ("zustand", "status");
     ("konfiguration", "config"); ("einstellungen", "config");
     ("initialisieren", "init"); ("schwarm", "swarm"); ("agent", "agent");
     ("speicher", "memory"); ("arbeitsablauf", "workflow")]
  | FR =>
    [("créer", "create"); ("construire", "build"); ("tester", "test");
     ("déployer", "deploy"); ("aide", "help"); ("démarrer", "start");
     ("commencer", "start"); ("arrêter", "stop"); ("statut", "status");
     ("état", "status"); ("configuration", "config"); ("paramètres", "config");
     ("initialiser", "init"); ("essaim", "swarm"); ("agent", "agent");
     ("mémoire", "memory"); ("workflow", "workflow")]
  | ES =>
    [("crear", "create"); ("construir", "build"); ("probar", "test");
     ("desplegar", "deploy"); ("ayuda", "help"); ("iniciar", "start");
     ("comenzar", "start"); ("detener", "stop"); ("parar", "stop"); ("estado", "status");
     ("configuración", "config"); ("ajustes", "config"); ("inicializar", "init");
     ("enjambre", "swarm"); ("agente", "agent"); ("memoria", "memory");
     ("flujo", "workflow")]
  | PT =>
    [("criar", "create"); ("construir", "build"); ("testar", "test");
     ("implantar", "deploy"); ("ajuda", "help"); ("iniciar", "start");
     ("começar", "start"); ("parar", "stop"); ("estado", "status");
     ("configuração", "config"); ("configurar", "config"); ("inicializar", "init");
     ("enxame", "swarm"); ("agente", "agent"); ("memória", "memory");
     ("fluxo", "workflow")]
  | TR =>
    [("oluştur", "create"); ("yarat", "create"); ("inşa", "build"); ("test", "test");
     ("dağıt", "deploy"); ("yardım", "help"); ("başlat", "start"); ("durdur", "stop");
     ("durum", "status"); ("ayar", "config"); ("yapılandırma", "config");
     ("başlangıç", "init"); ("sürü", "swarm"); ("ajan", "agent"); ("bellek", "memory");
     ("işakışı", "workflow")]
  | TH =>
    [("สร้าง", "create"); ("สร้างขึ้น", "build"); ("ทดสอบ", "test");
     ("ติดตั้ง", "deploy"); ("ช่วยเหลือ", "help"); ("เริ่ม", "start"); ("หยุด", "stop");
     ("สถานะ", "status"); ("ตั้งค่า", "config"); ("เริ่มต้น", "init"); ("ฝูง", "swarm");
     ("ตัวแทน", "agent"); ("หน่วยความจำ", "memory"); ("ขั้นตอน", "workflow")]
  | IT =>
    [("creare", "create"); ("costruire", "build"); ("testare", "test");
     ("distribuire", "deploy"); ("aiuto", "help"); ("avviare", "start");
     ("iniziare", "start"); ("fermare", "stop"); ("stato", "status");
     ("configurazione", "config"); ("impostazioni", "config"); ("inizializzare", "init");
     ("sciame", "swarm"); ("agente", "agent"); ("memoria", "memory");
     ("flusso", "workflow")]
  | HI =>
    [("बनाना", "create"); ("निर्माण", "build"); ("परीक्षण", "test"); ("तैनात", "deploy");
     ("मदद", "help"); ("सहायता", "help"); ("शुरू", "start"); ("प्रारंभ", "start");
     ("रोकें", "stop"); ("बंद", "stop"); ("स्थिति", "status"); ("कॉन्फ़िग", "config");
     ("सेटिंग", "config"); ("आरंभ", "init"); ("झुंड", "swarm"); ("एजेंट", "agent");
     ("मेमोरी", "memory"); ("कार्यप्रवाह", "workflow")]
  end.

(** The property names of [Object.prototype]. *)
Definition objectPrototypeKeys : list string :=
  ["constructor"; "__defineGetter__"; "__defineSetter__"; "hasOwnProperty";
   "__lookupGetter__"; "__lookupSetter__"; "isPrototypeOf"; "propertyIsEnumerable";
   "toString"; "valueOf"; "__proto__"; "toLocaleString"].

Fixpoint ownProperty (entries : list (string * string)) (key : jsstring) : option string :=
  match entries with
  | [] => None
  | (k, v) :: rest => if bool_decide (js k = key) then Some v else ownProperty rest key
  end.

(** [object[key]] on an object literal: its own property, or the one it
    inherits, or [undefined]. *)
Definition getProperty (entries : list (string * string)) (key : jsstring)
  : option PropertyValue :=
  match ownProperty entries key with
  | Some v => Some (PString (js v))
  | None =>
    if existsb (fun k => bool_decide (js k = key)) objectPrototypeKeys
    then Some (PInherited key)
    else None
  end.

Definition truthyValue (v : PropertyValue) : bool :=
  match v with
  | PString s => truthy s
  | PInherited _ => true
  end.

(** [\s] as a character class. *)
Definition whiteSpace : regex :=
  RClass [(9, 13); (0x20, 0x20); (0xA0, 0xA0); (0x1680, 0x1680); (0x2000, 0x200A);
          (0x2028, 0x2029); (0x202F, 0x202F); (0x205F, 0x205F); (0x3000, 0x3000);
          (0xFEFF, 0xFEFF)].

Definition optional (r : regex) : regex := RAlt r REmpty.

Definition group1 (r : regex) : regex := RGroup (Some "1"%string) r.

Definition phrase (source : regex) (command : string) (action : option string)
  : PhrasePattern.t :=
  {| PhrasePattern.pattern := {| RegExp.source := source; flagI := true; flagG := false |};
     PhrasePattern.command := command;
     PhrasePattern.action := action |}.

(** Common phrases and their command mappings. *)
Definition PHRASE_PATTERNS (language : SupportedLanguage) : option (list PhrasePattern.t) :=
  match language with
  | EN => Some [
      phrase (seqs [lit (js "create"); plus whiteSpace;
                    optional (RSeq (lit (js "a")) (plus whiteSpace));
                    lit (js "new"); plus whiteSpace; group1 (plus wordChar)])
             "create" (Some "$1"%string);
      phrase (seqs [lit (js "build"); plus whiteSpace;
                    optional (RSeq (lit (js "the")) (plus whiteSpace));
                    group1 (plus wordChar)])
             "build" (Some "$1"%string);
      phrase (seqs [lit (js "show"); plus whiteSpace; lit (js "me"); plus whiteSpace;
                    optional (RSeq (lit (js "the")) (plus whiteSpace));
                    lit (js "status")])
             "status" None;
      phrase (seqs [lit (js "help"); plus whiteSpace;
                    optional (RSeq (lit (js "me")) (plus whiteSpace));
                    optional (RSeq (lit (js "with")) (plus whiteSpace));
                    optional (group1 (plus wordChar))])
             "help" (Some "$1"%string) ]
  | RU => Some [
      phrase (seqs [lit (js "создай"); optional (lit (js "те")); plus whiteSpace;
                    lit (js "нов"); words ["ый"; "ую"; "ое"]; plus whiteSpace;
                    group1 (plus wordChar)])
             "create" (Some "$1"%string);
      phrase (seqs [lit (js "покажи"); optional (lit (js "те")); plus whiteSpace;
                    lit (js "статус")])
             "status" None;
      phrase (seqs [lit (js "помоги"); optional (lit (js "те")); plus whiteSpace;
                    optional (RSeq (lit (js "с")) (plus whiteSpace));
                    optional (group1 (plus wordChar))])
             "help" (Some "$1"%string);
      phrase (seqs [lit (js "запусти"); optional (lit (js "те")); plus whiteSpace;
                    group1 (plus wordChar)])
             "start" (Some "$1"%string) ]
  | JA => Some [
      phrase (seqs [lit (js "新しい"); group1 (plus wordChar); lit (js "を作成")])
             "create" (Some "$1"%string);
      phrase (seqs [group1 (plus wordChar); lit (js "をビルド")])
             "build" (Some "$1"%string);
      phrase (lit (js "ステータスを表示")) "status" None;
      phrase (seqs [group1 (plus wordChar); lit (js "について助けて")])
             "help" (Some "$1"%string) ]
  | _ => None
  end.

(** [words.indexOf(word)] *)
Fixpoint indexOf (word : jsstring) (words : list jsstring) : Z :=
  match words with
  | [] => -1
  | w :: rest =>
    if bool_decide (w = word) then 0
    else let i := indexOf word rest in if i <? 0 then -1 else i + 1
  end.

(** The loop over the words: the first word whose lower-case form has a
    truthy value in the table gives the command; the arguments are the
    words after its first occurrence. *)
Fixpoint translationLoop (translations : list (string * string)) (words : list jsstring)
    (rest : list jsstring) : option (PropertyValue * list jsstring) :=
  match rest with
  | [] => None
  | word :: rest' =>
    match getProperty translations (toLowerCase word) with
    | Some translated =>
      if truthyValue translated then
        let cmdIndex := indexOf word words in
        Some (translated, JSSplit.sliceFrom (cmdIndex + 1) words)
      else translationLoop translations words rest'
    | None => translationLoop translations words rest'
    end
  end.

(** [match[1]]: the text that the first group captured, or [undefined]
    when the group took no part in the match. *)
Fixpoint firstGroup (groups : list (string * jsstring)) : option jsstring :=
  match groups with
  | [] => None
  | (name, value) :: rest =>
    match firstGroup rest with
    | Some later => Some later
    | None => if bool_decide (name = "1"%string) then Some value else None
    end
  end.

(** The loop over the phrase patterns: the first one that matches gives
    the command, and its first group, when it took part in the match and
    is not empty, is pushed on the arguments. *)
Fixpoint phraseLoop (input : jsstring) (patterns : list PhrasePattern.t)
    (args : list jsstring) : option (jsstring * list jsstring) :=
  match patterns with
  | [] => None
  | p :: rest =>
    match matchGroups input (PhrasePattern.pattern p) with
    | Some groups =>
      Some (js (PhrasePattern.command p),
            match PhrasePattern.action p, firstGroup groups with
            | Some action, Some group =>
              if truthy (js action) && truthy group then args ++ [group] else args
            | _, _ => args
            end)
    | None => phraseLoop input rest args
    end
  end.

Definition setFlag (flagName : jsstring) (value : FlagValue) (flags : gmap jsstring FlagValue)
  : gmap jsstring FlagValue :=
  (* assigning a primitive to [__proto__] sets nothing *)
  if bool_decide (flagName = js "__proto__") then flags else <[flagName := value]> flags.

(** The loop that parses the flags, in [--flag] or [-f] format. *)
Fixpoint parseFlags (args : list jsstring) (flagArgs : list jsstring)
    (flags : gmap jsstring FlagValue) : list jsstring * gmap jsstring FlagValue :=
  match args with
  | [] => (flagArgs, flags)
  | arg :: rest =>
    if startsWith arg (js "--") then
      let flagName := drop 2 arg in
      match rest with
      | nextArg :: rest' =>
        if truthy nextArg && negb (startsWith nextArg (js "-")) then
          parseFlags rest' flagArgs (setFlag flagName (FlagString nextArg) flags)
        else parseFlags rest flagArgs (setFlag flagName FlagTrue flags)
      | [] => parseFlags rest flagArgs (setFlag flagName FlagTrue flags)
      end
    else if startsWith arg (js "-") && (length arg =? 2)%nat then
      let flagName := drop 1 arg in
      parseFlags rest flagArgs (setFlag flagName FlagTrue flags)
    else parseFlags rest (flagArgs ++ [arg]) flags
  end.

(** [parseNativeCommand] *)
Definition parseNativeCommand (input : jsstring) (language : SupportedLanguage)
  : ParsedCommand.t :=
  let words := JSSplit.split (trim input) in
  let command := PString [] in
  let args := [] in
  let '(command, args) :=
    match translationLoop (COMMAND_TRANSLATIONS language) words words with
    | Some (translated, rest) => (translated, rest)
    | None => (command, args)
    end in
  let '(command, args) :=
    if truthyValue command then (command, args)
    else
      match PHRASE_PATTERNS language with
      | Some patterns =>
        match phraseLoop input patterns args with
        | Some (cmd, args') => (PString cmd, args')
        | None => (command, args)
        end
      | None => (command, args)
      end in
  let '(flagArgs, flags) := parseFlags args [] ∅ in
  {| ParsedCommand.command := command;
     ParsedCommand.args := flagArgs;
     ParsedCommand.flags := flags |}.

Definition intentMap : list (string * string) :=
  [("create", "create"); ("build", "build"); ("delete", "remove"); ("update", "update");
   ("search", "find"); ("help", "help"); ("general", "help")].

(** [mapIntentToCommand] *)
Definition mapIntentToCommand (intent : jsstring) : PropertyValue :=
  match getProperty intentMap intent with
  | Some v => if truthyValue v then v else PString (js "help")
  | None => PString (js "help")
  end.

(** [parseCommand] *)
Definition parseCommand (input : jsstring) (languageManager : LanguageManager.t)
  : completion (CommandResult.t * LanguageManager.t) :=
  '(detection, languageManager) ← LanguageManager.detectLanguage input languageManager;
  let language := LanguageDetectionResult.language detection in
  let normalized := LanguageManager.normalize input language in
  let parsed := parseNativeCommand normalized language in
  let command :=
    if truthyValue (ParsedCommand.command parsed) then ParsedCommand.command parsed
    else
      let intent :=
        LanguageManager.IntentResult.intent
          (LanguageManager.extractIntent normalized language) in
      mapIntentToCommand intent in
  Normal ({| CommandResult.command := command;
             CommandResult.args := ParsedCommand.args parsed;
             CommandResult.flags := ParsedCommand.flags parsed;
             CommandResult.originalInput := input;
             CommandResult.detectedLanguage := language;
             CommandResult.confidence := LanguageDetectionResult.confidence detection |},
          languageManager).

(** The help texts: one command, in every language. *)
Definition helpTexts : list (string * (SupportedLanguage → string)) :=
  [("create",
    fun language =>
      match language with
      | EN => "Create a new resource"
      | RU => "Создать новый ресурс"
      | JA => "新しいリソースを作成"
      | ZH_CN => "创建新资源"
      | ZH_TW => "創建新資源"
      | KO => "새 리소스 만들기"
      | DE => "Neue Ressource erstellen"
      | FR => "Créer une nouvelle ressource"
      | ES => "Crear un nuevo recurso"
      | PT => "Criar um novo recurso"
      | TR => "Yeni kaynak oluştur"
      | TH => "สร้างทรัพยากรใหม่"
      | IT => "Crea una nuova risorsa"
      | HI => "नया संसाधन बनाएं"
      end)].

(** [getCommandHelp]: what a command inherits from [Object.prototype]
    has no property named by a language code, so an inherited key ends
    like a missing one. *)
Definition getCommandHelp (command : jsstring) (language : SupportedLanguage) : jsstring :=
  let entry :=
    snd <$> List.find (fun e => bool_decide (js (fst e) = command)) helpTexts in
  match entry with
  | Some texts =>
    if truthy (js (texts language)) then js (texts language)
    else if truthy (js (texts EN)) then js (texts EN)
    else js "No help available"
  | None => js "No help available"
  end.

(** [getAvailableCommands]: a copy of the table of the language. *)
Definition getAvailableCommands (language : SupportedLanguage) : gmap jsstring jsstring :=
  fold_left (fun commands e => <[js (fst e) := js (snd e)]> commands)
            (COMMAND_TRANSLATIONS language) ∅.

(** [translateCommand]: the first native word listed for the command, or
    the command itself. *)
Definition translateCommand (command : jsstring) (targetLanguage : SupportedLanguage)
  : jsstring :=
  match List.find (fun e => bool_decide (js (snd e) = command))
                  (COMMAND_TRANSLATIONS targetLanguage) with
  | Some (native, _) => js native
  | None => command
  end.

End MultilingualCommandParser.

(** ** Further auxiliary notions of the proofs *)

(** A word character is followed by a character that is not one. *)
Fixpoint sparse (s : jsstring) : Prop :=
  match s with
  | [] => True
  | x :: s' =>
    (inRanges wordRanges x = true →
     match s' with y :: _ => inRanges wordRanges y = false | [] => True end)
    ∧ sparse s'
  end.


(** * Properties *)

Ltac decode_bools :=
  repeat match goal with
         | H : _ |- _ =>
           progress rewrite ?andb_true_iff, ?orb_true_iff, ?negb_true_iff,
             ?andb_false_iff, ?orb_false_iff, ?negb_false_iff,
             ?Z.leb_le, ?Z.leb_gt, ?Z.eqb_eq, ?Z.eqb_neq in H
         | H : _ ∧ _ |- _ => destruct H
         end.

Ltac case_if :=
  match goal with
  | |- context [if ?b then _ else _] => destruct b eqn:?
  end.


(** ** Literals and the platform functions on examples *)

Example js_ascii : js "hi" = [104; 105].
Proof. reflexivity. Qed.

Example js_cyrillic : js "да" = [0x434; 0x430].
Proof. reflexivity. Qed.

Example js_cjk : js "会議" = [0x4F1A; 0x8B70].
Proof. reflexivity. Qed.

Example lower_mixed : toLowerCase (js "Hello ПРИВЕТ") = js "hello привет".
Proof. reflexivity. Qed.

Example test_create_pattern :
  matchGroups (js "create project")
    (verbThenWord ["create"; "make"; "build"; "generate"; "construct"] "target")
  = Some [("target"%string, js "project")].
Proof. vm_compute. reflexivity. Qed.

Example scores_hello :
  scoreLanguages (js "Hello, how are you today?") !! 0%nat = Some (EN, 11%nat).
Proof. vm_compute. reflexivity. Qed.

Example scores_privet :
  scoreLanguages (js "Привет, как дела?") !! 1%nat = Some (RU, 13%nat).
Proof. vm_compute. reflexivity. Qed.

Example analyze_ja_very_formal :
  CulturalContext.formalityLevel
    (fst (analyze JA (js "誠にありがとうございます") None initialStore))
  = Some very_formal.
Proof. vm_compute. reflexivity. Qed.

(** ** Intent extraction on "create a new project" *)



(** ** The business-topic scan *)

(** C4, as the specification states it, fails: in "meeting negotiation"
    the first topic with a keyword in the text is [meeting], which forces
    nothing, yet the scan goes on and [negotiation] forces both styles. *)
Lemma detectBusinessContext_not_first_topic_wins :
  let text := js "meeting negotiation" in
  Spec.mentions text "meeting" = true
  ∧ Spec.firstTopicWins (toLowerCase text) businessIndicators = None
  ∧ detectBusinessContext text EN
    = Some {| PartialEtiquette.greetingStyle := None;
              PartialEtiquette.communicationStyle := Some indirect;
              PartialEtiquette.decisionMaking := Some consensus |}
  ∧ detectBusinessContext text EN
    ≠ Spec.firstTopicWins (toLowerCase text) businessIndicators.
Proof. vm_compute. repeat split; try reflexivity. discriminate. Qed.

(** C4 (amended): the scan visits meeting, presentation, negotiation,
    contract in this order; a [meeting] or [contract] hit decides nothing
    and does not stop the scan; the outcome is decided by [presentation]
    when one of its keywords occurs in the text, otherwise by [negotiation]
    when one of its keywords occurs, and otherwise nothing is forced. *)
Theorem detectBusinessContext_decided_by_presentation_then_negotiation
    (text : jsstring) (language : SupportedLanguage) :
  detectBusinessContext text language =
    if Spec.mentions text "presentation" then Spec.topicEffect "presentation"
    else if Spec.mentions text "negotiation" then Spec.topicEffect "negotiation"
    else None.
Proof.
  unfold detectBusinessContext, Spec.mentions.
  change (list_find (fun e => fst e = "presentation"%string) businessIndicators)
    with (Some (1%nat, ("presentation"%string,
                        ["presentation"; "презентация"; "プレゼン"; "演示"; "발표"]%string))).
  change (list_find (fun e => fst e = "negotiation"%string) businessIndicators)
    with (Some (2%nat, ("negotiation"%string,
                        ["negotiation"; "переговоры"; "交渉"; "谈判"; "협상"]%string))).
  generalize (toLowerCase text) as lowerText. intros lowerText.
  unfold businessIndicators, businessLoop.
  repeat match goal with
         | |- context [JS.some ?f ?l] => destruct (JS.some f l)
         end; reflexivity.
Qed.

(** ** [analyze] and the static table of base profiles *)

(** The top-level properties of a stored base profile are those of the
    literal. *)
Lemma CULTURAL_CONFIGS_formats (language : SupportedLanguage) (c : CulturalContext.t) :
  CULTURAL_CONFIGS language = Some c →
  ∃ d n, CulturalContext.dateFormat c = Some d ∧ d ≠ []
         ∧ CulturalContext.numberFormat c = Some n ∧ n ≠ [].
Proof.
  destruct language; vm_compute; intros H; inversion H; subst;
    eexists _, _; repeat split; discriminate.
Qed.

(** The writes of [analyze] on its copy leave the two formats alone. *)
Lemma analyze_formats (language : SupportedLanguage) (text : jsstring)
    (options : option Options.t) (store : Store) :
  let base := default CulturalContext.empty (CULTURAL_CONFIGS language) in
  CulturalContext.dateFormat (fst (analyze language text options store))
    = CulturalContext.dateFormat base
  ∧ CulturalContext.numberFormat (fst (analyze language text options store))
    = CulturalContext.numberFormat base.
Proof.
  unfold analyze. cbn [fst].
  generalize (default CulturalContext.empty (CULTURAL_CONFIGS language)) as base.
  intros base.
  destruct (options ≫= Options.region) as [r|]; [destruct (truthy r)|];
    (destruct (options ≫= Options.timezone) as [z|]; [destruct (truthy z)|]);
    destruct (detectFormalityLevel text language); split; reflexivity.
Qed.

(** C1 (the code departs from it): [analyze(EN, "negotiation")] run on the
    table as loaded changes the stored base profile of EN: its nested
    [communicationStyle] and [decisionMaking], "direct" and "individual"
    before the call, are "indirect" and "consensus" after it. *)
Theorem analyze_mutates_base_profile :
  let before := initialStore in
  let after := snd (analyze EN (js "negotiation") None before) in
  (snd <$> baseProfile before EN)
    = Some (Some {| BusinessEtiquette.greetingStyle := js "Hi/Hello";
                    BusinessEtiquette.communicationStyle := direct;
                    BusinessEtiquette.decisionMaking := individual |})
  ∧ (snd <$> baseProfile after EN)
    = Some (Some {| BusinessEtiquette.greetingStyle := js "Hi/Hello";
                    BusinessEtiquette.communicationStyle := indirect;
                    BusinessEtiquette.decisionMaking := consensus |})
  ∧ baseProfile after EN ≠ baseProfile before EN.
Proof. vm_compute. repeat split; try reflexivity. discriminate. Qed.

(** What [analyze] leaves alone: every object of the store other than the
    business-etiquette object of the analyzed language. *)
Lemma analyze_store_frame (language : SupportedLanguage) (text : jsstring)
    (options : option Options.t) (store : Store) (r : ref) :
  (CULTURAL_CONFIGS language ≫= CulturalContext.businessEtiquette) ≠ Some r →
  snd (analyze language text options store) !! r = store !! r.
Proof.
  intros Hr. unfold analyze. cbn [snd].
  assert (Hbase : CulturalContext.businessEtiquette
                    (default CulturalContext.empty (CULTURAL_CONFIGS language)) ≠ Some r).
  { destruct (CULTURAL_CONFIGS language); [exact Hr | discriminate]. }
  revert Hbase.
  generalize (default CulturalContext.empty (CULTURAL_CONFIGS language)) as base.
  intros base Hbase.
  destruct (options ≫= Options.region) as [rg|]; [destruct (truthy rg)|];
    (destruct (options ≫= Options.timezone) as [tz|]; [destruct (truthy tz)|]);
    destruct (detectFormalityLevel text language);
    cbn [setRegion setTimezone setFormalityLevel CulturalContext.businessEtiquette];
    destruct (CulturalContext.businessEtiquette base) as [e|];
    (destruct (options ≫= Options.timeOfDay) as [d|];
       [destruct (getTimeBasedGreeting language d) as [g|]; [destruct (truthy g)|]|]);
    destruct (detectBusinessContext text language);
    rewrite ?lookup_alter_ne by congruence; reflexivity.
Qed.

(** Without a time of day and without a presentation or negotiation
    keyword in the text, [analyze] writes nothing. *)
Lemma analyze_store_unchanged (language : SupportedLanguage) (text : jsstring)
    (options : option Options.t) (store : Store) :
  options ≫= Options.timeOfDay = None →
  detectBusinessContext text language = None →
  snd (analyze language text options store) = store.
Proof.
  intros Htime Hbusiness. unfold analyze. cbn [snd].
  rewrite Htime, Hbusiness. reflexivity.
Qed.

(** The greeting of the stored profile is overwritten in the same way when
    a time of day is given. *)
Lemma analyze_mutates_base_greeting :
  let options := {| Options.region := None; Options.timezone := None;
                    Options.timeOfDay := Some (DateAt 9) |} in
  let after := snd (analyze EN (js "") (Some options) initialStore) in
  (BusinessEtiquette.greetingStyle <$> (baseProfile after EN ≫= snd))
    = Some (js "Good morning").
Proof. vm_compute. reflexivity. Qed.

(** C2 (the code departs from it): TH, IT and HI have no entry in
    [CULTURAL_CONFIGS]; for each of them, whatever the text, the options
    and the store, the profile returned by [analyze] has neither a
    [dateFormat] nor a [numberFormat]. *)
Theorem analyze_unconfigured_language_has_no_formats
    (language : SupportedLanguage) (text : jsstring)
    (options : option Options.t) (store : Store) :
  language ∈ [TH; IT; HI] →
  CulturalContext.dateFormat (fst (analyze language text options store)) = None
  ∧ CulturalContext.numberFormat (fst (analyze language text options store)) = None.
Proof.
  intros Hin. destruct (analyze_formats language text options store) as [-> ->].
  apply list_elem_of_In in Hin. simpl in Hin.
  destruct Hin as [<- | [<- | [<- | []]]]; split; reflexivity.
Qed.

Lemma analyze_unconfigured_language_witness :
  CulturalContext.dateFormat (fst (analyze TH (js "สวัสดี") None initialStore)) = None
  ∧ CulturalContext.numberFormat (fst (analyze TH (js "สวัสดี") None initialStore)) = None.
Proof.
  apply analyze_unconfigured_language_has_no_formats.
  apply list_elem_of_In. simpl. left. reflexivity.
Defined.

(** For the eleven languages of the table the invariant holds. *)
Lemma analyze_configured_language_has_formats (language : SupportedLanguage)
    (text : jsstring) (options : option Options.t) (store : Store) :
  language ∉ [TH; IT; HI] →
  ∃ d n, CulturalContext.dateFormat (fst (analyze language text options store)) = Some d
         ∧ d ≠ []
         ∧ CulturalContext.numberFormat (fst (analyze language text options store)) = Some n
         ∧ n ≠ [].
Proof.
  intros Hnot. destruct (analyze_formats language text options store) as [-> ->].
  destruct (CULTURAL_CONFIGS language) as [c|] eqn:Hc.
  - apply (CULTURAL_CONFIGS_formats language c Hc).
  - exfalso. apply Hnot. apply list_elem_of_In.
    destruct language; try discriminate Hc; simpl; auto.
Qed.

(** ** [applyPluralization] *)

(** C5 (the code departs from it): the base profile of EN stores the
    number 1 under [one]; it is truthy, and calling its [replace] raises a
    [TypeError], for every count and every pair of strings. *)
Theorem applyPluralization_EN_raises :
  ∃ context, CULTURAL_CONFIGS EN = Some context
    ∧ ∀ (count : Z) (singular plural : jsstring),
        applyPluralization count singular plural context = Throw TypeError.
Proof. eexists. split; [reflexivity|]. intros count singular plural. reflexivity. Qed.

(** The rules stored as text fail too: [replace] substitutes the first
    [n] only, and the second one is not bound where [eval] runs.  The
    Russian rule raises at 1, the French one at 2. *)
Lemma applyPluralization_RU_FR_raise :
  (applyPluralization 1 (js "file") (js "files") <$> CULTURAL_CONFIGS RU)
    = Some (Throw ReferenceError)
  ∧ (applyPluralization 2 (js "file") (js "files") <$> CULTURAL_CONFIGS FR)
    = Some (Throw ReferenceError).
Proof. vm_compute. split; reflexivity. Qed.

(** Where the rule has a single [n], the call returns. *)
Lemma applyPluralization_DE_returns :
  (applyPluralization 1 (js "file") (js "files") <$> CULTURAL_CONFIGS DE)
    = Some (Normal (js "file"))
  ∧ (applyPluralization 3 (js "file") (js "files") <$> CULTURAL_CONFIGS DE)
    = Some (Normal (js "files")).
Proof. vm_compute. split; reflexivity. Qed.

(** Without [pluralizationRules] the choice is by [count === 1]. *)
Lemma applyPluralization_no_rules (count : Z) (singular plural : jsstring)
    (context : CulturalContext.t) :
  CulturalContext.pluralizationRules context = None →
  applyPluralization count singular plural context
    = Normal (if count =? 1 then singular else plural).
Proof. intros H. unfold applyPluralization. rewrite H. reflexivity. Qed.

(** ** Intent extraction: pattern path and keyword path *)

(** The loop keeps its variables when no pattern tests positive, and
    otherwise stops with the name of a pattern and confidence 0.8. *)
Lemma patternLoop_cases (text : jsstring) (patterns : list (jsstring * RegExp))
    (vars : jsstring * Q * gmap string jsstring) :
  (existsb (fun e => test (snd e) text) patterns = false
   ∧ patternLoop text patterns vars = vars)
  ∨ (existsb (fun e => test (snd e) text) patterns = true
     ∧ ∃ intent entities,
         intent ∈ map fst patterns
         ∧ patternLoop text patterns vars = (intent, (8 # 10)%Q, entities)).
Proof.
  induction patterns as [|[intent pattern] rest IH]; simpl.
  - left. split; reflexivity.
  - destruct (test pattern text) eqn:Htest; simpl.
    + right. split; [reflexivity|]. eexists _, _. split; [|reflexivity].
      apply list_elem_of_here.
    + destruct IH as [[Hno ->] | (Hyes & i & e & Hin & ->)].
      * left. split; [exact Hno | reflexivity].
      * right. split; [exact Hyes|]. exists i, e. split; [|reflexivity].
        apply list_elem_of_further. exact Hin.
Qed.

(** No pattern is named "unknown", the initial value of [detectedIntent]. *)
Lemma resolvedPatterns_named (language : SupportedLanguage) (intent : jsstring) :
  intent ∈ map fst (Intent.resolvedPatterns language) → intent ≠ js "unknown".
Proof.
  intros Hin ->. revert Hin.
  assert (H : ∀ l : list (jsstring * RegExp),
             bool_decide (js "unknown" ∈ map fst l) = false →
             js "unknown" ∈ map fst l → False).
  { intros l Hd Hin. apply bool_decide_eq_false in Hd. exact (Hd Hin). }
  destruct language; apply H; vm_compute; reflexivity.
Qed.

Lemma extractIntent_unfold (text : jsstring) (language : SupportedLanguage) :
  extractIntent text language =
    let '(detectedIntent, confidence, entities) :=
      patternLoop text (Intent.resolvedPatterns language) (js "unknown", 0%Q, ∅) in
    if bool_decide (detectedIntent = js "unknown") then
      {| IntentResult.intent := inferIntent text language;
         IntentResult.entities := entities;
         IntentResult.confidence := (5 # 10)%Q |}
    else
      {| IntentResult.intent := detectedIntent;
         IntentResult.entities := entities;
         IntentResult.confidence := confidence |}.
Proof. reflexivity. Qed.

(** The keyword path: taken exactly when no pattern tests positive. *)
Lemma extractIntent_keyword_path (text : jsstring) (language : SupportedLanguage) :
  Intent.patternMatched text language = false →
  extractIntent text language =
    {| IntentResult.intent := inferIntent text language;
       IntentResult.entities := ∅;
       IntentResult.confidence := (5 # 10)%Q |}.
Proof.
  intros Hno. rewrite extractIntent_unfold.
  destruct (patternLoop_cases text (Intent.resolvedPatterns language)
              (js "unknown", 0%Q, ∅)) as [[_ ->] | [Hyes _]].
  - reflexivity.
  - unfold Intent.patternMatched in Hno. congruence.
Qed.

(** The pattern path. *)
Lemma extractIntent_pattern_path (text : jsstring) (language : SupportedLanguage) :
  Intent.patternMatched text language = true →
  IntentResult.confidence (extractIntent text language) = (8 # 10)%Q
  ∧ IntentResult.intent (extractIntent text language)
      ∈ map fst (Intent.resolvedPatterns language).
Proof.
  intros Hyes. rewrite extractIntent_unfold.
  destruct (patternLoop_cases text (Intent.resolvedPatterns language)
              (js "unknown", 0%Q, ∅)) as [[Hno _] | (_ & i & e & Hin & ->)].
  - unfold Intent.patternMatched in Hyes. congruence.
  - pose proof (resolvedPatterns_named language i Hin) as Hne.
    rewrite bool_decide_eq_false_2 by exact Hne. split; [reflexivity | exact Hin].
Qed.

(** C10: when [extractIntent] returns confidence 0.5 (the keyword path,
    the intent "general" included) its entities map is empty; when the
    entities map is not empty, a pattern matched and the confidence is
    0.8.  The confidence is always one of the two constants, 0.5 exactly
    when no pattern tests positive. *)
Theorem extractIntent_keyword_path_has_no_entities
    (text : jsstring) (language : SupportedLanguage) :
  let r := extractIntent text language in
  (IntentResult.confidence r = (5 # 10)%Q → IntentResult.entities r = ∅)
  ∧ (IntentResult.entities r ≠ ∅ →
       IntentResult.confidence r = (8 # 10)%Q
       ∧ Intent.patternMatched text language = true)
  ∧ (IntentResult.confidence r
       = if Intent.patternMatched text language then (8 # 10)%Q else (5 # 10)%Q).
Proof.
  intros r. subst r.
  destruct (Intent.patternMatched text language) eqn:Hm.
  - destruct (extractIntent_pattern_path text language Hm) as [Hc _].
    rewrite Hc. repeat split; try reflexivity. discriminate.
  - rewrite (extractIntent_keyword_path text language Hm). simpl.
    split; [reflexivity|]. split; [|reflexivity].
    intros Hne. exfalso. apply Hne. reflexivity.
Qed.

Lemma extractIntent_keyword_path_witness :
  IntentResult.confidence (extractIntent (js "what is new") EN) = (5 # 10)%Q
  ∧ IntentResult.intent (extractIntent (js "what is new") EN) = js "create"
  ∧ IntentResult.entities (extractIntent (js "what is new") EN) = ∅.
Proof.
  split; [vm_compute; reflexivity|]. split; [vm_compute; reflexivity|].
  apply (proj1 (extractIntent_keyword_path_has_no_entities (js "what is new") EN)).
  vm_compute. reflexivity.
Defined.

(** ** Sorting by descending score *)

Section SortByScore.

Context {A : Type} (score : A → nat).

#[local] Abbreviation cmp := (fun a b : A => Z.of_nat (score b) - Z.of_nat (score a)).
#[local] Abbreviation desc := (fun a b : A => (score b ≤ score a)%nat).

Lemma jsinsert_Permutation (x : A) (l : list A) :
  JSArray.insert cmp x l ≡ₚ x :: l.
Proof.
  induction l as [|y l IH]; simpl; [reflexivity|].
  destruct (_ <=? 0); [reflexivity|].
  rewrite IH. apply Permutation_swap.
Qed.

Lemma jssort_Permutation (l : list A) : JSArray.sort cmp l ≡ₚ l.
Proof.
  induction l as [|x l IH]; simpl; [reflexivity|].
  rewrite jsinsert_Permutation, IH. reflexivity.
Qed.

Lemma jsinsert_StronglySorted (x : A) (l : list A) :
  StronglySorted desc l → StronglySorted desc (JSArray.insert cmp x l).
Proof.
  induction 1 as [|y l Hl IH Hy]; simpl.
  - repeat constructor.
  - destruct (Z.leb_spec (Z.of_nat (score y) - Z.of_nat (score x)) 0) as [Hle | Hgt].
    + constructor; [constructor; assumption|].
      constructor; [lia|].
      eapply Forall_impl; [exact Hy|]. simpl. intros z Hz. lia.
    + constructor; [exact IH|].
      rewrite jsinsert_Permutation. constructor; [lia | exact Hy].
Qed.

Lemma jssort_StronglySorted (l : list A) : StronglySorted desc (JSArray.sort cmp l).
Proof.
  induction l as [|x l IH]; simpl; [constructor|].
  apply jsinsert_StronglySorted, IH.
Qed.

(** Stability: among elements of equal score the order is kept. *)
Lemma jssort_all_zero (l : list A) :
  Forall (fun a => score a = 0%nat) l → JSArray.sort cmp l = l.
Proof.
  induction 1 as [|x l Hx Hl IH]; simpl; [reflexivity|].
  rewrite IH. destruct Hl as [|y l Hy Hl]; simpl; [reflexivity|].
  rewrite Hx, Hy. reflexivity.
Qed.

End SortByScore.

(** ** The ratio of a score to the total *)

Lemma ratio_nonneg (score total : nat) : (0 <= ratio score total)%Q.
Proof.
  unfold ratio. destruct (0 <? total)%nat; [|apply Qle_refl].
  apply Qmult_le_0_compat; [|apply Qinv_le_0_compat];
    rewrite <- (Zle_Qle 0); lia.
Qed.

Lemma ratio_le_1 (score total : nat) :
  (score ≤ total)%nat → (ratio score total <= 1)%Q.
Proof.
  intros Hle. unfold ratio. destruct (Nat.ltb_spec 0 total) as [Hpos|]; [|discriminate].
  apply Qle_shift_div_r.
  - rewrite <- (Zlt_Qlt 0). lia.
  - rewrite Qmult_1_l, <- Zle_Qle. lia.
Qed.

Lemma ratio_mono (a b total : nat) :
  (a ≤ b)%nat → (ratio a total <= ratio b total)%Q.
Proof.
  intros Hle. unfold ratio. destruct (0 <? total)%nat; [|apply Qle_refl].
  apply Qmult_le_compat_r; [rewrite <- Zle_Qle; lia|].
  apply Qinv_le_0_compat. rewrite <- (Zle_Qle 0). lia.
Qed.

Lemma fold_left_add_acc (l : list nat) (a : nat) :
  fold_left (fun sum score => (sum + score)%nat) l a
  = (a + fold_left (fun sum score => (sum + score)%nat) l 0)%nat.
Proof.
  revert a. induction l as [|x l IH]; intros a; simpl; [lia|].
  rewrite (IH (a + x)%nat), (IH x). lia.
Qed.

Lemma fold_left_add_ge (l : list nat) (x : nat) :
  x ∈ l → (x ≤ fold_left (fun sum score => (sum + score)%nat) l 0)%nat.
Proof.
  induction 1 as [x l | x y l Hin IH]; simpl; rewrite fold_left_add_acc; lia.
Qed.

Lemma fold_left_add_zero (l : list nat) :
  Forall (fun x => x = 0%nat) l →
  fold_left (fun sum score => (sum + score)%nat) l 0%nat = 0%nat.
Proof.
  induction 1 as [|x l -> Hl IH]; simpl; [reflexivity | exact IH].
Qed.

(** ** Language detection *)

Lemma scoreLanguages_languages (text : jsstring) :
  map fst (scoreLanguages text) = SupportedLanguage_values.
Proof. unfold scoreLanguages. rewrite map_map. reflexivity. Qed.

Lemma detectLanguage_miss (text : jsstring) (this : LanguageManager.t) :
  detectionCache this !! text = None →
  ∃ r, computed text r
    ∧ detectLanguage text this
      = Normal (r, {| translationCache := translationCache this;
                      detectionCache := <[text := r]> (detectionCache this) |}).
Proof.
  intros Hmiss. unfold detectLanguage, computed. rewrite Hmiss.
  destruct (JSArray.sort _ (scoreLanguages text)) as [|top rest] eqn:Hsort.
  - exfalso.
    pose proof (jssort_Permutation snd (scoreLanguages text)) as Hperm.
    rewrite Hsort in Hperm. apply Permutation_nil_l in Hperm.
    apply (f_equal (map fst)) in Hperm. rewrite scoreLanguages_languages in Hperm.
    discriminate Hperm.
  - eexists. split; [|reflexivity]. exists top, rest. split; reflexivity.
Qed.

(** With a coherent cache, a hit and a miss return the same result. *)
Lemma detectLanguage_computed (text : jsstring) (this : LanguageManager.t) :
  Cache.detectionCoherent this →
  ∃ r this', detectLanguage text this = Normal (r, this') ∧ computed text r.
Proof.
  intros Hcoh. destruct (detectionCache this !! text) as [cached|] eqn:Hlook.
  - exists cached, this. split.
    + unfold detectLanguage. rewrite Hlook. reflexivity.
    + destruct (Hcoh text cached Hlook) as [this0 Hnew].
      destruct (detectLanguage_miss text LanguageManager.new) as (r & Hr & Heq);
        [apply lookup_empty|].
      rewrite Heq in Hnew. inversion Hnew; subst. exact Hr.
  - destruct (detectLanguage_miss text this Hlook) as (r & Hr & Heq).
    eexists _, _. split; [exact Heq | exact Hr].
Qed.

(** The caches stay coherent under the operations that write them. *)
Lemma new_coherent : Cache.coherent LanguageManager.new.
Proof.
  split; intros text ? ; intros; simpl in *;
    match goal with H : ∅ !! _ = Some _ |- _ => rewrite lookup_empty in H; discriminate H end.
Qed.

Lemma clearCache_coherent (this : LanguageManager.t) :
  Cache.coherent (clearCache this).
Proof. exact new_coherent. Qed.

Lemma detectLanguage_coherent (text : jsstring) (this this' : LanguageManager.t)
    (r : LanguageDetectionResult.t) :
  Cache.coherent this →
  detectLanguage text this = Normal (r, this') →
  Cache.coherent this'.
Proof.
  intros [Hd Ht] Hcall. destruct (detectionCache this !! text) as [cached|] eqn:Hlook.
  - unfold detectLanguage in Hcall. rewrite Hlook in Hcall.
    inversion Hcall; subst. split; assumption.
  - destruct (detectLanguage_miss text this Hlook) as (r0 & Hr0 & Heq).
    rewrite Heq in Hcall. inversion Hcall; subst. split; [|exact Ht].
    intros text' cached'. simpl. intros Hlook'.
    destruct (decide (text = text')) as [<- | Hne].
    + rewrite lookup_insert_eq in Hlook'. inversion Hlook'; subst.
      destruct (detectLanguage_miss text LanguageManager.new) as (r1 & Hr1 & Heq1);
        [apply lookup_empty|].
      destruct Hr0 as (top & rest & Hs & ->). destruct Hr1 as (top1 & rest1 & Hs1 & ->).
      rewrite Hs in Hs1. inversion Hs1; subst. eexists. exact Heq1.
    + rewrite lookup_insert_ne in Hlook' by exact Hne. exact (Hd text' cached' Hlook').
Qed.

Lemma translate_coherent (text : jsstring) (context : TranslationContext.t)
    (this : LanguageManager.t) :
  Cache.coherent this →
  Cache.coherent (snd (LanguageManager.translate text context this))
  ∧ fst (LanguageManager.translate text context this)
    = js "[" ++ getLanguagePrefix (TranslationContext.targetLanguage context)
        ++ js "] " ++ text.
Proof.
  intros [Hd Ht].
  assert (Hstore : Cache.coherent
            {| translationCache :=
                 <[text := <[TranslationContext.targetLanguage context :=
                               performTranslation text context]>
                             (default ∅ (translationCache this !! text))]>
                   (translationCache this);
               detectionCache := detectionCache this |}).
  { split; [exact Hd|]. intros text' perLanguage target translated. simpl.
    intros Hlook Hper. destruct (decide (text = text')) as [<- | Hne].
    - rewrite lookup_insert_eq in Hlook. inversion Hlook; subst. clear Hlook.
      destruct (decide (TranslationContext.targetLanguage context = target)) as [<- | Hnt].
      + rewrite lookup_insert_eq in Hper. inversion Hper. reflexivity.
      + rewrite lookup_insert_ne in Hper by exact Hnt.
        destruct (translationCache this !! text) as [m|] eqn:Hm; simpl in Hper.
        * exact (Ht text m target translated Hm Hper).
        * rewrite lookup_empty in Hper. discriminate Hper.
    - rewrite lookup_insert_ne in Hlook by exact Hne.
      exact (Ht text' perLanguage target translated Hlook Hper). }
  unfold LanguageManager.translate.
  destruct (translationCache this !! text) as [m|] eqn:Hm.
  - destruct (m !! TranslationContext.targetLanguage context) as [c|] eqn:Hc.
    + destruct (truthy c); cbn [fst snd].
      * split; [split; assumption|]. exact (Ht text m _ c Hm Hc).
      * split; [exact Hstore | reflexivity].
    + cbn [fst snd]. split; [exact Hstore | reflexivity].
  - cbn [fst snd]. split; [exact Hstore | reflexivity].
Qed.

(** Coherence is an invariant of the manager. *)
Lemma reachable_coherent (this : LanguageManager.t) :
  Cache.reachable this → Cache.coherent this.
Proof.
  induction 1 as [|text this r this' _ IH Hcall|text context this _ IH|this _ _].
  - exact new_coherent.
  - exact (detectLanguage_coherent text this this' r IH Hcall).
  - exact (proj1 (translate_coherent text context this IH)).
  - apply clearCache_coherent.
Qed.

Lemma StronglySorted_map {A B} (R : A → A → Prop) (R' : B → B → Prop)
    (f : A → B) (l : list A) :
  (∀ x y, R x y → R' (f x) (f y)) →
  StronglySorted R l → StronglySorted R' (map f l).
Proof.
  intros Hf. induction 1 as [|x l Hl IH Hx]; simpl; constructor; [exact IH|].
  apply Forall_map. eapply Forall_impl; [exact Hx|]. intros y. apply Hf.
Qed.

Lemma SupportedLanguage_values_NoDup : NoDup SupportedLanguage_values.
Proof. compute_done. Qed.

(** C6: with a coherent cache, [detectLanguage] returns, for every text,
    a result whose confidence lies in [0,1] and whose alternatives are at
    most 3, do not contain the winning language, and are in descending
    order of their own confidence. *)
Theorem detectLanguage_result_well_formed
    (text : jsstring) (this : LanguageManager.t) :
  Cache.detectionCoherent this →
  ∃ r this',
    detectLanguage text this = Normal (r, this')
    ∧ (0 <= LanguageDetectionResult.confidence r)%Q
    ∧ (LanguageDetectionResult.confidence r <= 1)%Q
    ∧ (length (LanguageDetectionResult.alternatives r) ≤ 3)%nat
    ∧ Forall (fun a => Alternative.language a ≠ LanguageDetectionResult.language r)
             (LanguageDetectionResult.alternatives r)
    ∧ StronglySorted
        (fun a b => (Alternative.confidence b <= Alternative.confidence a)%Q)
        (LanguageDetectionResult.alternatives r).
Proof.
  intros Hcoh.
  destruct (detectLanguage_computed text this Hcoh)
    as (r & this' & Hcall & top & rest & Hsort & ->).
  eexists _, this'. split; [exact Hcall|]. cbn [LanguageDetectionResult.confidence
    LanguageDetectionResult.alternatives LanguageDetectionResult.language].
  pose proof (jssort_Permutation snd (scoreLanguages text)) as Hperm.
  pose proof (jssort_StronglySorted snd (scoreLanguages text)) as Hsorted.
  rewrite Hsort in Hperm, Hsorted.
  apply StronglySorted_inv in Hsorted. destruct Hsorted as [Hrest Htop].
  split; [apply ratio_nonneg|]. split; [|split; [|split]].
  - apply ratio_le_1, fold_left_add_ge.
    apply list_elem_of_In, in_map. apply list_elem_of_In.
    rewrite <- Hperm. apply list_elem_of_here.
  - rewrite length_map, length_take. lia.
  - assert (Hnodup : NoDup (map fst (top :: rest))).
    { pose proof (Permutation_map fst Hperm) as Hp.
      rewrite Hp, scoreLanguages_languages. exact SupportedLanguage_values_NoDup. }
    simpl in Hnodup. apply NoDup_cons in Hnodup. destruct Hnodup as [Hnotin _].
    apply Forall_map. apply List.Forall_forall. intros e He. cbn [Alternative.language].
    intros Heq. apply Hnotin. rewrite <- Heq. apply list_elem_of_In, in_map.
    apply list_elem_of_In. apply list_elem_of_In in He.
    apply (subseteq_take 3 rest e He).
  - apply (StronglySorted_map (fun a b => (snd b ≤ snd a)%nat)).
    + intros x y Hxy. cbn [Alternative.confidence]. apply ratio_mono. exact Hxy.
    + rewrite <- (take_drop 3 rest) in Hrest.
      apply StronglySorted_app_1_l in Hrest. exact Hrest.
Qed.

Lemma detectLanguage_result_well_formed_witness :
  ∃ r this',
    detectLanguage (js "Hello, how are you today?") LanguageManager.new = Normal (r, this')
    ∧ (0 <= LanguageDetectionResult.confidence r)%Q
    ∧ (LanguageDetectionResult.confidence r <= 1)%Q
    ∧ (length (LanguageDetectionResult.alternatives r) ≤ 3)%nat
    ∧ Forall (fun a => Alternative.language a ≠ LanguageDetectionResult.language r)
             (LanguageDetectionResult.alternatives r)
    ∧ StronglySorted
        (fun a b => (Alternative.confidence b <= Alternative.confidence a)%Q)
        (LanguageDetectionResult.alternatives r).
Proof.
  apply detectLanguage_result_well_formed.
  exact (proj1 new_coherent).
Defined.

Lemma scoreLanguages_empty :
  Forall (fun e => snd e = 0%nat) (scoreLanguages []).
Proof. vm_compute. repeat constructor. Qed.

(** C7: on the empty string, and on any text for which every language
    scores zero, [detectLanguage] returns (it does not raise): the
    confidence is 0, every alternative has confidence 0, and the winner is
    EN, the first member of the enum. *)
Theorem detectLanguage_no_signal (text : jsstring) (this : LanguageManager.t) :
  Cache.detectionCoherent this →
  text = [] ∨ Forall (fun e => snd e = 0%nat) (scoreLanguages text) →
  ∃ r this',
    detectLanguage text this = Normal (r, this')
    ∧ LanguageDetectionResult.confidence r = 0%Q
    ∧ Forall (fun a => Alternative.confidence a = 0%Q)
             (LanguageDetectionResult.alternatives r)
    ∧ LanguageDetectionResult.language r = EN
    ∧ head SupportedLanguage_values = Some EN.
Proof.
  intros Hcoh Hzero.
  assert (Hall : Forall (fun e => snd e = 0%nat) (scoreLanguages text)).
  { destruct Hzero as [-> | H]; [exact scoreLanguages_empty | exact H]. }
  clear Hzero.
  destruct (detectLanguage_computed text this Hcoh)
    as (r & this' & Hcall & top & rest & Hsort & ->).
  eexists _, this'. split; [exact Hcall|]. cbn [LanguageDetectionResult.confidence
    LanguageDetectionResult.alternatives LanguageDetectionResult.language].
  rewrite (jssort_all_zero snd (scoreLanguages text) Hall) in Hsort.
  assert (Htotal : fold_left (fun sum score => (sum + score)%nat)
                             (map snd (scoreLanguages text)) 0%nat = 0%nat).
  { apply fold_left_add_zero. apply Forall_map. exact Hall. }
  rewrite Htotal. split; [reflexivity|]. split; [|split; [|reflexivity]].
  - apply Forall_map. apply List.Forall_forall. intros e _. reflexivity.
  - pose proof (scoreLanguages_languages text) as Hlangs.
    rewrite Hsort in Hlangs. inversion Hlangs. reflexivity.
Qed.

Lemma detectLanguage_no_signal_witness :
  ∃ r this',
    detectLanguage [] LanguageManager.new = Normal (r, this')
    ∧ LanguageDetectionResult.confidence r = 0%Q
    ∧ Forall (fun a => Alternative.confidence a = 0%Q)
             (LanguageDetectionResult.alternatives r)
    ∧ LanguageDetectionResult.language r = EN
    ∧ head SupportedLanguage_values = Some EN.
Proof.
  apply detectLanguage_no_signal.
  - exact (proj1 new_coherent).
  - left. reflexivity.
Defined.

(** ** Normalization *)

Lemma trimStart_clean (s : jsstring) : startsClean s = true → trimStart s = s.
Proof.
  destruct s as [|c s]; simpl; [reflexivity|].
  intros H. apply negb_true_iff in H. rewrite H. reflexivity.
Qed.

Lemma trimStart_startsClean (s : jsstring) : startsClean (trimStart s) = true.
Proof.
  induction s as [|c s IH]; simpl; [reflexivity|].
  destruct (isWhiteSpace c) eqn:Hc; [exact IH|]. simpl. rewrite Hc. reflexivity.
Qed.

Lemma trimStart_snoc (l : jsstring) (c : Z) :
  isWhiteSpace c = false → trimStart (l ++ [c]) = trimStart l ++ [c].
Proof.
  intros Hc. induction l as [|d l IH]; simpl.
  - rewrite Hc. reflexivity.
  - destruct (isWhiteSpace d); [exact IH | reflexivity].
Qed.

Lemma trimEnd_clean (s : jsstring) : endsClean s = true → trimEnd s = s.
Proof.
  intros H. unfold trimEnd. rewrite trimStart_clean by exact H. apply rev_involutive.
Qed.

Lemma trimEnd_endsClean (s : jsstring) : endsClean (trimEnd s) = true.
Proof.
  unfold endsClean, trimEnd. rewrite rev_involutive. apply trimStart_startsClean.
Qed.

Lemma trimEnd_startsClean (s : jsstring) :
  startsClean s = true → startsClean (trimEnd s) = true.
Proof.
  destruct s as [|c s]; [reflexivity|]. simpl. intros Hc.
  apply negb_true_iff in Hc. unfold trimEnd. simpl.
  rewrite trimStart_snoc by exact Hc. rewrite rev_unit. simpl. rewrite Hc. reflexivity.
Qed.

Lemma trim_clean (s : jsstring) :
  startsClean s = true → endsClean s = true → trim s = s.
Proof.
  intros Hs He. unfold trim. rewrite trimStart_clean by exact Hs.
  apply trimEnd_clean, He.
Qed.

Lemma trim_startsClean (s : jsstring) : startsClean (trim s) = true.
Proof. apply trimEnd_startsClean, trimStart_startsClean. Qed.

Lemma trim_endsClean (s : jsstring) : endsClean (trim s) = true.
Proof. apply trimEnd_endsClean. Qed.

Lemma trim_idempotent (s : jsstring) : trim (trim s) = trim s.
Proof. apply trim_clean; [apply trim_startsClean | apply trim_endsClean]. Qed.

(** Transforms that replace every code unit by a run of code units. *)
Section PerUnit.

Variable g : Z → jsstring.

Hypothesis g_clean : ∀ c, isWhiteSpace c = false →
  g c ≠ [] ∧ startsClean (g c) = true ∧ endsClean (g c) = true.

Hypothesis g_fixed : ∀ c, flat_map g (g c) = g c.

Lemma flat_map_startsClean (s : jsstring) :
  startsClean s = true → startsClean (flat_map g s) = true.
Proof.
  destruct s as [|c s]; [reflexivity|]. simpl. intros Hc.
  apply negb_true_iff in Hc. destruct (g_clean c Hc) as (Hne & Hs & _).
  destruct (g c) as [|d r]; [contradiction|]. exact Hs.
Qed.

Lemma flat_map_endsClean (s : jsstring) :
  endsClean s = true → endsClean (flat_map g s) = true.
Proof.
  unfold endsClean. destruct s as [|c s] using rev_ind; [reflexivity|].
  rewrite rev_unit. simpl. intros Hc. apply negb_true_iff in Hc.
  destruct (g_clean c Hc) as (Hne & _ & He).
  rewrite flat_map_app. simpl. rewrite app_nil_r, rev_app_distr.
  unfold endsClean in He. destruct (rev (g c)) as [|d r] eqn:Hr; [|exact He].
  exfalso. apply Hne. apply (f_equal (@rev Z)) in Hr. rewrite rev_involutive in Hr.
  exact Hr.
Qed.

Lemma flat_map_idempotent (s : jsstring) :
  flat_map g (flat_map g s) = flat_map g s.
Proof.
  induction s as [|c s IH]; simpl; [reflexivity|].
  rewrite flat_map_app, g_fixed, IH. reflexivity.
Qed.

Lemma trim_then_transform_idempotent (x : jsstring) :
  flat_map g (trim (flat_map g (trim x))) = flat_map g (trim x).
Proof.
  rewrite (trim_clean (flat_map g (trim x))).
  - apply flat_map_idempotent.
  - apply flat_map_startsClean, trim_startsClean.
  - apply flat_map_endsClean, trim_endsClean.
Qed.

End PerUnit.

Lemma isWhiteSpace_false_iff (c : Z) :
  isWhiteSpace c = false ↔
  ¬ (9 <= c <= 13 ∨ c = 0x20 ∨ c = 0xA0 ∨ c = 0x1680 ∨ 0x2000 <= c <= 0x200A
     ∨ c = 0x2028 ∨ c = 0x2029 ∨ c = 0x202F ∨ c = 0x205F ∨ c = 0x3000 ∨ c = 0xFEFF).
Proof.
  unfold isWhiteSpace.
  rewrite !orb_false_iff, !andb_false_iff, !Z.leb_gt, !Z.eqb_neq. lia.
Qed.

Lemma singleton_clean (d : Z) :
  isWhiteSpace d = false →
  [d] ≠ [] ∧ startsClean [d] = true ∧ endsClean [d] = true.
Proof.
  intros H. unfold endsClean. simpl. rewrite H. repeat split. discriminate.
Qed.

Lemma lowerUnit_clean (c : Z) :
  isWhiteSpace c = false →
  lowerUnit c ≠ [] ∧ startsClean (lowerUnit c) = true ∧ endsClean (lowerUnit c) = true.
Proof.
  intros Hc. apply isWhiteSpace_false_iff in Hc. unfold lowerUnit.
  repeat case_if; decode_bools;
    try (apply singleton_clean, isWhiteSpace_false_iff; lia).
  repeat split; discriminate.
Qed.

Lemma lowerUnit_lower (d : Z) :
  ¬ (0x41 <= d <= 0x5A) → ¬ (0xC0 <= d <= 0xDE ∧ d ≠ 0xD7) → d ≠ 0x130 → d ≠ 0x178 →
  ¬ ((0x100 <= d <= 0x12F ∨ 0x132 <= d <= 0x137 ∨ 0x14A <= d <= 0x177) ∧ Z.even d = true) →
  ¬ ((0x139 <= d <= 0x148 ∨ 0x179 <= d <= 0x17E) ∧ Z.odd d = true) →
  ¬ (0x400 <= d <= 0x42F) →
  lowerUnit d = [d].
Proof.
  intros H1 H2 H3 H4 H5 H6 H7. unfold lowerUnit.
  repeat case_if; decode_bools; try reflexivity; exfalso;
    first [ apply H1; lia | apply H2; lia | apply H3; lia | apply H4; lia
          | apply H5; split; [lia | assumption]
          | apply H6; split; [lia | assumption]
          | apply H7; lia ].
Qed.

Lemma parity_succ (c : Z) :
  Z.even (c + 1) = Z.odd c ∧ Z.odd (c + 1) = Z.even c.
Proof.
  rewrite Z.even_add, Z.odd_add, <- Z.negb_even. simpl.
  destruct (Z.even c); split; reflexivity.
Qed.

(** Lower-casing a lower-cased code unit changes nothing. *)
Lemma lowerUnit_fixed (c : Z) : flat_map lowerUnit (lowerUnit c) = lowerUnit c.
Proof.
  destruct (parity_succ c) as [Heven Hodd].
  pose proof (Z.negb_even c) as Hneg.
  assert (Hev : Z.even c = true → ∃ k, c = 2 * k) by apply Z.even_spec.
  assert (Hod : Z.odd c = true → ∃ k, c = 2 * k + 1) by apply Z.odd_spec.
  unfold lowerUnit at 2 3.
  repeat case_if; decode_bools; cbn [flat_map]; rewrite ?app_nil_r;
    try (subst c; reflexivity);
    (rewrite lowerUnit_lower; [reflexivity | ..]);
    repeat match goal with
           | H : Z.even c = true |- _ => destruct (Hev H) as [k Hk]; clear Hev
           | H : Z.odd c = true |- _ => destruct (Hod H) as [k Hk]; clear Hod
           end;
    try lia;
    rewrite ?Heven, ?Hodd;
    destruct (Z.even c), (Z.odd c); simpl in *; intros [? ?];
    try discriminate; lia.
Qed.

Lemma toLowerCase_idempotent (s : jsstring) :
  toLowerCase (toLowerCase s) = toLowerCase s.
Proof. apply flat_map_idempotent, lowerUnit_fixed. Qed.

Lemma convertFullWidthToHalfWidth_flat_map (s : jsstring) :
  convertFullWidthToHalfWidth s = flat_map halfWidthUnit s.
Proof.
  unfold convertFullWidthToHalfWidth.
  induction s as [|c s IH]; simpl; [reflexivity|]. rewrite IH. reflexivity.
Qed.

Lemma halfWidthUnit_clean (c : Z) :
  isWhiteSpace c = false →
  halfWidthUnit c ≠ [] ∧ startsClean (halfWidthUnit c) = true
  ∧ endsClean (halfWidthUnit c) = true.
Proof.
  intros Hc. apply isWhiteSpace_false_iff in Hc. unfold halfWidthUnit.
  apply singleton_clean, isWhiteSpace_false_iff.
  case_if; decode_bools; lia.
Qed.

Lemma halfWidthUnit_fixed (c : Z) :
  flat_map halfWidthUnit (halfWidthUnit c) = halfWidthUnit c.
Proof.
  unfold halfWidthUnit. cbn [flat_map]. rewrite app_nil_r. f_equal.
  repeat case_if; decode_bools; lia.
Qed.


Example normalize_ja :
  normalize (js "　Ｈｅｌｌｏ！ ") JA = js "Hello!".
Proof. vm_compute. reflexivity. Qed.

Example normalize_de :
  normalize (js "  Guten TAG, Jörg  ") DE = js "guten tag, jörg".
Proof. vm_compute. reflexivity. Qed.

(** ** Multilingual fan-out *)

(** With coherent caches, the agent's [translate] returns the content
    behind the tag of the target language, and keeps the caches coherent. *)
Lemma agent_translate_tagged (content : jsstring) (target : SupportedLanguage)
    (this : PolyglotAgent.t) :
  Cache.coherent (PolyglotAgent.languageManager this) →
  ∃ this',
    PolyglotAgent.translate content target PolyglotAgent.fanOutOptions this
      = Normal (js "[" ++ getLanguagePrefix target ++ js "] " ++ content, this')
    ∧ Cache.coherent (PolyglotAgent.languageManager this').
Proof.
  intros Hcoh. unfold PolyglotAgent.translate, PolyglotAgent.detectLanguage.
  destruct (detectLanguage_computed content (PolyglotAgent.languageManager this)
              (proj1 Hcoh)) as (r & lm & Hcall & _).
  pose proof (detectLanguage_coherent content _ lm r Hcoh Hcall) as Hlm.
  rewrite Hcall. cbn [mbind completion_bind PolyglotAgent.withManager
                      PolyglotAgent.languageManager PolyglotAgent.culturalStore].
  set (context := PolyglotAgent.spreadContext _ target PolyglotAgent.fanOutOptions).
  destruct (translate_coherent content context lm Hlm) as [Hlm' Htext].
  destruct (LanguageManager.translate content context lm) as [translated lm'].
  cbn [fst snd] in Hlm', Htext. subst translated.
  change (TranslationContext.targetLanguage context) with target.
  change (default false (TranslationContext.culturalAdaptation context)) with true.
  cbn match.
  destruct (analyze target _ None _) as [targetCulture store].
  eexists. split; [reflexivity|]. exact Hlm'.
Qed.

Lemma tagged_differs (tag text : jsstring) :
  tag ≠ [] → tag ++ text ≠ [] ∧ tag ++ text ≠ text.
Proof.
  intros Htag. split.
  - destruct tag; [contradiction | discriminate].
  - intros Heq. apply (f_equal (@length Z)) in Heq. rewrite length_app in Heq.
    destruct tag; [contradiction | simpl in Heq; lia].
Qed.

(** C9: with EN as the primary language, coherent caches and an executor
    that answers the prompt with [base],
    [generateMultilingualResponse(prompt, [EN, RU, JA])] returns a map with
    exactly the keys EN, RU and JA; its EN entry is [base]; its RU and JA
    entries are [base] behind the tags "[RU] " and "[JA] ", hence non-empty
    and different from [base]. *)
Theorem generateMultilingualResponse_EN_RU_JA
    (execute : jsstring → completion jsstring) (prompt base : jsstring)
    (this : PolyglotAgent.t) :
  Cache.coherent (PolyglotAgent.languageManager this) →
  execute prompt = Normal base →
  ∃ responses this' ru ja,
    PolyglotAgent.generateMultilingualResponse execute EN prompt [EN; RU; JA] this
      = Normal (responses, this')
    ∧ dom responses = {[EN; RU; JA]}
    ∧ responses !! EN = Some base
    ∧ responses !! RU = Some ru ∧ ru = js "[RU] " ++ base ∧ ru ≠ [] ∧ ru ≠ base
    ∧ responses !! JA = Some ja ∧ ja = js "[JA] " ++ base ∧ ja ≠ [] ∧ ja ≠ base.
Proof.
  intros Hcoh Hexec. unfold PolyglotAgent.generateMultilingualResponse.
  rewrite Hexec. cbn [mbind completion_bind].
  change (filter (fun lang => lang ≠ EN) [EN; RU; JA]) with [RU; JA].
  cbn [PolyglotAgent.translateAll].
  destruct (agent_translate_tagged base RU this Hcoh) as (this1 & Hru & Hcoh1).
  rewrite Hru. cbn [mbind completion_bind].
  destruct (agent_translate_tagged base JA this1 Hcoh1) as (this2 & Hja & _).
  rewrite Hja. cbn [mbind completion_bind].
  eexists _, this2, _, _. split; [reflexivity|].
  split; [rewrite !dom_insert_L, dom_empty_L; set_solver|].
  split; [reflexivity|].
  destruct (tagged_differs (js "[RU] ") base) as [Hru1 Hru2]; [discriminate|].
  destruct (tagged_differs (js "[JA] ") base) as [Hja1 Hja2]; [discriminate|].
  repeat split; assumption.
Qed.

Lemma generateMultilingualResponse_witness :
  ∃ responses this' ru ja,
    PolyglotAgent.generateMultilingualResponse
      (fun task => Normal (js "done: " ++ task)) EN (js "hello") [EN; RU; JA]
      PolyglotAgent.new
      = Normal (responses, this')
    ∧ dom responses = {[EN; RU; JA]}
    ∧ responses !! EN = Some (js "done: hello")
    ∧ responses !! RU = Some ru ∧ ru = js "[RU] " ++ js "done: hello"
    ∧ ru ≠ [] ∧ ru ≠ js "done: hello"
    ∧ responses !! JA = Some ja ∧ ja = js "[JA] " ++ js "done: hello"
    ∧ ja ≠ [] ∧ ja ≠ js "done: hello".
Proof.
  apply generateMultilingualResponse_EN_RU_JA.
  - exact new_coherent.
  - reflexivity.
Defined.


(** * Further properties of the language manager *)

(** The result computed on a miss is determined by the text. *)
Lemma computed_functional (text : jsstring) (r1 r2 : LanguageDetectionResult.t) :
  computed text r1 → computed text r2 → r1 = r2.
Proof.
  intros (top1 & rest1 & Hs1 & ->) (top2 & rest2 & Hs2 & ->).
  rewrite Hs1 in Hs2. inversion Hs2; subst. reflexivity.
Qed.

Lemma detectLanguage_returns_computed (text : jsstring) (this this' : LanguageManager.t)
    (r : LanguageDetectionResult.t) :
  Cache.detectionCoherent this →
  detectLanguage text this = Normal (r, this') →
  computed text r.
Proof.
  intros Hcoh Hcall.
  destruct (detectLanguage_computed text this Hcoh) as (r0 & this0 & Hcall0 & Hr0).
  rewrite Hcall in Hcall0. inversion Hcall0; subst. exact Hr0.
Qed.

(** X1: a call of [detectLanguage] leaves the manager in a state where
    the same text is answered from the cache: the second call returns the
    same result and does not change the state, whatever the state was. *)
Theorem detectLanguage_second_call_is_cached
    (text : jsstring) (this this' : LanguageManager.t) (r : LanguageDetectionResult.t) :
  detectLanguage text this = Normal (r, this') →
  detectionCache this' !! text = Some r
  ∧ detectLanguage text this' = Normal (r, this').
Proof.
  intros Hcall.
  assert (Hlook : detectionCache this' !! text = Some r).
  { destruct (detectionCache this !! text) as [cached|] eqn:Hc.
    - unfold detectLanguage in Hcall. rewrite Hc in Hcall.
      inversion Hcall; subst. exact Hc.
    - destruct (detectLanguage_miss text this Hc) as (r0 & _ & Heq).
      rewrite Heq in Hcall. inversion Hcall; subst. cbn. apply lookup_insert_eq. }
  split; [exact Hlook|]. unfold detectLanguage. rewrite Hlook. reflexivity.
Qed.

Lemma detectLanguage_second_call_witness :
  ∃ r this',
    detectLanguage (js "hello") LanguageManager.new = Normal (r, this')
    ∧ detectionCache this' !! js "hello" = Some r
    ∧ detectLanguage (js "hello") this' = Normal (r, this').
Proof.
  eexists _, _. split; [reflexivity|].
  apply (detectLanguage_second_call_is_cached (js "hello") LanguageManager.new).
  reflexivity.
Defined.

(** X2: after [clearCache] the next [detectLanguage] of a text recomputes
    its result: the result is the one returned before the cache was
    cleared, and the detection cache then holds this one entry. *)
Theorem detectLanguage_after_clearCache
    (text : jsstring) (this this1 : LanguageManager.t) (r : LanguageDetectionResult.t) :
  Cache.detectionCoherent this →
  detectLanguage text this = Normal (r, this1) →
  detectionCache (clearCache this1) !! text = None
  ∧ ∃ this2,
      detectLanguage text (clearCache this1) = Normal (r, this2)
      ∧ detectionCache this2 = {[ text := r ]}.
Proof.
  intros Hcoh Hcall.
  pose proof (detectLanguage_returns_computed text this this1 r Hcoh Hcall) as Hr.
  assert (Hmiss : detectionCache (clearCache this1) !! text = None) by apply lookup_empty.
  split; [exact Hmiss|].
  destruct (detectLanguage_miss text (clearCache this1) Hmiss) as (r0 & Hr0 & Heq).
  rewrite (computed_functional text r r0 Hr Hr0).
  eexists. split; [exact Heq|]. cbn. apply insert_empty.
Qed.

Lemma detectLanguage_after_clearCache_witness :
  ∃ r this1,
    detectLanguage (js "hello") LanguageManager.new = Normal (r, this1)
    ∧ detectionCache (clearCache this1) !! js "hello" = None
    ∧ ∃ this2,
        detectLanguage (js "hello") (clearCache this1) = Normal (r, this2)
        ∧ detectionCache this2 = {[ js "hello" := r ]}.
Proof.
  eexists _, _. split; [reflexivity|].
  apply (detectLanguage_after_clearCache (js "hello") LanguageManager.new).
  - exact (proj1 new_coherent).
  - reflexivity.
Defined.

(** X3: the caches cannot be observed.  In every state that the
    constructor, [detectLanguage], [translate] and [clearCache] lead to,
    [detectLanguage] returns what a fresh manager returns for the text, and
    [translate] returns the text behind the tag of the target language. *)
Theorem caches_are_transparent (this : LanguageManager.t)
    (text : jsstring) (context : TranslationContext.t) :
  Cache.reachable this →
  (∃ r this' fresh,
     detectLanguage text this = Normal (r, this')
     ∧ detectLanguage text LanguageManager.new = Normal (r, fresh))
  ∧ fst (LanguageManager.translate text context this)
    = performTranslation text context.
Proof.
  intros Hreach. pose proof (reachable_coherent this Hreach) as Hcoh. split.
  - destruct (detectLanguage_computed text this (proj1 Hcoh)) as (r & this' & Hcall & Hr).
    destruct (detectLanguage_miss text LanguageManager.new) as (r0 & Hr0 & Heq);
      [apply lookup_empty|].
    rewrite <- (computed_functional text r r0 Hr Hr0) in Heq.
    eexists r, this', _. split; [exact Hcall | exact Heq].
  - exact (proj2 (translate_coherent text context this Hcoh)).
Qed.

Lemma caches_are_transparent_witness :
  let context := {| TranslationContext.sourceLanguage := EN;
                    TranslationContext.targetLanguage := DE;
                    TranslationContext.domain := None;
                    TranslationContext.preserveFormatting := None;
                    TranslationContext.culturalAdaptation := None |} in
  let this := snd (LanguageManager.translate (js "hello") context LanguageManager.new) in
  (∃ r this' fresh,
     detectLanguage (js "hello") this = Normal (r, this')
     ∧ detectLanguage (js "hello") LanguageManager.new = Normal (r, fresh))
  ∧ fst (LanguageManager.translate (js "hello") context this)
    = performTranslation (js "hello") context.
Proof.
  intros context this. apply caches_are_transparent.
  apply Cache.reachable_translate, Cache.reachable_new.
Defined.

(** The head of the sorted array is the first element of maximal score. *)
Lemma jssort_head_first_max {A : Type} (score : A → nat) (l : list A)
    (top : A) (rest : list A) :
  JSArray.sort (fun a b => Z.of_nat (score b) - Z.of_nat (score a)) l = top :: rest →
  ∃ before after,
    l = before ++ top :: after
    ∧ Forall (fun e => (score e < score top)%nat) before
    ∧ Forall (fun e => (score e ≤ score top)%nat) after.
Proof.
  revert top rest. induction l as [|x l IH]; intros top rest Hsort; [discriminate|].
  cbn [JSArray.sort] in Hsort.
  destruct (JSArray.sort _ l) as [|t r] eqn:Hl.
  - pose proof (jssort_Permutation score l) as Hperm. rewrite Hl in Hperm.
    apply Permutation_nil_l in Hperm. subst l.
    cbn in Hsort. inversion Hsort; subst.
    exists [], []. repeat split; constructor.
  - destruct (IH t r eq_refl) as (before & after & -> & Hb & Ha).
    cbn [JSArray.insert] in Hsort.
    destruct (Z.leb_spec (Z.of_nat (score t) - Z.of_nat (score x)) 0) as [Hle|Hgt];
      inversion Hsort; subst; clear Hsort.
    + exists [], (before ++ t :: after). split; [reflexivity|]. split; [constructor|].
      apply Forall_app. split; [|constructor].
      * eapply Forall_impl; [exact Hb|]. cbn. intros e He. lia.
      * lia.
      * eapply Forall_impl; [exact Ha|]. cbn. intros e He. lia.
    + exists (x :: before), after. split; [reflexivity|]. split; [|exact Ha].
      constructor; [lia | exact Hb].
Qed.

Lemma detectLanguage_winner_is_first_maximum_aux
    (text : jsstring) (this : LanguageManager.t) :
  Cache.detectionCoherent this →
  ∃ r this' before score after,
    detectLanguage text this = Normal (r, this')
    ∧ scoreLanguages text
      = before ++ (LanguageDetectionResult.language r, score) :: after
    ∧ Forall (fun e => (snd e < score)%nat) before
    ∧ Forall (fun e => (snd e ≤ score)%nat) after.
Proof.
  intros Hcoh.
  destruct (detectLanguage_computed text this Hcoh)
    as (r & this' & Hcall & top & rest & Hsort & ->).
  destruct (jssort_head_first_max snd (scoreLanguages text) top rest Hsort)
    as (before & after & Hsplit & Hb & Ha).
  eexists _, this', before, (snd top), after.
  split; [exact Hcall|]. cbn [LanguageDetectionResult.language].
  rewrite <- surjective_pairing. repeat split; assumption.
Qed.

(** X4: the winner of [detectLanguage] is the first language, in the key
    order of [LANGUAGE_PATTERNS], whose score is maximal: the languages
    before it score strictly less, those after it score no more. *)
Theorem detectLanguage_winner_is_first_maximum
    (text : jsstring) (this : LanguageManager.t) :
  Cache.detectionCoherent this →
  ∃ r this' before score after,
    detectLanguage text this = Normal (r, this')
    ∧ scoreLanguages text
      = before ++ (LanguageDetectionResult.language r, score) :: after
    ∧ Forall (fun e => (snd e < score)%nat) before
    ∧ Forall (fun e => (snd e ≤ score)%nat) after.
Proof. exact (detectLanguage_winner_is_first_maximum_aux text this). Qed.

Lemma detectLanguage_winner_is_first_maximum_witness :
  ∃ r this' before score after,
    detectLanguage (js "是") LanguageManager.new = Normal (r, this')
    ∧ scoreLanguages (js "是")
      = before ++ (LanguageDetectionResult.language r, score) :: after
    ∧ Forall (fun e => (snd e < score)%nat) before
    ∧ Forall (fun e => (snd e ≤ score)%nat) after.
Proof.
  apply detectLanguage_winner_is_first_maximum.
  exact (proj1 new_coherent).
Defined.

Example detectLanguage_tie_goes_to_ZH_CN :
  (LanguageDetectionResult.language ∘ fst <$>
     match detectLanguage (js "是") LanguageManager.new with
     | Normal out => Some out
     | Throw _ => None
     end) = Some ZH_CN
  ∧ scoreLanguages (js "是") !! 2%nat = Some (ZH_CN, 11%nat)
  ∧ scoreLanguages (js "是") !! 3%nat = Some (ZH_TW, 11%nat).
Proof. vm_compute. repeat split; reflexivity. Qed.

Lemma sum_app (l1 l2 : list nat) :
  fold_left (fun sum score => (sum + score)%nat) (l1 ++ l2) 0%nat
  = (fold_left (fun sum score => (sum + score)%nat) l1 0
     + fold_left (fun sum score => (sum + score)%nat) l2 0)%nat.
Proof. rewrite fold_left_app. apply fold_left_add_acc. Qed.

Lemma ratio_same (s : nat) : (0 < s)%nat → (ratio s s == 1)%Q.
Proof.
  intros Hs. unfold ratio. destruct (Nat.ltb_spec 0 s) as [_|]; [|lia].
  apply Qmult_inv_r. intros H. apply (Qeq_bool_neq (inject_Z (Z.of_nat s)) 0); [|exact H].
  unfold Qeq_bool, inject_Z. cbn. destruct s; [lia | reflexivity].
Qed.

Lemma ratio_zero (total : nat) : (ratio 0 total == 0)%Q.
Proof.
  unfold ratio. destruct (0 <? total)%nat; [|reflexivity].
  unfold Qdiv. apply Qmult_0_l.
Qed.

(** X5: when a single language scores, it wins with confidence 1, and
    every alternative has confidence 0. *)
Theorem detectLanguage_single_signal
    (text : jsstring) (this : LanguageManager.t) (language : SupportedLanguage)
    (score : nat) :
  Cache.detectionCoherent this →
  (language, score) ∈ scoreLanguages text →
  (0 < score)%nat →
  (∀ e, e ∈ scoreLanguages text → fst e ≠ language → snd e = 0%nat) →
  ∃ r this',
    detectLanguage text this = Normal (r, this')
    ∧ LanguageDetectionResult.language r = language
    ∧ (LanguageDetectionResult.confidence r == 1)%Q
    ∧ Forall (fun a => (Alternative.confidence a == 0)%Q)
             (LanguageDetectionResult.alternatives r).
Proof.
  intros Hcoh Hin Hpos Hothers.
  destruct (detectLanguage_computed text this Hcoh)
    as (r & this' & Hcall & top & rest & Hsort & ->).
  eexists _, this'. split; [exact Hcall|].
  cbn [LanguageDetectionResult.language LanguageDetectionResult.confidence
       LanguageDetectionResult.alternatives].
  destruct (jssort_head_first_max snd (scoreLanguages text) top rest Hsort)
    as (before & after & Hsplit & Hb & Ha).
  pose proof (scoreLanguages_languages text) as Hlangs.
  pose proof SupportedLanguage_values_NoDup as Hnodup.
  rewrite <- Hlangs, Hsplit, map_app in Hnodup. cbn [map] in Hnodup.
  apply NoDup_app in Hnodup. destruct Hnodup as (_ & Hdisj & Hnd).
  apply NoDup_cons in Hnd. destruct Hnd as [Hnotafter _].
  assert (Hnotbefore : fst top ∉ map fst before).
  { intros Hx. apply (Hdisj _ Hx). apply list_elem_of_here. }
  assert (Htop : top = (language, score)).
  { rewrite Hsplit in Hin. apply elem_of_app in Hin. destruct Hin as [Hin|Hin].
    - exfalso. rewrite List.Forall_forall in Hb.
      pose proof (Hb _ (proj1 (list_elem_of_In _ _) Hin)) as Hlt. cbn in Hlt.
      destruct (decide (fst top = language)) as [Heq|Hne].
      + apply Hnotbefore. rewrite Heq. apply list_elem_of_In.
        change language with (fst (language, score)). apply in_map.
        apply list_elem_of_In. exact Hin.
      + assert (Hz : snd top = 0%nat).
        { apply Hothers; [|exact Hne]. rewrite Hsplit. apply elem_of_app. right.
          apply list_elem_of_here. }
        lia.
    - apply elem_of_cons in Hin. destruct Hin as [<-|Hin]; [reflexivity|].
      exfalso. rewrite List.Forall_forall in Ha.
      pose proof (Ha _ (proj1 (list_elem_of_In _ _) Hin)) as Hle. cbn in Hle.
      destruct (decide (fst top = language)) as [Heq|Hne].
      + apply Hnotafter. rewrite Heq. apply list_elem_of_In.
        change language with (fst (language, score)). apply in_map.
        apply list_elem_of_In. exact Hin.
      + assert (Hz : snd top = 0%nat).
        { apply Hothers; [|exact Hne]. rewrite Hsplit. apply elem_of_app. right.
          apply list_elem_of_here. }
        lia. }
  subst top. cbn [fst snd] in *.
  assert (Hzero : ∀ l, (∀ e, e ∈ l → e ∈ scoreLanguages text) →
                       language ∉ map fst l → Forall (fun e => snd e = 0%nat) l).
  { intros l Hsub Hnot. apply List.Forall_forall. intros e He.
    apply list_elem_of_In in He. apply Hothers; [apply Hsub, He|].
    intros Heq. apply Hnot. rewrite <- Heq. apply list_elem_of_In, in_map.
    apply list_elem_of_In. exact He. }
  assert (Hbz : Forall (fun e => snd e = 0%nat) before).
  { apply Hzero; [|exact Hnotbefore]. intros e He. rewrite Hsplit.
    apply elem_of_app. left. exact He. }
  assert (Haz : Forall (fun e => snd e = 0%nat) after).
  { apply Hzero; [|exact Hnotafter]. intros e He. rewrite Hsplit.
    apply elem_of_app. right. apply list_elem_of_further. exact He. }
  assert (Htotal : fold_left (fun sum s => (sum + s)%nat)
                             (map snd (scoreLanguages text)) 0%nat = score).
  { rewrite Hsplit, map_app, sum_app. cbn [map fold_left snd].
    rewrite (fold_left_add_acc (map snd after)).
    rewrite !fold_left_add_zero by (apply Forall_map; assumption). lia. }
  rewrite Htotal. split; [reflexivity|]. split; [apply ratio_same, Hpos|].
  assert (Hrest : Forall (fun e => snd e = 0%nat) rest).
  { pose proof (jssort_Permutation snd (scoreLanguages text)) as Hperm.
    rewrite Hsort, Hsplit in Hperm.
    rewrite <- Permutation_middle in Hperm. apply Permutation_cons_inv in Hperm.
    rewrite Hperm. apply Forall_app. split; assumption. }
  apply Forall_map. apply List.Forall_forall. intros e He.
  cbn [Alternative.confidence].
  rewrite List.Forall_forall in Hrest.
  rewrite (Hrest e); [apply ratio_zero|].
  apply list_elem_of_In. apply (subseteq_take 3 rest). apply list_elem_of_In. exact He.
Qed.

Lemma detectLanguage_single_signal_witness :
  ∃ r this',
    detectLanguage (js "Привет") LanguageManager.new = Normal (r, this')
    ∧ LanguageDetectionResult.language r = RU
    ∧ (LanguageDetectionResult.confidence r == 1)%Q
    ∧ Forall (fun a => (Alternative.confidence a == 0)%Q)
             (LanguageDetectionResult.alternatives r).
Proof.
  apply (detectLanguage_single_signal (js "Привет") LanguageManager.new RU 11).
  - exact (proj1 new_coherent).
  - apply list_elem_of_In. vm_compute. tauto.
  - lia.
  - intros e He Hne. apply list_elem_of_In in He. vm_compute in He.
    repeat (destruct He as [<-|He];
            [first [reflexivity | exfalso; apply Hne; reflexivity]|]).
    destruct He.
Defined.

(** The two Chinese entries share their patterns and three of their five
    phrases. *)
Lemma scoreOf_ZH_TW_le_ZH_CN (text : jsstring) (patterns : list RegExp) :
  includes (toLowerCase text) (js "請") = false →
  includes (toLowerCase text) (js "謝謝") = false →
  (scoreOf text ZH_TW patterns ≤ scoreOf text ZH_CN patterns)%nat.
Proof.
  intros H1 H2. unfold scoreOf.
  generalize (fold_left (fun score pattern => (score + matchCount text pattern)%nat)
                        patterns 0%nat) as base.
  intros base. cbn [COMMON_PHRASES map fold_left].
  change (toLowerCase (js "請")) with (js "請").
  change (toLowerCase (js "謝謝")) with (js "謝謝").
  rewrite H1, H2.
  repeat match goal with
         | |- context [includes ?a ?b] => destruct (includes a b)
         end; lia.
Qed.

(** X6: a text that contains neither of the two phrases that are proper
    to the ZH_TW list ("請" and "謝謝") is never detected as ZH_TW: its
    ZH_CN score is at least its ZH_TW score, and ZH_CN comes first. *)
Theorem detectLanguage_ZH_TW_needs_a_traditional_phrase
    (text : jsstring) (this : LanguageManager.t) :
  Cache.detectionCoherent this →
  includes (toLowerCase text) (js "請") = false →
  includes (toLowerCase text) (js "謝謝") = false →
  ∃ r this',
    detectLanguage text this = Normal (r, this')
    ∧ LanguageDetectionResult.language r ≠ ZH_TW.
Proof.
  intros Hcoh H1 H2.
  destruct (detectLanguage_winner_is_first_maximum_aux text this Hcoh)
    as (r & this' & before & score & after & Hcall & Hsplit & Hb & _).
  exists r, this'. split; [exact Hcall|]. intros Hwin. rewrite Hwin in Hsplit.
  pose proof (f_equal (map fst) Hsplit) as Hlangs.
  rewrite scoreLanguages_languages, map_app in Hlangs. cbn [map fst] in Hlangs.
  destruct before as [|b0 [|b1 [|b2 [|b3 before]]]]; try discriminate Hlangs.
  - unfold scoreLanguages, LANGUAGE_PATTERNS in Hsplit.
    cbn [map fst snd app] in Hsplit.
    injection Hsplit as _ _ Hb2 Hscore _.
    apply Forall_cons in Hb as [_ Hb]. apply Forall_cons in Hb as [_ Hb].
    apply Forall_cons in Hb as [Hlt _].
    rewrite <- Hb2, <- Hscore in Hlt. cbn [snd] in Hlt.
    match type of Hlt with
    | (scoreOf _ _ ?ps < _)%nat =>
      pose proof (scoreOf_ZH_TW_le_ZH_CN text ps H1 H2) as Hle
    end.
    exact (Nat.lt_irrefl _ (Nat.lt_le_trans _ _ _ Hlt Hle)).
  - cbn [map app] in Hlangs. injection Hlangs as _ _ _ _ Hrest.
    assert (Hin : ZH_TW ∈ [JA; KO; DE; FR; ES; PT; TR; TH; IT; HI]).
    { rewrite Hrest. apply elem_of_app. right. apply list_elem_of_here. }
    repeat (apply elem_of_cons in Hin as [Hin|Hin]; [discriminate Hin|]).
    apply elem_of_nil in Hin. exact Hin.
Qed.

Lemma detectLanguage_ZH_TW_witness :
  ∃ r this',
    detectLanguage (js "你好，世界") LanguageManager.new = Normal (r, this')
    ∧ LanguageDetectionResult.language r ≠ ZH_TW.
Proof.
  apply detectLanguage_ZH_TW_needs_a_traditional_phrase.
  - exact (proj1 new_coherent).
  - vm_compute. reflexivity.
  - vm_compute. reflexivity.
Defined.

(** Testing a one-character class without flags is scanning the text for
    a code unit of the class. *)
Lemma search_class (text : jsstring) (rs : list (Z * Z)) (fuel i : nat) :
  (length text - i ≤ fuel)%nat →
  match search text false (RClass rs) fuel i with
  | Some _ => true
  | None => false
  end = existsb (inRanges rs) (drop i text).
Proof.
  revert i. induction fuel as [|fuel IH]; intros i Hfuel.
  - rewrite drop_ge by lia. reflexivity.
  - cbn [search matcher]. unfold step. cbn [endIndex classMatches].
    destruct (text !! i) as [ch|] eqn:Hi.
    + rewrite (drop_S _ _ _ Hi). cbn [existsb].
      destruct (inRanges rs ch); [reflexivity|]. apply IH. lia.
    + apply lookup_ge_None in Hi. rewrite (drop_ge text i) by lia.
      rewrite IH by lia. rewrite drop_ge by lia. reflexivity.
Qed.

Lemma testClass_scan (text : jsstring) (rs : list (Z * Z)) :
  testClass (RClass rs) text = existsb (inRanges rs) text.
Proof.
  unfold testClass, test, exec. cbn [source flagI].
  rewrite search_class by lia. rewrite drop_0. reflexivity.
Qed.

(** X7: [detectScript] classifies a text by the first family, in the order
    Cyrillic, CJK, Arabic, Devanagari, of which the text holds at least one
    code unit; a text that holds none is "latin".  The Cyrillic family is
    U+0410..U+044F with U+0401 and U+0451. *)
Theorem detectScript_first_family (text : jsstring) :
  detectScript text =
    if existsb (inRanges [(0x430, 0x44F); (0x410, 0x42F); (0x451, 0x451); (0x401, 0x401)]) text
    then cyrillic
    else if existsb (inRanges [(0x4e00, 0x9fff); (0x3040, 0x30ff); (0xac00, 0xd7af)]) text
    then cjk
    else if existsb (inRanges [(0x0600, 0x06ff)]) text then arabic
    else if existsb (inRanges [(0x0900, 0x097f)]) text then devanagari
    else latin.
Proof.
  unfold detectScript, range.
  change (ranges [("а", "я"); ("А", "Я"); ("ё", "ё"); ("Ё", "Ё")]%string)
    with (RClass [(0x430, 0x44F); (0x410, 0x42F); (0x451, 0x451); (0x401, 0x401)]).
  rewrite !testClass_scan. reflexivity.
Qed.

Example detectScript_thai_is_latin : detectScript (js "สวัสดี") = latin.
Proof. vm_compute. reflexivity. Qed.

Example detectScript_mixed_is_cyrillic : detectScript (js "東京 и Москва") = cyrillic.
Proof. vm_compute. reflexivity. Qed.

(** X8: with coherent caches, [translate] of the manager returns the text
    behind the tag of the target language and stores it under the text and
    the target language; the same call made again returns the same
    translation and leaves the manager unchanged. *)
Theorem translate_then_cached (text : jsstring) (context : TranslationContext.t)
    (this : LanguageManager.t) :
  Cache.coherent this →
  let translated := fst (LanguageManager.translate text context this) in
  let this' := snd (LanguageManager.translate text context this) in
  translated = js "[" ++ getLanguagePrefix (TranslationContext.targetLanguage context)
                 ++ js "] " ++ text
  ∧ (translationCache this' !! text
       ≫= fun perLanguage => perLanguage !! TranslationContext.targetLanguage context)
    = Some translated
  ∧ LanguageManager.translate text context this' = (translated, this').
Proof.
  intros Hcoh translated this'.
  destruct (translate_coherent text context this Hcoh) as [_ Htext].
  fold translated in Htext.
  assert (Hstored : (translationCache this' !! text
                       ≫= fun perLanguage =>
                            perLanguage !! TranslationContext.targetLanguage context)
                    = Some translated).
  { subst translated this'. unfold LanguageManager.translate.
    destruct (translationCache this !! text) as [m|] eqn:Hm; cbn [default].
    - destruct (m !! TranslationContext.targetLanguage context) as [c|] eqn:Hc.
      + destruct (truthy c); cbn [fst snd translationCache].
        * rewrite Hm. cbn. exact Hc.
        * rewrite lookup_insert_eq. cbn. apply lookup_insert_eq.
      + cbn [fst snd translationCache]. rewrite lookup_insert_eq. cbn.
        apply lookup_insert_eq.
    - cbn [fst snd translationCache]. rewrite lookup_insert_eq. cbn.
      apply lookup_insert_eq. }
  split; [exact Htext|]. split; [exact Hstored|].
  unfold LanguageManager.translate at 1.
  destruct (translationCache this' !! text) as [m|]; [|discriminate Hstored].
  cbn in Hstored. rewrite Hstored, Htext. reflexivity.
Qed.

Lemma translate_then_cached_witness :
  let context := {| TranslationContext.sourceLanguage := EN;
                    TranslationContext.targetLanguage := JA;
                    TranslationContext.domain := None;
                    TranslationContext.preserveFormatting := None;
                    TranslationContext.culturalAdaptation := None |} in
  let translated := fst (LanguageManager.translate (js "hello") context LanguageManager.new) in
  let this' := snd (LanguageManager.translate (js "hello") context LanguageManager.new) in
  translated = js "[" ++ getLanguagePrefix JA ++ js "] " ++ js "hello"
  ∧ (translationCache this' !! js "hello" ≫= fun perLanguage => perLanguage !! JA)
    = Some translated
  ∧ LanguageManager.translate (js "hello") context this' = (translated, this').
Proof.
  intros context.
  apply (translate_then_cached (js "hello") context LanguageManager.new).
  exact new_coherent.
Defined.

(** X9: the placeholder translation can be undone: two translations are
    equal only when they have the same target language and the same
    text. *)
Theorem performTranslation_injective (text1 text2 : jsstring)
    (context1 context2 : TranslationContext.t) :
  performTranslation text1 context1 = performTranslation text2 context2 →
  TranslationContext.targetLanguage context1 = TranslationContext.targetLanguage context2
  ∧ text1 = text2.
Proof.
  unfold performTranslation.
  destruct (TranslationContext.targetLanguage context1),
           (TranslationContext.targetLanguage context2);
    intros H; vm_compute in H; split; congruence.
Qed.

Lemma performTranslation_injective_witness :
  let context := {| TranslationContext.sourceLanguage := EN;
                    TranslationContext.targetLanguage := ZH_TW;
                    TranslationContext.domain := None;
                    TranslationContext.preserveFormatting := None;
                    TranslationContext.culturalAdaptation := None |} in
  TranslationContext.targetLanguage context = TranslationContext.targetLanguage context
  ∧ js "hello" = js "hello".
Proof.
  intros context.
  apply (performTranslation_injective (js "hello") (js "hello") context context).
  reflexivity.
Defined.

(** X10: a language without an intent table is served by the table of EN:
    for every language other than RU, [extractIntent] returns what it
    returns for EN. *)
Theorem extractIntent_falls_back_to_EN (text : jsstring) (language : SupportedLanguage) :
  language ≠ RU →
  extractIntent text language = extractIntent text EN.
Proof.
  intros Hne. rewrite !extractIntent_unfold.
  destruct language; try reflexivity. contradiction.
Qed.

Lemma extractIntent_falls_back_to_EN_witness :
  extractIntent (js "ヘルプ help") JA = extractIntent (js "ヘルプ help") EN.
Proof. apply extractIntent_falls_back_to_EN. discriminate. Defined.

Lemma inferIntent_label (text : jsstring) (language : SupportedLanguage) :
  inferIntent text language
    ∈ map js ["create"; "delete"; "update"; "search"; "help"; "general"]%string.
Proof.
  unfold inferIntent. generalize (toLowerCase text) as lowerText. intros lowerText.
  unfold intentKeywords. cbn [map fst snd inferLoop].
  repeat match goal with
         | |- context [JS.some ?f ?l] => destruct (JS.some f l)
         end;
    apply list_elem_of_In; cbn [map In]; tauto.
Qed.

Lemma resolvedPatterns_labels (language : SupportedLanguage) :
  map fst (Intent.resolvedPatterns language)
  = map js ["create"; "delete"; "update"; "search"; "help"]%string.
Proof. destruct language; reflexivity. Qed.

(** X11: the intent returned by [extractIntent] is one of "create",
    "delete", "update", "search", "help" and "general"; the initial value
    "unknown" of the loop variable is never returned. *)
Theorem extractIntent_intent_is_a_label (text : jsstring) (language : SupportedLanguage) :
  IntentResult.intent (extractIntent text language)
    ∈ map js ["create"; "delete"; "update"; "search"; "help"; "general"]%string
  ∧ IntentResult.intent (extractIntent text language) ≠ js "unknown".
Proof.
  assert (Hlabel : IntentResult.intent (extractIntent text language)
                     ∈ map js ["create"; "delete"; "update"; "search"; "help";
                               "general"]%string).
  { destruct (Intent.patternMatched text language) eqn:Hm.
    - destruct (extractIntent_pattern_path text language Hm) as [_ Hin].
      rewrite resolvedPatterns_labels in Hin.
      apply list_elem_of_In in Hin. apply list_elem_of_In.
      cbn [map In] in *. tauto.
    - rewrite (extractIntent_keyword_path text language Hm).
      apply inferIntent_label. }
  split; [exact Hlabel|].
  intros Heq. rewrite Heq in Hlabel. apply list_elem_of_In in Hlabel.
  cbn [map In] in Hlabel.
  repeat (destruct Hlabel as [Hlabel|Hlabel]; [vm_compute in Hlabel; discriminate Hlabel|]).
  exact Hlabel.
Qed.


Lemma lowerUnit_no_capital (c d : Z) : In d (lowerUnit c) → ¬ (0x41 <= d <= 0x5A).
Proof.
  unfold lowerUnit. repeat case_if; decode_bools; cbn [In];
    intros Hin; repeat (destruct Hin as [<-|Hin]; [lia|]); destruct Hin.
Qed.

(** * Further properties of the cultural analyzer *)

Lemma etiquette_refs_distinct (language language' : SupportedLanguage) (r : ref) :
  CULTURAL_CONFIGS language ≫= CulturalContext.businessEtiquette = Some r →
  CULTURAL_CONFIGS language' ≫= CulturalContext.businessEtiquette = Some r →
  language = language'.
Proof.
  assert (Hidx : ∀ l i, CULTURAL_CONFIGS l ≫= CulturalContext.businessEtiquette = Some i →
                 ConfigLiteral.language <$> CULTURAL_CONFIGS_literal !! i = Some l).
  { intros l i. destruct l; vm_compute; intros H; inversion H; reflexivity. }
  intros H H'. apply Hidx in H. apply Hidx in H'. congruence.
Qed.

(** X13: [analyze] of one language never changes the stored base profile
    of another language, its nested object included. *)
Theorem analyze_keeps_other_base_profiles
    (language language' : SupportedLanguage) (text : jsstring)
    (options : option Options.t) (store : Store) :
  language' ≠ language →
  baseProfile (snd (analyze language text options store)) language'
  = baseProfile store language'.
Proof.
  intros Hne. unfold baseProfile.
  destruct (CULTURAL_CONFIGS language') as [c|] eqn:Hc; [|reflexivity].
  destruct (CulturalContext.businessEtiquette c) as [r|] eqn:Hr; [|reflexivity].
  do 2 f_equal. change (snd (analyze language text options store) !! r = store !! r).
  apply analyze_store_frame.
  intros Heq. apply Hne. symmetry. apply (etiquette_refs_distinct language language' r Heq).
  rewrite Hc. exact Hr.
Qed.

Lemma analyze_keeps_other_base_profiles_witness :
  baseProfile (snd (analyze EN (js "negotiation") None initialStore)) RU
  = baseProfile initialStore RU.
Proof. apply (analyze_keeps_other_base_profiles EN RU). discriminate. Defined.

(** The level of the returned profile is the detected one when there is
    one, and the level of the table otherwise. *)
Lemma analyze_formality_level (language : SupportedLanguage) (text : jsstring)
    (options : option Options.t) (store : Store) :
  CulturalContext.formalityLevel (fst (analyze language text options store))
  = if bool_decide (language ∈ [EN; RU; JA; KO])
    then detectFormalityLevel text language
    else CULTURAL_CONFIGS language ≫= CulturalContext.formalityLevel.
Proof.
  unfold analyze. cbn [fst].
  assert (Hbase : CulturalContext.formalityLevel
                    (default CulturalContext.empty (CULTURAL_CONFIGS language))
                  = CULTURAL_CONFIGS language ≫= CulturalContext.formalityLevel).
  { destruct (CULTURAL_CONFIGS language); reflexivity. }
  revert Hbase.
  generalize (default CulturalContext.empty (CULTURAL_CONFIGS language)) as base.
  generalize (CULTURAL_CONFIGS language ≫= CulturalContext.formalityLevel) as level.
  intros level base Hbase.
  assert (Hdetect : if bool_decide (language ∈ [EN; RU; JA; KO])
                    then is_Some (detectFormalityLevel text language)
                    else detectFormalityLevel text language = None).
  { unfold detectFormalityLevel.
    destruct language; cbn [formalityMarkers]; try reflexivity;
      (rewrite bool_decide_eq_true_2 by (apply list_elem_of_In; cbn; tauto));
      repeat case_if; eexists; reflexivity. }
  destruct (bool_decide (language ∈ [EN; RU; JA; KO])).
  - destruct Hdetect as [f Hf]. rewrite Hf.
    destruct (options ≫= Options.region) as [rg|]; [destruct (truthy rg)|];
      (destruct (options ≫= Options.timezone) as [tz|]; [destruct (truthy tz)|]);
      reflexivity.
  - rewrite Hdetect.
    destruct (options ≫= Options.region) as [rg|]; [destruct (truthy rg)|];
      (destruct (options ≫= Options.timezone) as [tz|]; [destruct (truthy tz)|]);
      exact Hbase.
Qed.

(** X14: the formality of the returned profile.  For EN, RU, JA and KO it
    is always the level detected in the text, never the level of the
    table; for every other language it is the level of the table. *)
Theorem analyze_formality (language : SupportedLanguage) (text : jsstring)
    (options : option Options.t) (store : Store) :
  CulturalContext.formalityLevel (fst (analyze language text options store))
  = if bool_decide (language ∈ [EN; RU; JA; KO])
    then detectFormalityLevel text language
    else CULTURAL_CONFIGS language ≫= CulturalContext.formalityLevel.
Proof. apply analyze_formality_level. Qed.

Example analyze_ja_plain_text_is_neutral :
  CulturalContext.formalityLevel (fst (analyze JA (js "東京") None initialStore))
    = Some neutral
  ∧ CULTURAL_CONFIGS JA ≫= CulturalContext.formalityLevel = Some very_formal.
Proof. vm_compute. split; reflexivity. Qed.

Lemma countMarkers_acc (lowerText : jsstring) (markers : list string) (k : nat) :
  (k ≤ fold_left (fun count marker =>
                    if includes lowerText (js marker) then S count else count)
                 markers k)%nat.
Proof.
  revert k. induction markers as [|m rest IH]; intros k; simpl; [lia|].
  destruct (includes lowerText (js m)); [specialize (IH (S k)) | specialize (IH k)]; lia.
Qed.

Lemma countMarkers_pos (lowerText : jsstring) (markers : list string) (marker : string) :
  In marker markers → includes lowerText (js marker) = true →
  (0 < countMarkers lowerText markers)%nat.
Proof.
  unfold countMarkers. generalize 0%nat as k.
  induction markers as [|m rest IH]; intros k Hin Hinc; [destruct Hin|].
  simpl. destruct Hin as [->|Hin].
  - rewrite Hinc. pose proof (countMarkers_acc lowerText rest (S k)). lia.
  - destruct (includes lowerText (js m));
      [specialize (IH (S k) Hin Hinc) | specialize (IH k Hin Hinc)]; lia.
Qed.

(** X15: one very formal marker is enough.  When a very formal marker of
    the language occurs anywhere in the lower-cased text, also inside a
    longer word, the level is very formal however many informal or formal
    markers the text holds. *)
Theorem detectFormalityLevel_very_formal_wins
    (text : jsstring) (language : SupportedLanguage) (markers : Markers.t)
    (marker : string) :
  formalityMarkers language = Some markers →
  In marker (Markers.veryFormal markers) →
  includes (toLowerCase text) (js marker) = true →
  detectFormalityLevel text language = Some very_formal.
Proof.
  intros Hm Hin Hinc. unfold detectFormalityLevel. rewrite Hm.
  apply (countMarkers_pos _ _ _ Hin) in Hinc.
  apply Nat.ltb_lt in Hinc. rewrite Hinc. reflexivity.
Qed.

Lemma detectFormalityLevel_very_formal_wins_witness :
  detectFormalityLevel (js "hey hi yeah, Esteemed colleagues") EN = Some very_formal.
Proof.
  apply (detectFormalityLevel_very_formal_wins _ EN _ "esteemed" eq_refl).
  - cbn. tauto.
  - vm_compute. reflexivity.
Defined.

(** Markers are searched as substrings: the informal marker [hi] occurs
    in [this]. *)
Example detectFormalityLevel_substring :
  detectFormalityLevel (js "this") EN = Some informal.
Proof. vm_compute. reflexivity. Qed.

(** ** [applyPluralization] on every count *)

Lemma digits_S (fuel : nat) (n : Z) (acc : jsstring) :
  Eval.digits (S fuel) n acc
  = if n <? 10 then (48 + n mod 10) :: acc
    else Eval.digits fuel (n / 10) ((48 + n mod 10) :: acc).
Proof. reflexivity. Qed.

Lemma digits_spec (fuel : nat) :
  ∀ (n : Z) (acc : jsstring), 0 <= n < 2 ^ Z.of_nat (S fuel) →
  ∃ ds c ds', Eval.digits (S fuel) n acc = ds ++ acc ∧ ds = c :: ds'
    ∧ Eval.isDigit c = true
    ∧ ∀ (a : Z) (rest : jsstring),
        Eval.lexNumber (ds ++ rest) a
        = Eval.lexNumber rest (a * 10 ^ Z.of_nat (length ds) + n).
Proof.
  induction fuel as [|fuel IH]; intros n acc Hn;
    rewrite digits_S; destruct (n <? 10) eqn:Hlt;
    try (apply Z.ltb_lt in Hlt; rewrite Z.mod_small by lia;
         exists [48 + n], (48 + n), []; repeat split;
         [ unfold Eval.isDigit; apply andb_true_iff; split; apply Z.leb_le; lia
         | intros a rest; cbn [app Eval.lexNumber length];
           replace (Eval.isDigit (48 + n)) with true
             by (symmetry; unfold Eval.isDigit; apply andb_true_iff;
                 split; apply Z.leb_le; lia);
           f_equal; change (Z.of_nat 1) with 1; lia ]).
  - apply Z.ltb_ge in Hlt. change (2 ^ Z.of_nat 1) with 2 in Hn. lia.
  - apply Z.ltb_ge in Hlt.
    assert (Hdiv : 0 <= n / 10 < 2 ^ Z.of_nat (S fuel)).
    { split; [apply Z.div_pos; lia|].
      rewrite (Nat2Z.inj_succ (S fuel)), Z.pow_succ_r in Hn by lia.
      apply Z.div_lt_upper_bound; lia. }
    destruct (IH (n / 10) ((48 + n mod 10) :: acc) Hdiv)
      as (ds & c & ds' & Heq & Hds & Hc & Hlex).
    exists (ds ++ [48 + n mod 10]), c, (ds' ++ [48 + n mod 10]).
    repeat split.
    + rewrite Heq, <- app_assoc. reflexivity.
    + rewrite Hds. reflexivity.
    + exact Hc.
    + intros a rest. rewrite <- app_assoc. rewrite Hlex.
      cbn [app Eval.lexNumber].
      pose proof (Z.mod_pos_bound n 10 ltac:(lia)) as Hmod.
      replace (Eval.isDigit (48 + n mod 10)) with true
        by (symmetry; unfold Eval.isDigit; apply andb_true_iff; split; apply Z.leb_le; lia).
      f_equal. rewrite length_app. cbn [length].
      rewrite Nat2Z.inj_add. change (Z.of_nat 1) with 1.
      rewrite Z.pow_add_r by lia. change (10 ^ 1) with 10.
      pose proof (Z.div_mod n 10 ltac:(lia)). lia.
Qed.

Lemma String_of_spec (n : Z) : 0 <= n →
  ∃ c ds', Eval.String_of n = c :: ds' ∧ Eval.isDigit c = true
    ∧ ∀ rest, Eval.lexNumber (Eval.String_of n ++ rest) 0 = Eval.lexNumber rest n.
Proof.
  intros Hn. unfold Eval.String_of.
  replace (n <? 0) with false by (symmetry; apply Z.ltb_ge; lia).
  assert (Hb : 0 <= n < 2 ^ Z.of_nat (S (Z.to_nat (Z.log2 n)))).
  { split; [lia|]. rewrite Nat2Z.inj_succ, Z2Nat.id by apply Z.log2_nonneg.
    destruct (Z.eq_dec n 0) as [->|Hne]; [reflexivity|].
    apply Z.log2_spec. lia. }
  destruct (digits_spec _ n [] Hb) as (ds & c & ds' & Heq & Hds & Hc & Hlex).
  rewrite app_nil_r in Heq. rewrite Heq.
  exists c, ds'. repeat split; [exact Hds | exact Hc |].
  intros rest. rewrite Hlex. reflexivity.
Qed.

Lemma lex_fuel_mono (fuel : nat) :
  ∀ (fuel' : nat) (s : jsstring) (ts : list Eval.token),
  Eval.lex fuel s = Some ts → (fuel ≤ fuel')%nat → Eval.lex fuel' s = Some ts.
Proof.
  induction fuel as [|fuel IH]; intros fuel' s ts Hlex Hle; [discriminate|].
  destruct fuel' as [|fuel']; [lia|].
  assert (Hmap : ∀ (t : Eval.token) s0 ts0,
            cons t <$> Eval.lex fuel s0 = Some ts0 →
            cons t <$> Eval.lex fuel' s0 = Some ts0).
  { intros t s0 ts0 H. destruct (Eval.lex fuel s0) as [ts1|] eqn:H1; [|discriminate].
    rewrite (IH fuel' s0 ts1 H1) by lia. exact H. }
  revert Hlex. cbn [Eval.lex].
  destruct s as [|c s']; [tauto|].
  destruct (isWhiteSpace c); [intros H; apply (IH _ _ _ H); lia|].
  destruct (Eval.isDigit c); [destruct (Eval.lexNumber (c :: s') 0); apply Hmap|].
  destruct (Eval.isIdentStart c); [destruct (Eval.lexIdent (c :: s') []); apply Hmap|].
  repeat (case_if; [apply Hmap|]).
  destruct s' as [|d s'']; [tauto|].
  repeat (case_if; [apply Hmap|]). tauto.
Qed.

Lemma isDigit_not_space (c : Z) : Eval.isDigit c = true → isWhiteSpace c = false.
Proof.
  unfold Eval.isDigit. intros H. apply isWhiteSpace_false_iff.
  apply andb_true_iff in H. rewrite !Z.leb_le in H. lia.
Qed.

Lemma lex_digit (fuel : nat) (c : Z) (s' : jsstring) :
  Eval.isDigit c = true →
  Eval.lex (S fuel) (c :: s')
  = let '(n, rest) := Eval.lexNumber (c :: s') 0 in
    cons (Eval.TNum n) <$> Eval.lex fuel rest.
Proof.
  intros Hc. cbn [Eval.lex]. rewrite (isDigit_not_space c Hc), Hc. reflexivity.
Qed.

(** The parse of a code that starts with the decimal text of a count. *)
Lemma parse_after_count (count : Z) (rest : jsstring) (ts : list Eval.token) :
  0 <= count →
  match rest with c :: _ => Eval.isDigit c = false | [] => True end →
  Eval.lex (S (length rest)) rest = Some ts →
  Eval.parse (Eval.String_of count ++ rest)
  = match Eval.parseLevel (8 * S (S (length ts))) 0 (Eval.TNum count :: ts) with
    | Some (e, []) => Some e
    | _ => None
    end.
Proof.
  intros Hcount Hrest Hlex. unfold Eval.parse.
  destruct (String_of_spec count Hcount) as (c & ds' & Hs & Hc & Hnum).
  assert (Hl : Eval.lex (S (length (Eval.String_of count ++ rest)))
                        (Eval.String_of count ++ rest)
               = Some (Eval.TNum count :: ts)).
  { specialize (Hnum rest). rewrite Hs in Hnum |- *.
    cbn [app] in Hnum. cbn [app]. rewrite (lex_digit _ c _ Hc), Hnum.
    replace (Eval.lexNumber rest count) with (count, rest)
      by (destruct rest as [|d rest']; [reflexivity|]; cbn [Eval.lexNumber];
          rewrite Hrest; reflexivity).
    rewrite (lex_fuel_mono _ (length (c :: ds' ++ rest)) rest ts Hlex)
      by (cbn [length]; rewrite length_app; lia).
    reflexivity. }
  rewrite Hl. reflexivity.
Qed.

Lemma evaluate_And (scope : jsstring → option Eval.value) (a b : Eval.expr) :
  Eval.evaluate scope (Eval.EBin Eval.And a b)
  = (va ← Eval.evaluate scope a;
     if Eval.truthyValue va then Eval.evaluate scope b else Normal va).
Proof. reflexivity. Qed.

Lemma evaluate_Or (scope : jsstring → option Eval.value) (a b : Eval.expr) :
  Eval.evaluate scope (Eval.EBin Eval.Or a b)
  = (va ← Eval.evaluate scope a;
     if Eval.truthyValue va then Normal va else Eval.evaluate scope b).
Proof. reflexivity. Qed.

Lemma evaluate_Eq_num (scope : jsstring → option Eval.value) (x y : Z) :
  Eval.evaluate scope (Eval.EBin Eval.Eq (Eval.ENum x) (Eval.ENum y))
  = Normal (Eval.VBool (x =? y)).
Proof. reflexivity. Qed.

Lemma evaluate_Rem_Eq_num (scope : jsstring → option Eval.value) (x y : Z) :
  Eval.evaluate scope
    (Eval.EBin Eval.Eq (Eval.EBin Eval.Rem (Eval.ENum x) (Eval.ENum 10)) (Eval.ENum y))
  = Normal (Eval.VBool (Z.rem x 10 =? y)).
Proof. reflexivity. Qed.

(** [n] is not bound where [eval] runs. *)
Lemma evaluate_n_unbound (count k : Z) :
  Eval.evaluate (pluralizationScope count)
                (Eval.EBin Eval.Eq (Eval.EIdent (js "n")) (Eval.ENum k))
  = Throw ReferenceError
  ∧ Eval.evaluate (pluralizationScope count)
      (Eval.EBin Eval.Ne (Eval.EBin Eval.Rem (Eval.EIdent (js "n")) (Eval.ENum 100))
                 (Eval.ENum k))
    = Throw ReferenceError.
Proof. split; vm_compute; reflexivity. Qed.

Lemma eval_rule_DE (count : Z) : 0 <= count →
  Eval.eval (pluralizationScope count)
            (Eval.replace (js "n == 1") (js "n") (Eval.String_of count))
  = Normal (Eval.VBool (count =? 1)).
Proof.
  intros Hcount.
  replace (Eval.replace (js "n == 1") (js "n") (Eval.String_of count))
    with (Eval.String_of count ++ js " == 1") by (vm_compute; reflexivity).
  unfold Eval.eval.
  rewrite (parse_after_count count (js " == 1") [Eval.TOp Eval.Eq; Eval.TNum 1] Hcount)
    by (vm_compute; reflexivity).
  match goal with
  | |- context [Eval.parseLevel ?f ?l ?ts] =>
    replace (Eval.parseLevel f l ts)
      with (Some (Eval.EBin Eval.Eq (Eval.ENum count) (Eval.ENum 1), @nil Eval.token))
      by (vm_compute; reflexivity)
  end.
  apply evaluate_Eq_num.
Qed.

Lemma eval_rule_FR (count : Z) : 0 <= count →
  Eval.eval (pluralizationScope count)
            (Eval.replace (js "n == 0 || n == 1") (js "n") (Eval.String_of count))
  = if count =? 0 then Normal (Eval.VBool true) else Throw ReferenceError.
Proof.
  intros Hcount.
  replace (Eval.replace (js "n == 0 || n == 1") (js "n") (Eval.String_of count))
    with (Eval.String_of count ++ js " == 0 || n == 1") by (vm_compute; reflexivity).
  unfold Eval.eval.
  rewrite (parse_after_count count (js " == 0 || n == 1")
             [Eval.TOp Eval.Eq; Eval.TNum 0; Eval.TOp Eval.Or;
              Eval.TIdent (js "n"); Eval.TOp Eval.Eq; Eval.TNum 1] Hcount)
    by (vm_compute; reflexivity).
  match goal with
  | |- context [Eval.parseLevel ?f ?l ?ts] =>
    replace (Eval.parseLevel f l ts)
      with (Some (Eval.EBin Eval.Or
                    (Eval.EBin Eval.Eq (Eval.ENum count) (Eval.ENum 0))
                    (Eval.EBin Eval.Eq (Eval.EIdent (js "n")) (Eval.ENum 1)),
                  @nil Eval.token))
      by (vm_compute; reflexivity)
  end.
  rewrite evaluate_Or, evaluate_Eq_num.
  rewrite (proj1 (evaluate_n_unbound count 1)).
  destruct (count =? 0); reflexivity.
Qed.

Lemma eval_rule_RU (count : Z) : 0 <= count →
  Eval.eval (pluralizationScope count)
            (Eval.replace (js "n % 10 == 1 && n % 100 != 11") (js "n")
                          (Eval.String_of count))
  = if count mod 10 =? 1 then Throw ReferenceError else Normal (Eval.VBool false).
Proof.
  intros Hcount.
  replace (Eval.replace (js "n % 10 == 1 && n % 100 != 11") (js "n") (Eval.String_of count))
    with (Eval.String_of count ++ js " % 10 == 1 && n % 100 != 11")
    by (vm_compute; reflexivity).
  unfold Eval.eval.
  rewrite (parse_after_count count (js " % 10 == 1 && n % 100 != 11")
             [Eval.TOp Eval.Rem; Eval.TNum 10; Eval.TOp Eval.Eq; Eval.TNum 1;
              Eval.TOp Eval.And; Eval.TIdent (js "n"); Eval.TOp Eval.Rem; Eval.TNum 100;
              Eval.TOp Eval.Ne; Eval.TNum 11] Hcount)
    by (vm_compute; reflexivity).
  match goal with
  | |- context [Eval.parseLevel ?f ?l ?ts] =>
    replace (Eval.parseLevel f l ts)
      with (Some (Eval.EBin Eval.And
               (Eval.EBin Eval.Eq (Eval.EBin Eval.Rem (Eval.ENum count) (Eval.ENum 10))
                          (Eval.ENum 1))
               (Eval.EBin Eval.Ne (Eval.EBin Eval.Rem (Eval.EIdent (js "n")) (Eval.ENum 100))
                          (Eval.ENum 11)),
                  @nil Eval.token))
      by (vm_compute; reflexivity)
  end.
  rewrite evaluate_And, evaluate_Rem_Eq_num.
  rewrite (proj2 (evaluate_n_unbound count 11)).
  rewrite Z.rem_mod_nonneg by lia.
  destruct (count mod 10 =? 1); reflexivity.
Qed.

(** The value stored under [one] in the rules of each profile. *)
Lemma CULTURAL_CONFIGS_rule_one (language : SupportedLanguage) (context : CulturalContext.t) :
  CULTURAL_CONFIGS language = Some context →
  ∃ rules, CulturalContext.pluralizationRules context = Some rules
    ∧ rules !! "one"%string
      = match language with
        | EN => Some (RuleNumber 1)
        | RU => Some (RuleString (js "n % 10 == 1 && n % 100 != 11"))
        | FR | PT => Some (RuleString (js "n == 0 || n == 1"))
        | DE | ES | TR => Some (RuleString (js "n == 1"))
        | _ => None
        end.
Proof.
  intros Hc. destruct language; vm_compute in Hc; try discriminate Hc;
    injection Hc as <-; eexists; (split; [reflexivity | vm_compute; reflexivity]).
Qed.

(** X16: what [applyPluralization] does with the stored profile of each
    language, for every count from 0 on.  Only DE, ES and TR choose by
    [count = 1]; JA, ZH_CN, ZH_TW and KO always give the plural; FR and PT
    give the singular at 0 and raise from 1 on; RU never gives the
    singular and raises where the count ends in 1; EN always raises. *)
Theorem applyPluralization_by_language
    (language : SupportedLanguage) (context : CulturalContext.t)
    (count : Z) (singular plural : jsstring) :
  CULTURAL_CONFIGS language = Some context →
  0 <= count →
  applyPluralization count singular plural context
  = match language with
    | EN => Throw TypeError
    | RU => if count mod 10 =? 1 then Throw ReferenceError else Normal plural
    | FR | PT => if count =? 0 then Normal singular else Throw ReferenceError
    | DE | ES | TR => Normal (if count =? 1 then singular else plural)
    | _ => Normal plural
    end.
Proof.
  intros Hc Hcount.
  destruct (CULTURAL_CONFIGS_rule_one language context Hc) as (rules & Hr & Hone).
  unfold applyPluralization. rewrite Hr, Hone. clear Hc Hr Hone.
  pose proof (eval_rule_DE count Hcount) as HDE.
  pose proof (eval_rule_FR count Hcount) as HFR.
  pose proof (eval_rule_RU count Hcount) as HRU.
  destruct language; cbv beta iota; try reflexivity.
  - change (truthy (js "n % 10 == 1 && n % 100 != 11")) with true. cbv iota.
    rewrite HRU. destruct (count mod 10 =? 1); reflexivity.
  - change (truthy (js "n == 1")) with true. cbv iota. rewrite HDE. reflexivity.
  - change (truthy (js "n == 0 || n == 1")) with true. cbv iota.
    rewrite HFR. destruct (count =? 0); reflexivity.
  - change (truthy (js "n == 1")) with true. cbv iota. rewrite HDE. reflexivity.
  - change (truthy (js "n == 0 || n == 1")) with true. cbv iota.
    rewrite HFR. destruct (count =? 0); reflexivity.
  - change (truthy (js "n == 1")) with true. cbv iota. rewrite HDE. reflexivity.
Qed.

Lemma applyPluralization_by_language_witness :
  ∃ context, CULTURAL_CONFIGS RU = Some context
    ∧ applyPluralization 21 (js "файл") (js "файлов") context = Throw ReferenceError.
Proof.
  eexists. split; [reflexivity|].
  apply (applyPluralization_by_language RU _ 21); [reflexivity | lia].
Defined.

(** * Further properties: cache statistics *)

Section AdditiveFold.

Context {K : Type} `{Countable K} {A : Type}.
Variable f : K → A → nat → nat.
Variable w : A → nat.
Hypothesis f_add : ∀ k x acc, f k x acc = (acc + w x)%nat.

Lemma fold_add_insert (m : gmap K A) (k : K) (v : A) :
  (map_fold f 0 (<[k:=v]> m) + default 0 (w <$> m !! k)
   = map_fold f 0 m + w v)%nat.
Proof.
  assert (Hins : ∀ x, map_fold f 0%nat (<[k:=x]> (delete k m))
                      = f k x (map_fold f 0%nat (delete k m))).
  { intros x. apply map_fold_insert_L; [|apply lookup_delete_eq].
    intros j1 j2 z1 z2 y _ _ _. rewrite !f_add. lia. }
  rewrite <- (insert_delete_eq m k v), Hins, f_add.
  destruct (m !! k) as [x|] eqn:Hk; cbn.
  - rewrite <- (insert_delete_id m k x Hk) at 2. rewrite Hins, f_add. lia.
  - rewrite (delete_id m k Hk). lia.
Qed.

End AdditiveFold.

Lemma totalSize_inner (langMap : gmap SupportedLanguage jsstring) (acc : nat) :
  map_fold (fun (_ : SupportedLanguage) (translation : jsstring) totalSize =>
              (totalSize + length translation * 2)%nat) acc langMap
  = (acc + map_fold (fun (_ : SupportedLanguage) (translation : jsstring) totalSize =>
                       (totalSize + length translation * 2)%nat) 0 langMap)%nat.
Proof.
  rewrite <- (map_fold_comm_acc _ (fun y => (acc + y)%nat)) by (intros; lia).
  f_equal. lia.
Qed.

(** X17: the statistics after [translate].  [translationEntries] counts
    texts, not translations: it grows only when the text had no entry; the
    size grows by two bytes for each code unit of a translation that was
    made, and the detection cache is not touched. *)
Theorem getCacheStats_after_translate
    (text : jsstring) (context : TranslationContext.t) (this : LanguageManager.t) :
  let before := ManagerStats.getCacheStats this in
  let after := ManagerStats.getCacheStats (snd (LanguageManager.translate text context this)) in
  CacheStats.translationEntries after
  = (CacheStats.translationEntries before
     + match translationCache this !! text with Some _ => 0 | None => 1 end)%nat
  ∧ CacheStats.detectionEntries after = CacheStats.detectionEntries before
  ∧ CacheStats.totalSize after
    = (CacheStats.totalSize before
       + match translationCache this !! text
               ≫= (fun langMap => langMap !! TranslationContext.targetLanguage context) with
         | Some (_ :: _) => 0
         | _ => length (performTranslation text context) * 2
         end)%nat.
Proof.
  cbv zeta. unfold LanguageManager.translate, ManagerStats.getCacheStats.
  set (target := TranslationContext.targetLanguage context).
  set (inner := fun (_ : SupportedLanguage) (translation : jsstring) totalSize =>
                  (totalSize + length translation * 2)%nat).
  set (outer := fun (_ : jsstring) (langMap : gmap SupportedLanguage jsstring) totalSize =>
                  map_fold inner totalSize langMap).
  pose proof (fold_add_insert outer (fun langMap => map_fold inner 0%nat langMap)
                (fun k x acc => totalSize_inner x acc)) as Houter.
  pose proof (fold_add_insert inner (fun translation => (length translation * 2)%nat)
                (fun k x acc => eq_refl)) as Hinner.
  destruct (translationCache this !! text) as [langMap|] eqn:Htext; cbn [mbind option_bind].
  - destruct (langMap !! target) as [[|c cached]|] eqn:Htarget; cbn [truthy snd CacheStats.translationEntries CacheStats.detectionEntries CacheStats.totalSize translationCache detectionCache default].
    + rewrite map_size_insert, Htext. cbn [id]. split; [lia|split; [reflexivity|]].
      specialize (Houter (translationCache this) text (<[target:=performTranslation text context]> langMap)).
      specialize (Hinner langMap target (performTranslation text context)).
      rewrite Htext in Houter. rewrite Htarget in Hinner. cbv beta in Houter, Hinner.
      cbn [fmap option_fmap option_map default length Nat.mul] in Houter, Hinner.
      unfold id in Houter, Hinner. lia.
    + split; [lia|split; [reflexivity|lia]].
    + rewrite map_size_insert, Htext. cbn [id]. split; [lia|split; [reflexivity|]].
      specialize (Houter (translationCache this) text (<[target:=performTranslation text context]> langMap)).
      specialize (Hinner langMap target (performTranslation text context)).
      rewrite Htext in Houter. rewrite Htarget in Hinner. cbv beta in Houter, Hinner.
      cbn [fmap option_fmap option_map default length Nat.mul] in Houter, Hinner.
      unfold id in Houter, Hinner. lia.
  - cbn [snd CacheStats.translationEntries CacheStats.detectionEntries CacheStats.totalSize translationCache detectionCache default].
    rewrite map_size_insert, Htext. split; [lia|split; [reflexivity|]].
    specialize (Houter (translationCache this) text (<[target:=performTranslation text context]> ∅)).
    specialize (Hinner ∅ target (performTranslation text context)).
    rewrite Htext in Houter. rewrite lookup_empty, map_fold_empty in Hinner.
    cbv beta in Houter, Hinner.
      cbn [fmap option_fmap option_map default length Nat.mul] in Houter, Hinner.
      unfold id in Houter, Hinner. lia.
Qed.

(** X18: [detectLanguage] always returns; it adds one detection entry when
    the text was not cached and none otherwise, and leaves the
    translation statistics alone. *)
Theorem getCacheStats_after_detectLanguage (text : jsstring) (this : LanguageManager.t) :
  ∃ r this', detectLanguage text this = Normal (r, this')
    ∧ ManagerStats.getCacheStats this'
      = {| CacheStats.translationEntries :=
             CacheStats.translationEntries (ManagerStats.getCacheStats this);
           CacheStats.detectionEntries :=
             (CacheStats.detectionEntries (ManagerStats.getCacheStats this)
              + match detectionCache this !! text with Some _ => 0 | None => 1 end)%nat;
           CacheStats.totalSize := CacheStats.totalSize (ManagerStats.getCacheStats this) |}.
Proof.
  destruct (detectionCache this !! text) as [cached|] eqn:Hlook.
  - exists cached, this. unfold detectLanguage. rewrite Hlook. split; [reflexivity|].
    unfold ManagerStats.getCacheStats. cbn. f_equal. lia.
  - destruct (detectLanguage_miss text this Hlook) as (r & _ & Heq).
    eexists _, _. split; [exact Heq|].
    unfold ManagerStats.getCacheStats. cbn [translationCache detectionCache].
    rewrite map_size_insert, Hlook. cbn. f_equal. lia.
Qed.

(** After [clearCache] every statistic is zero. *)
Example getCacheStats_after_clearCache (this : LanguageManager.t) :
  ManagerStats.getCacheStats (clearCache this)
  = {| CacheStats.translationEntries := 0; CacheStats.detectionEntries := 0;
       CacheStats.totalSize := 0 |}.
Proof. reflexivity. Qed.

(** * Further properties: dates, advice and sensitive topics *)

Lemma startsWith_split (p s : jsstring) :
  startsWith s p = true → p ++ drop (length p) s = s.
Proof.
  revert s. induction p as [|a p IH]; intros s H; [reflexivity|].
  destruct s as [|b s]; [discriminate|]. cbn in H.
  apply andb_true_iff in H. destruct H as [Hab Hrest].
  apply Z.eqb_eq in Hab. subst b. cbn. f_equal. apply IH. exact Hrest.
Qed.

(** Replacing a text by itself changes nothing. *)
Lemma replace_same (s p : jsstring) : Eval.replace s p p = s.
Proof.
  induction s as [|c s IH].
  - destruct p; reflexivity.
  - cbn [Eval.replace]. destruct (startsWith (c :: s) p) eqn:Hs.
    + apply startsWith_split. exact Hs.
    + f_equal. exact IH.
Qed.

(** The search passes over code units that differ from the first one of
    the pattern. *)
Lemma replace_skip (ds rest p' r : jsstring) (hd : Z) :
  Forall (fun c => c ≠ hd) ds →
  Eval.replace (ds ++ rest) (hd :: p') r = ds ++ Eval.replace rest (hd :: p') r.
Proof.
  induction 1 as [|c ds Hc _ IH]; [reflexivity|].
  cbn [app]. destruct ds as [|c' ds']; cbn [Eval.replace startsWith app] in *;
    (replace (hd =? c) with false by (symmetry; apply Z.eqb_neq; congruence));
    cbn [andb]; f_equal; exact IH.
Qed.

Lemma digits_chars (fuel : nat) :
  ∀ (n : Z) (acc : jsstring),
  Forall (fun c => 45 <= c <= 57) acc →
  Forall (fun c => 45 <= c <= 57) (Eval.digits fuel n acc).
Proof.
  induction fuel as [|fuel IH]; intros n acc Hacc; [exact Hacc|].
  rewrite digits_S.
  assert (Hd : Forall (fun c => 45 <= c <= 57) ((48 + n mod 10) :: acc)).
  { constructor; [|exact Hacc]. pose proof (Z.mod_pos_bound n 10 ltac:(lia)). lia. }
  destruct (n <? 10); [exact Hd | apply IH; exact Hd].
Qed.

(** The text of a date field holds digits, a sign, or the letters of NaN. *)
Lemma String_of_field_chars (x : option Z) :
  Forall (fun c => c ≠ 0x4D ∧ c ≠ 0x44) (CulturalAdvice.String_of_field x).
Proof.
  destruct x as [n|]; [|vm_compute; repeat constructor; lia].
  apply (Forall_impl (fun c => 45 <= c <= 57)); [|intros c; cbv beta; lia].
  unfold CulturalAdvice.String_of_field, Eval.String_of.
  destruct (n <? 0); [constructor; [lia|]|]; apply digits_chars; constructor.
Qed.

Lemma padStart2_chars (s : jsstring) :
  Forall (fun c => c ≠ 0x4D ∧ c ≠ 0x44) s →
  Forall (fun c => c ≠ 0x4D ∧ c ≠ 0x44) (CulturalAdvice.padStart2 s).
Proof.
  intros Hs. unfold CulturalAdvice.padStart2. apply Forall_app. split; [|exact Hs].
  apply Forall_replicate. lia.
Qed.

Ltac literal_units :=
  repeat match goal with
         | |- context [js ?s] =>
           let t := eval vm_compute in (js s) in change (js s) with t
         end.

(** The three substitutions on each format of the table. *)
Lemma formatDate_steps (y m d : jsstring) :
  Forall (fun c => c ≠ 0x4D ∧ c ≠ 0x44) y →
  Forall (fun c => c ≠ 0x4D ∧ c ≠ 0x44) m →
  Forall (fun c => c ≠ 0x4D ∧ c ≠ 0x44) d →
  let steps := fun dateFormat =>
    Eval.replace (Eval.replace (Eval.replace dateFormat (js "YYYY") y) (js "MM") m)
                 (js "DD") d in
  steps (js "MM/DD/YYYY") = m ++ js "/" ++ d ++ js "/" ++ y
  ∧ steps (js "DD.MM.YYYY") = d ++ js "." ++ m ++ js "." ++ y
  ∧ steps (js "DD/MM/YYYY") = d ++ js "/" ++ m ++ js "/" ++ y
  ∧ steps (js "YYYY年MM月DD日") = y ++ js "年" ++ m ++ js "月" ++ d ++ js "日"
  ∧ steps (js "YYYY년 MM월 DD일") = y ++ js "년 " ++ m ++ js "월 " ++ d ++ js "일".
Proof.
  intros Hy Hm Hd steps. subst steps. cbv beta.
  assert (HyM : Forall (fun c => c ≠ 0x4D) y)
    by (eapply Forall_impl; [exact Hy | intros ? [? ?]; assumption]).
  assert (HyD : Forall (fun c => c ≠ 0x44) y)
    by (eapply Forall_impl; [exact Hy | intros ? [? ?]; assumption]).
  assert (HmD : Forall (fun c => c ≠ 0x44) m)
    by (eapply Forall_impl; [exact Hm | intros ? [? ?]; assumption]).
  literal_units.
  repeat split;
    repeat first
      [ rewrite (replace_skip y _ _ _ _ HyM)
      | rewrite (replace_skip y _ _ _ _ HyD)
      | rewrite (replace_skip m _ _ _ _ HmD)
      | progress cbn [Eval.replace startsWith app drop length andb Z.eqb Pos.eqb] ];
    rewrite ?app_nil_r; reflexivity.
Qed.

Lemma CULTURAL_CONFIGS_dateFormat (language : SupportedLanguage) (context : CulturalContext.t) :
  CULTURAL_CONFIGS language = Some context →
  CulturalContext.dateFormat context
  = Some (js match language with
             | EN => "MM/DD/YYYY"
             | RU | DE | TR => "DD.MM.YYYY"
             | FR | ES | PT => "DD/MM/YYYY"
             | KO => "YYYY년 MM월 DD일"
             | _ => "YYYY年MM月DD日"
             end).
Proof.
  intros Hc. destruct language; vm_compute in Hc; try discriminate Hc;
    injection Hc as <-; vm_compute; reflexivity.
Qed.

(** X19: [formatDate] with the stored profile of a language puts the
    year, the month and the day, the last two padded to two digits, in
    the order and between the separators of the profile's format; the six
    replacements of a sign by itself change nothing.  An invalid date
    prints NaN in the three places. *)
Theorem formatDate_by_language
    (language : SupportedLanguage) (context : CulturalContext.t) (date : CalendarDate) :
  CULTURAL_CONFIGS language = Some context →
  let y := CulturalAdvice.String_of_field
             match date with ValidDate y _ _ => Some y | InvalidCalendarDate => None end in
  let m := CulturalAdvice.padStart2
             (CulturalAdvice.String_of_field
                match date with ValidDate _ m _ => Some (m + 1) | InvalidCalendarDate => None end) in
  let d := CulturalAdvice.padStart2
             (CulturalAdvice.String_of_field
                match date with ValidDate _ _ d => Some d | InvalidCalendarDate => None end) in
  CulturalAdvice.formatDate date context
  = Normal match language with
           | EN => m ++ js "/" ++ d ++ js "/" ++ y
           | RU | DE | TR => d ++ js "." ++ m ++ js "." ++ y
           | FR | ES | PT => d ++ js "/" ++ m ++ js "/" ++ y
           | KO => y ++ js "년 " ++ m ++ js "월 " ++ d ++ js "일"
           | _ => y ++ js "年" ++ m ++ js "月" ++ d ++ js "日"
           end.
Proof.
  intros Hc y m d.
  pose proof (CULTURAL_CONFIGS_dateFormat language context Hc) as Hf.
  unfold CulturalAdvice.formatDate. rewrite Hf. fold y m d. rewrite !replace_same.
  destruct (formatDate_steps y m d) as (HEN & Hdot & Hslash & Hcjk & HKO).
  { apply String_of_field_chars. }
  { apply padStart2_chars, String_of_field_chars. }
  { apply padStart2_chars, String_of_field_chars. }
  cbv beta in HEN, Hdot, Hslash, Hcjk, HKO.
  destruct language; try discriminate Hc; f_equal; assumption.
Qed.

Lemma formatDate_by_language_witness :
  ∃ context, CULTURAL_CONFIGS RU = Some context
    ∧ CulturalAdvice.formatDate (ValidDate 2024 2 5) context = Normal (js "05.03.2024").
Proof.
  eexists. split; [reflexivity|].
  rewrite (formatDate_by_language RU _ (ValidDate 2024 2 5) eq_refl).
  vm_compute. reflexivity.
Defined.

(** X20: the profile that [analyze] returns for TH, IT or HI has no date
    format, and [formatDate] raises a [TypeError] on it. *)
Theorem formatDate_unconfigured_language_raises
    (language : SupportedLanguage) (text : jsstring) (options : option Options.t)
    (store : Store) (date : CalendarDate) :
  language ∈ [TH; IT; HI] →
  CulturalAdvice.formatDate date (fst (analyze language text options store))
  = Throw TypeError.
Proof.
  intros Hin.
  pose proof (analyze_formats language text options store) as Hformats.
  cbv zeta in Hformats. destruct Hformats as [Hdate _].
  unfold CulturalAdvice.formatDate. rewrite Hdate.
  apply list_elem_of_In in Hin. cbn in Hin.
  destruct Hin as [<-|[<-|[<-|[]]]]; reflexivity.
Qed.

Lemma formatDate_unconfigured_language_witness :
  CulturalAdvice.formatDate (ValidDate 2024 0 1)
    (fst (analyze TH (js "สวัสดี") None initialStore))
  = Throw TypeError.
Proof.
  apply formatDate_unconfigured_language_raises. apply list_elem_of_In. cbn. tauto.
Defined.

(** X21: the recommendations come in pairs, at most three pairs although
    five tests add one: the tests on the communication style exclude each
    other, and so do the tests on the decision making.  The list is empty
    exactly for a profile that is not very formal and whose etiquette, if
    any, is direct and individual. *)
Theorem getCommunicationRecommendations_shape (context : CulturalContext.t) (store : Store) :
  let recommendations := CulturalAdvice.getCommunicationRecommendations context store in
  (∃ k, length recommendations = (2 * k)%nat ∧ (k ≤ 3)%nat)
  ∧ (recommendations = [] ↔
     CulturalContext.formalityLevel context ≠ Some very_formal
     ∧ ∀ etiquette,
         CulturalContext.businessEtiquette context ≫= (fun r => store !! r) = Some etiquette →
         BusinessEtiquette.communicationStyle etiquette = direct
         ∧ BusinessEtiquette.decisionMaking etiquette = individual).
Proof.
  cbv zeta. unfold CulturalAdvice.getCommunicationRecommendations.
  destruct (CulturalContext.businessEtiquette context ≫= (fun r => store !! r))
    as [[greeting style decision]|];
    destruct (CulturalContext.formalityLevel context) as [[| | |]|];
    try destruct style; try destruct decision; cbn;
    (split;
     [ first [ exists 0%nat; split; [reflexivity|lia] | exists 1%nat; split; [reflexivity|lia]
             | exists 2%nat; split; [reflexivity|lia] | exists 3%nat; split; [reflexivity|lia] ]
     | split;
       [ intros Hnil;
         first [ discriminate Hnil
               | split;
                 [ discriminate
                 | intros e He;
                   first [ discriminate He | injection He as <-; split; reflexivity ] ] ]
       | intros [Hlevel Hetiquette];
         first [ reflexivity
               | exfalso; apply Hlevel; reflexivity
               | destruct (Hetiquette _ eq_refl) as [Hs Hd]; cbn in Hs, Hd; discriminate ] ] ]).
Qed.

Lemma countMarkers_pos_inv (lowerText : jsstring) (markers : list string) :
  (0 < countMarkers lowerText markers)%nat →
  ∃ marker, In marker markers ∧ includes lowerText (js marker) = true.
Proof.
  unfold countMarkers.
  assert (Hgen : ∀ k, (k < fold_left (fun count marker =>
                                if includes lowerText (js marker) then S count else count)
                             markers k)%nat →
                 ∃ marker, In marker markers ∧ includes lowerText (js marker) = true).
  { induction markers as [|m rest IH]; intros k Hk; cbn in Hk; [lia|].
    destruct (includes lowerText (js m)) eqn:Hm.
    - exists m. split; [left; reflexivity | exact Hm].
    - destruct (IH k Hk) as (marker & Hin & Hinc).
      exists marker. split; [right; exact Hin | exact Hinc]. }
  apply Hgen.
Qed.

(** The warnings about topics are not the warning about informal words. *)
Lemma topic_warnings_not_informal (lowerText : jsstring) :
  ¬ In "Informal language detected in formal context"%string
      (fold_left (fun warnings entry =>
                    let '(topic, keywords) := entry in
                    if JS.some (fun keyword => includes lowerText (js keyword)) keywords
                    then warnings ++ [String.append "Contains potentially sensitive topic: " topic]
                    else warnings)
                 CulturalAdvice.sensitiveTopics []).
Proof.
  unfold CulturalAdvice.sensitiveTopics. cbn [fold_left].
  repeat match goal with
         | |- context [JS.some ?p ?l] => destruct (JS.some p l)
         end;
    cbn; intros H; repeat (destruct H as [H|H]; [discriminate H|]); exact H.
Qed.

(** X22: for EN, RU, JA and KO the warning about informal words in a
    formal context needs more than informal words.  On the profile that
    [analyze] returns for the same text it appears only when the text
    also holds a formal or very formal marker of the language. *)
Theorem informal_warning_needs_a_formal_marker
    (language : SupportedLanguage) (text : jsstring) (options : option Options.t)
    (store : Store) (markers : Markers.t) :
  formalityMarkers language = Some markers →
  In "Informal language detected in formal context"%string
     (Sensitivity.warnings
        (CulturalAdvice.checkCulturalSensitivity text
           (fst (analyze language text options store)))) →
  ∃ marker, In marker (Markers.formal markers ++ Markers.veryFormal markers)
    ∧ includes (toLowerCase text) (js marker) = true.
Proof.
  intros Hm Hin.
  assert (Hlevel : CulturalContext.formalityLevel (fst (analyze language text options store))
                   = detectFormalityLevel text language).
  { rewrite analyze_formality_level. destruct language; try discriminate Hm; reflexivity. }
  unfold CulturalAdvice.checkCulturalSensitivity in Hin. cbn [Sensitivity.warnings] in Hin.
  rewrite Hlevel in Hin.
  pose proof (topic_warnings_not_informal (toLowerCase text)) as Htopics.
  unfold detectFormalityLevel in Hin. rewrite Hm in Hin.
  destruct (0 <? countMarkers (toLowerCase text) (Markers.veryFormal markers))%nat eqn:Hvery.
  - apply Nat.ltb_lt, countMarkers_pos_inv in Hvery. destruct Hvery as (marker & Hmark & Hinc).
    exists marker. split; [apply in_or_app; right; exact Hmark | exact Hinc].
  - destruct (countMarkers (toLowerCase text) (Markers.informal markers)
              <? countMarkers (toLowerCase text) (Markers.formal markers))%nat eqn:Hformal.
    + apply Nat.ltb_lt in Hformal.
      destruct (countMarkers_pos_inv (toLowerCase text) (Markers.formal markers))
        as (marker & Hmark & Hinc); [lia|].
      exists marker. split; [apply in_or_app; left; exact Hmark | exact Hinc].
    + exfalso. apply Htopics.
      destruct (countMarkers (toLowerCase text) (Markers.formal markers)
                <? countMarkers (toLowerCase text) (Markers.informal markers))%nat;
        exact Hin.
Qed.

Lemma informal_warning_needs_a_formal_marker_witness :
  ∃ marker, In marker ["please"; "kindly"; "would you"; "could you"; "sir"; "madam";
                       "respectfully"; "esteemed"; "distinguished"; "honorable"]
    ∧ includes (toLowerCase (js "Yeah, please kindly do")) (js marker) = true.
Proof.
  apply (informal_warning_needs_a_formal_marker EN (js "Yeah, please kindly do") None
           initialStore _ eq_refl).
  vm_compute. tauto.
Defined.

(** * Further properties of the polyglot agent *)

Lemma SupportedLanguage_values_complete (language : SupportedLanguage) :
  In language SupportedLanguage_values.
Proof. destruct language; cbn; tauto. Qed.

(** X23: the translation pairs are exactly the ordered pairs of two
    different languages, each one once. *)
Theorem generateTranslationPairs_spec :
  (∀ source target,
     In (source, target) PolyglotPipeline.generateTranslationPairs ↔ source ≠ target)
  ∧ List.NoDup PolyglotPipeline.generateTranslationPairs
  ∧ length PolyglotPipeline.generateTranslationPairs = 182%nat.
Proof.
  split; [|split].
  - intros source target. unfold PolyglotPipeline.generateTranslationPairs. cbv zeta.
    rewrite in_flat_map. split.
    + intros (s & _ & Hin). apply in_flat_map in Hin. destruct Hin as (t & _ & Hin).
      destruct (bool_decide (s ≠ t)) eqn:Hd; [|destruct Hin].
      apply bool_decide_eq_true in Hd.
      destruct Hin as [Heq|[]]. injection Heq as <- <-. exact Hd.
    + intros Hne. exists source. split; [apply SupportedLanguage_values_complete|].
      apply in_flat_map. exists target. split; [apply SupportedLanguage_values_complete|].
      rewrite bool_decide_eq_true_2 by exact Hne. left. reflexivity.
  - apply NoDup_ListNoDup. compute_done.
  - vm_compute. reflexivity.
Qed.

Lemma splitLoop_pieces (s : jsstring) :
  ∀ (inSeparator : bool) (current word : jsstring),
  (inSeparator = true → current = []) →
  In word (JSSplit.splitLoop inSeparator current s) →
  (Forall (fun c => isWhiteSpace c = false) current →
   Forall (fun c => isWhiteSpace c = false) word)
  ∧ ∃ pre post, current ++ s = pre ++ word ++ post.
Proof.
  induction s as [|c s IH]; intros inSeparator current word Hsep Hin.
  - destruct Hin as [<-|[]]. split; [tauto|]. exists [], []. rewrite !app_nil_r. reflexivity.
  - cbn [JSSplit.splitLoop] in Hin. destruct (isWhiteSpace c) eqn:Hc.
    + destruct inSeparator.
      * rewrite (Hsep eq_refl) in *. destruct (IH true [] word (fun _ => eq_refl) Hin)
          as [Hclean (pre & post & Heq)].
        split; [intros _; apply Hclean; constructor|].
        exists (c :: pre), post. cbn in *. rewrite Heq. reflexivity.
      * destruct Hin as [<-|Hin].
        -- split; [tauto|]. exists [], (c :: s). reflexivity.
        -- destruct (IH true [] word (fun _ => eq_refl) Hin) as [Hclean (pre & post & Heq)].
           split; [intros _; apply Hclean; constructor|].
           exists (current ++ c :: pre), post. cbn in Heq. rewrite Heq.
           rewrite <- !app_assoc. reflexivity.
    + destruct (IH false (current ++ [c]) word ltac:(discriminate) Hin)
        as [Hclean (pre & post & Heq)].
      split.
      * intros Hcur. apply Hclean. apply Forall_app. split; [exact Hcur|].
        constructor; [exact Hc | constructor].
      * exists pre, post. rewrite <- Heq, <- app_assoc. reflexivity.
Qed.

(** X24: [extractTags] gives at most five tags; each one is longer than
    four code units, holds no white space, and is a piece of the
    lower-cased input. *)
Theorem extractTags_spec (input tag : jsstring) :
  In tag (PolyglotPipeline.extractTags input) →
  (length (PolyglotPipeline.extractTags input) ≤ 5)%nat
  ∧ (4 < length tag)%nat
  ∧ Forall (fun c => isWhiteSpace c = false) tag
  ∧ ∃ pre post, toLowerCase input = pre ++ tag ++ post.
Proof.
  unfold PolyglotPipeline.extractTags. cbv zeta. intros Hin.
  split; [rewrite length_take; lia|].
  apply list_elem_of_In, elem_of_take in Hin. destruct Hin as (i & Hi & _).
  apply list_elem_of_lookup_2, list_elem_of_In, filter_In in Hi. destruct Hi as [Hword Hlen].
  apply Nat.ltb_lt in Hlen. split; [exact Hlen|].
  destruct (splitLoop_pieces (toLowerCase input) false [] tag ltac:(discriminate) Hword)
    as [Hclean Hpiece].
  split; [apply Hclean; constructor | exact Hpiece].
Qed.

Lemma extractTags_spec_witness :
  (length (PolyglotPipeline.extractTags (js "Create a NEW Project")) ≤ 5)%nat
  ∧ (4 < length (js "create"))%nat
  ∧ Forall (fun c => isWhiteSpace c = false) (js "create")
  ∧ ∃ pre post, toLowerCase (js "Create a NEW Project") = pre ++ js "create" ++ post.
Proof.
  apply (extractTags_spec (js "Create a NEW Project") (js "create")).
  vm_compute. tauto.
Defined.

(** Short words and the empty pieces at the ends are dropped. *)
Example extractTags_example :
  PolyglotPipeline.extractTags (js " Please  build the Docker image quickly ")
  = [js "please"; js "build"; js "docker"; js "image"; js "quickly"].
Proof. vm_compute. reflexivity. Qed.

Lemma extractIntent_confidence (text : jsstring) (language : SupportedLanguage) :
  IntentResult.confidence (extractIntent text language) = (8 # 10)%Q
  ∨ IntentResult.confidence (extractIntent text language) = (5 # 10)%Q.
Proof.
  destruct (Intent.patternMatched text language) eqn:Hm.
  - left. apply (extractIntent_pattern_path text language Hm).
  - right. rewrite (extractIntent_keyword_path text language Hm). reflexivity.
Qed.

Lemma sliceFrom_last {A} (l : list A) (x : A) : JSSplit.sliceFrom (-1) (l ++ [x]) = [x].
Proof.
  unfold JSSplit.sliceFrom. change (-1 <? 0) with true. cbv iota zeta.
  rewrite length_app. change (length [x]) with 1%nat.
  replace (Z.to_nat (Z.max _ 0)) with (length l) by lia.
  apply drop_app_length.
Qed.

Section PipelineProperties.

Variable Base : Type.
Variable execute : TaskRequest.t → Base → completion (jsstring * Base).
Variable addMemory : jsstring → jsstring → Base → completion Base.

#[local] Abbreviation state := (PolyglotPipeline.state Base).
#[local] Abbreviation memoriesOf :=
  (fun (language : SupportedLanguage) (this : state) =>
     default [] (PolyglotPipeline.memoryByLanguage Base this !! language)).


(** The entry that [storePolyglotMemory] pushes. *)
Lemma storePolyglotMemory_entry
    (input response : jsstring) (language : SupportedLanguage)
    (culturalContext : option CulturalContext.t) (entropy : Entropy.t)
    (this this' : state) :
  PolyglotPipeline.storePolyglotMemory Base addMemory input response language
    culturalContext entropy this = Normal this' →
  ∃ entry,
    PolyglotPipeline.getMemoriesInLanguage Base language (Some 1) this' = [entry]
    ∧ memoriesOf language this' = memoriesOf language this ++ [entry]
    ∧ PolyglotMemoryEntry.originalContent entry = input
    ∧ PolyglotMemoryEntry.translations entry !! language = Some response
    ∧ PolyglotMemoryEntry.tags entry = PolyglotPipeline.extractTags input
    ∧ ∀ language', language' ≠ language →
        memoriesOf language' this' = memoriesOf language' this.
Proof.
  unfold PolyglotPipeline.storePolyglotMemory. cbv zeta.
  destruct (addMemory _ _ _) as [base'|e]; [|discriminate].
  cbn [mbind completion_bind]. intros Heq. injection Heq as <-.
  eexists. split; [|split; [|split; [|split; [|split]]]].
  - unfold PolyglotPipeline.getMemoriesInLanguage.
    cbn [PolyglotPipeline.memoryByLanguage]. cbv zeta.
    rewrite lookup_insert_eq. change (default 10 (Some 1)) with 1.
    change (default [] (Some ?l)) with l. apply sliceFrom_last.
  - cbn [PolyglotPipeline.memoryByLanguage]. rewrite lookup_insert_eq. reflexivity.
  - reflexivity.
  - cbn [PolyglotMemoryEntry.translations]. apply lookup_insert_eq.
  - reflexivity.
  - intros language' Hne. cbn [PolyglotPipeline.memoryByLanguage].
    rewrite lookup_insert_ne by congruence. reflexivity.
Qed.

(** X26: what [storePolyglotMemory] leaves behind.  The newest entry of
    the language is the one just stored: it holds the input, the response
    under the language, and the tags of the input; the older entries of
    the language come before it, and the lists of the other languages are
    as they were. *)
Theorem storePolyglotMemory_then_get
    (input response : jsstring) (language : SupportedLanguage)
    (culturalContext : option CulturalContext.t) (entropy : Entropy.t)
    (this this' : state) :
  PolyglotPipeline.storePolyglotMemory Base addMemory input response language
    culturalContext entropy this = Normal this' →
  ∃ entry,
    PolyglotPipeline.getMemoriesInLanguage Base language (Some 1) this' = [entry]
    ∧ memoriesOf language this' = memoriesOf language this ++ [entry]
    ∧ PolyglotMemoryEntry.originalContent entry = input
    ∧ PolyglotMemoryEntry.translations entry !! language = Some response
    ∧ PolyglotMemoryEntry.tags entry = PolyglotPipeline.extractTags input
    ∧ ∀ language', language' ≠ language →
        memoriesOf language' this' = memoriesOf language' this.
Proof. apply storePolyglotMemory_entry. Qed.

(** X27: what [processInNativeLanguage] returns.  The confidence is the
    one of the intent, 0.8 or 0.5, whatever the confidence of the
    detection was; the task that [execute] receives is the normalized
    input, and the response is what [execute] returned, unchanged by the
    formatting steps; a language given by the caller is the language of
    the result, and then the language manager is not used: its caches
    are as they were. *)
Theorem processInNativeLanguage_result
    (input : jsstring) (explicitLanguage : option SupportedLanguage)
    (entropy : Entropy.t) (this this' : state) (r : NativeResult.t) :
  PolyglotPipeline.processInNativeLanguage Base execute addMemory input explicitLanguage
    entropy this = Normal (r, this') →
  (NativeResult.confidence r = (8 # 10)%Q ∨ NativeResult.confidence r = (5 # 10)%Q)
  ∧ NativeResult.confidence r
    = IntentResult.confidence
        (extractIntent (normalize input (NativeResult.language r)) (NativeResult.language r))
  ∧ (∃ request base',
       execute request (PolyglotPipeline.base Base this)
         = Normal (NativeResult.response r, base')
       ∧ TaskRequest.task request = normalize input (NativeResult.language r)
       ∧ TaskRequest.language request = NativeResult.language r)
  ∧ (∀ language, explicitLanguage = Some language →
       NativeResult.language r = language
       ∧ PolyglotAgent.languageManager (PolyglotPipeline.agent Base this')
         = PolyglotAgent.languageManager (PolyglotPipeline.agent Base this))
  ∧ ∃ entry,
      memoriesOf (NativeResult.language r) this'
        = memoriesOf (NativeResult.language r) this ++ [entry]
      ∧ PolyglotMemoryEntry.originalContent entry = input.
Proof.
  unfold PolyglotPipeline.processInNativeLanguage.
  set (detected := match explicitLanguage with
                   | Some language => Normal (language, PolyglotPipeline.agent Base this)
                   | None => PolyglotAgent.detectLanguage input (PolyglotPipeline.agent Base this)
                   end).
  assert (Hexplicit : ∀ language, explicitLanguage = Some language →
            detected = Normal (language, PolyglotPipeline.agent Base this)).
  { intros language ->. reflexivity. }
  destruct detected as [[detectedLanguage agent']|e]; [|discriminate].
  cbn [mbind completion_bind].
  destruct (analyze detectedLanguage input None (PolyglotAgent.culturalStore agent'))
    as [culturalContext store] eqn:Hanalyze.
  unfold PolyglotPipeline.executeWithCulturalContext.
  destruct (PolyglotPipeline.adaptExecutionContext _ _ _) as [[[[formality style] df] nf] mc].
  cbn [PolyglotPipeline.base].
  match goal with
  | |- context [execute ?req (PolyglotPipeline.base Base this)] =>
    set (request := req); destruct (execute request (PolyglotPipeline.base Base this))
      as [[result base']|e] eqn:Hexecute; [|discriminate]
  end.
  cbn [mbind completion_bind].
  match goal with
  | |- context [PolyglotPipeline.storePolyglotMemory Base addMemory ?i ?resp ?l ?c ?en ?st] =>
    destruct (PolyglotPipeline.storePolyglotMemory Base addMemory i resp l c en st)
      as [stored|e] eqn:Hstore; [|discriminate]
  end.
  cbn [mbind completion_bind]. intros Heq. injection Heq as <- <-.
  cbn [NativeResult.confidence NativeResult.language NativeResult.response].
  assert (Hformat : ∀ result language context config,
            PolyglotPipeline.formatCulturalResponse result language context config = result).
  { intros res l c cfg. unfold PolyglotPipeline.formatCulturalResponse,
      PolyglotPipeline.applyFormalityRules, PolyglotPipeline.applyResponseTemplate,
      PolyglotPipeline.applyCulturalFormatting.
    destruct (CulturalContext.formalityLevel c) as [[| | |]|];
      destruct (cfg ≫= LanguageAgentConfig.responseTemplate) as [[|]|]; reflexivity. }
  rewrite Hformat in *.
  destruct (storePolyglotMemory_entry _ _ _ _ _ _ _ Hstore)
    as (entry & _ & Hmem & Hcontent & _).
  split; [apply extractIntent_confidence|]. split; [reflexivity|].
  split; [exists request, base'; split; [exact Hexecute | split; reflexivity]|].
  split.
  - intros language Hl. specialize (Hexplicit language Hl). injection Hexplicit as -> ->.
    split; [reflexivity|].
    unfold PolyglotPipeline.storePolyglotMemory in Hstore. cbv zeta in Hstore.
    cbn [PolyglotPipeline.agent PolyglotPipeline.base] in Hstore.
    destruct (addMemory _ _ _) as [b|e]; [|discriminate Hstore].
    cbn [mbind completion_bind] in Hstore. injection Hstore as <-. reflexivity.
  - exists entry. split; [exact Hmem | exact Hcontent].
Qed.

End PipelineProperties.



Lemma storePolyglotMemory_then_get_witness :
  ∃ this' entry,
    PolyglotPipeline.storePolyglotMemory unit noMemory (js "build the image") (js "done")
      EN None someEntropy freshPipeline = Normal this'
    ∧ PolyglotPipeline.getMemoriesInLanguage unit EN (Some 1) this' = [entry]
    ∧ PolyglotMemoryEntry.originalContent entry = js "build the image".
Proof.
  destruct (storePolyglotMemory_then_get unit noMemory (js "build the image") (js "done")
              EN None someEntropy freshPipeline _ eq_refl)
    as (entry & Hget & _ & Hcontent & _).
  eexists _, entry. split; [reflexivity|]. split; [exact Hget | exact Hcontent].
Defined.

Lemma processInNativeLanguage_result_witness :
  ∃ r this',
    PolyglotPipeline.processInNativeLanguage unit echoExecute noMemory
      (js "  Create a NEW Project ") (Some EN) someEntropy freshPipeline = Normal (r, this')
    ∧ NativeResult.language r = EN
    ∧ NativeResult.response r = js "create a new project"
    ∧ NativeResult.confidence r = (8 # 10)%Q.
Proof.
  destruct (PolyglotPipeline.processInNativeLanguage unit echoExecute noMemory
              (js "  Create a NEW Project ") (Some EN) someEntropy freshPipeline)
    as [[r this']|e] eqn:Hcall; [|vm_compute in Hcall; discriminate Hcall].
  exists r, this'. split; [reflexivity|].
  destruct (processInNativeLanguage_result unit echoExecute noMemory _ _ _ _ _ _ Hcall)
    as (_ & _ & _ & Hlanguage & _).
  split; [apply (Hlanguage EN eq_refl)|].
  vm_compute in Hcall. injection Hcall as <- _. split; reflexivity.
Defined.

(** * Further properties: intent patterns and word boundaries *)

Section NoWordCharacter.

Variable text : jsstring.
Hypothesis no_word : Forall (fun c => inRanges wordRanges c = false) text.

Lemma isWordChar_none (e : Z) : isWordChar text e = false.
Proof.
  unfold isWordChar. case_if; [reflexivity|].
  destruct (text !! Z.to_nat e) as [c|] eqn:Hc; [|reflexivity].
  rewrite Forall_forall in no_word. apply no_word.
  eapply list_elem_of_lookup_2. exact Hc.
Qed.

(** A pattern that starts with [\b] matches nowhere. *)
Lemma search_boundary_none (ignoreCase : bool) (r : regex) (fuel i : nat) :
  search text ignoreCase (RSeq RWordBoundary r) fuel i = None.
Proof.
  revert i. induction fuel as [|fuel IH]; intros i; [reflexivity|].
  cbn [search matcher endIndex]. rewrite !isWordChar_none. cbn [xorb]. apply IH.
Qed.

Lemma test_boundary_none (ignoreCase : bool) (r : regex) :
  test {| source := RSeq RWordBoundary r; flagI := ignoreCase; flagG := false |} text
  = false.
Proof. unfold test, exec. cbn [source flagI]. rewrite search_boundary_none. reflexivity. Qed.

Lemma patternMatched_none (language : SupportedLanguage) :
  Intent.patternMatched text language = false.
Proof.
  unfold Intent.patternMatched.
  assert (H : ∀ ps : list (jsstring * RegExp),
            Forall (fun e => ∃ r, snd e = {| source := RSeq RWordBoundary r;
                                             flagI := true; flagG := false |}) ps →
            existsb (fun e => test (snd e) text) ps = false).
  { induction 1 as [|e ps [r Hr] _ IH]; [reflexivity|].
    cbn [existsb]. rewrite Hr, test_boundary_none. exact IH. }
  apply H. destruct language; repeat constructor; eexists; reflexivity.
Qed.

End NoWordCharacter.

Lemma word_false_iff (c : Z) :
  inRanges wordRanges c = false
  ↔ ¬ (0x30 <= c <= 0x39 ∨ 0x41 <= c <= 0x5A ∨ c = 0x5F ∨ 0x61 <= c <= 0x7A).
Proof.
  unfold inRanges, wordRanges. cbn [existsb fst snd].
  rewrite !orb_false_iff, !andb_false_iff, !Z.leb_gt. lia.
Qed.

Lemma lowerUnit_of_no_word (c : Z) :
  inRanges wordRanges c = false →
  lowerUnit c = [0x69; 0x307] ∨ ∃ d, lowerUnit c = [d] ∧ inRanges wordRanges d = false.
Proof.
  intros Hc. apply word_false_iff in Hc. unfold lowerUnit.
  repeat case_if; decode_bools;
    first [ left; reflexivity
          | right; eexists; split; [reflexivity|]; apply word_false_iff; lia ].
Qed.

Lemma toLowerCase_sparse (text : jsstring) :
  Forall (fun c => inRanges wordRanges c = false) text → sparse (toLowerCase text).
Proof.
  induction 1 as [|c text Hc _ IH]; [exact I|].
  unfold toLowerCase in *. cbn [flat_map].
  destruct (lowerUnit_of_no_word c Hc) as [-> | (d & -> & Hd)]; cbn [app sparse].
  - split; [intros _; apply word_false_iff; lia|]. split; [|exact IH].
    intros H. exfalso. apply not_false_iff_true in H. apply H. apply word_false_iff. lia.
  - split; [|exact IH]. intros H. congruence.
Qed.

Lemma sparse_includes (s keyword : jsstring) (a b : Z) (p : jsstring) :
  sparse s → keyword = a :: b :: p →
  inRanges wordRanges a = true → inRanges wordRanges b = true →
  includes s keyword = false.
Proof.
  intros Hs -> Ha Hb. induction s as [|x s IH]; [reflexivity|].
  destruct Hs as [Hx Hs]. cbn [includes startsWith].
  rewrite (IH Hs), orb_false_r.
  destruct (a =? x) eqn:Hax; [|reflexivity]. apply Z.eqb_eq in Hax. subst x.
  specialize (Hx Ha). destruct s as [|y s']; [reflexivity|].
  cbn [startsWith]. destruct (b =? y) eqn:Hby; [|reflexivity].
  apply Z.eqb_eq in Hby. subst y. congruence.
Qed.

Lemma inferIntent_general (text : jsstring) (language : SupportedLanguage) :
  Forall (fun c => inRanges wordRanges c = false) text →
  inferIntent text language = js "general".
Proof.
  intros Hno. unfold inferIntent. cbv zeta.
  pose proof (toLowerCase_sparse text Hno) as Hs. revert Hs.
  generalize (toLowerCase text) as lowerText. intros lowerText Hs.
  assert (Hloop : ∀ entries : list (jsstring * list jsstring),
            Forall (fun e => Forall (fun keyword =>
                       ∃ a b p, keyword = a :: b :: p
                                ∧ inRanges wordRanges a = true
                                ∧ inRanges wordRanges b = true) (snd e)) entries →
            inferLoop lowerText entries = js "general").
  { induction 1 as [|[intent keywords] entries Hk _ IH]; [reflexivity|].
    cbn [inferLoop]. cbn [snd] in Hk.
    replace (JS.some (fun keyword => includes lowerText keyword) keywords) with false;
      [exact IH|].
    symmetry. unfold JS.some. induction Hk as [|kw kws (a & b & p & Hkw & Ha & Hb) _ IHk];
      [reflexivity|].
    cbn [existsb]. rewrite (sparse_includes lowerText kw a b p Hs Hkw Ha Hb). exact IHk. }
  apply Hloop. unfold intentKeywords.
  repeat (constructor; [cbn [snd map]; repeat (constructor; [eexists _, _, _; split; [vm_compute; reflexivity | split; reflexivity]|]); constructor|]).
  constructor.
Qed.

(** X28: every intent pattern starts with [\b], which needs one of the
    characters A-Z, a-z, 0-9 or _ next to it, and every keyword of the
    scan is an English word.  On a text without such a character (a
    command written in Cyrillic letters only, say) nothing is recognised
    for any language: the intent is "general", the confidence is 0.5 and
    no entity is extracted. *)
Theorem extractIntent_without_word_characters
    (text : jsstring) (language : SupportedLanguage) :
  Forall (fun c => inRanges wordRanges c = false) text →
  extractIntent text language
  = {| IntentResult.intent := js "general";
       IntentResult.entities := ∅;
       IntentResult.confidence := (5 # 10)%Q |}.
Proof.
  intros Hno. rewrite (extractIntent_keyword_path text language).
  - rewrite (inferIntent_general text language Hno). reflexivity.
  - apply patternMatched_none. exact Hno.
Qed.

Lemma extractIntent_without_word_characters_witness :
  extractIntent (js "создать проект") RU
  = {| IntentResult.intent := js "general";
       IntentResult.entities := ∅;
       IntentResult.confidence := (5 # 10)%Q |}.
Proof.
  apply (extractIntent_without_word_characters (js "создать проект") RU).
  vm_compute. repeat constructor.
Defined.

(** * Further properties of the command parser *)

Import MultilingualCommandParser.

(** The fourteen commands of the table. *)
Lemma COMMAND_TRANSLATIONS_values (language : SupportedLanguage) :
  Forall (fun e => In (snd e) (map snd (COMMAND_TRANSLATIONS EN)))
         (COMMAND_TRANSLATIONS language).
Proof.
  apply Forall_forall. intros e He. apply list_elem_of_In in He.
  destruct language; cbn [COMMAND_TRANSLATIONS In] in He;
    repeat (destruct He as [<-|He]; [cbn; tauto|]); destruct He.
Qed.

(** X29: every language has a native word for each of the fourteen
    commands, and the parser reads it back: the word that
    [translateCommand] gives for a command is parsed by
    [parseNativeCommand] of the same language as that command, with no
    argument and no flag. *)
Theorem translateCommand_parses_back (language : SupportedLanguage) (command : string) :
  In command (map snd (COMMAND_TRANSLATIONS EN)) →
  parseNativeCommand (translateCommand (js command) language) language
  = {| ParsedCommand.command := PString (js command);
       ParsedCommand.args := [];
       ParsedCommand.flags := ∅ |}.
Proof.
  intros Hin. cbn [COMMAND_TRANSLATIONS map snd In] in Hin.
  repeat (destruct Hin as [<-|Hin]; [destruct language; vm_compute; reflexivity|]).
  destruct Hin.
Qed.

Lemma translateCommand_parses_back_witness :
  parseNativeCommand (translateCommand (js "deploy") RU) RU
  = {| ParsedCommand.command := PString (js "deploy");
       ParsedCommand.args := [];
       ParsedCommand.flags := ∅ |}.
Proof. apply translateCommand_parses_back. cbn. tauto. Defined.

Lemma ownProperty_In (entries : list (string * string)) (key : jsstring) (v : string) :
  ownProperty entries key = Some v → In v (map snd entries).
Proof.
  induction entries as [|[k w] rest IH]; [discriminate|].
  cbn [ownProperty map snd In]. destruct (bool_decide (js k = key)).
  - intros H. injection H as <-. left. reflexivity.
  - intros H. right. apply IH. exact H.
Qed.

Lemma toLowerCase_no_capital (s : jsstring) :
  forallb (fun c => negb ((0x41 <=? c) && (c <=? 0x5A))) (toLowerCase s) = true.
Proof.
  apply forallb_forall. intros c Hc. apply in_flat_map in Hc. destruct Hc as (a & _ & Hc).
  pose proof (lowerUnit_no_capital a c Hc) as Hno.
  apply negb_true_iff, andb_false_iff. rewrite !Z.leb_gt. lia.
Qed.

(** Of the names that [Object.prototype] defines, a lower-cased word can
    only be [constructor] or [__proto__]. *)
Lemma inherited_lower_case_key (word : jsstring) :
  existsb (fun k => bool_decide (js k = toLowerCase word)) objectPrototypeKeys = true →
  toLowerCase word = js "constructor" ∨ toLowerCase word = js "__proto__".
Proof.
  intros H. apply existsb_exists in H. destruct H as (k & Hk & Heq).
  apply bool_decide_eq_true in Heq.
  pose proof (toLowerCase_no_capital word) as Hlow. rewrite <- Heq in Hlow.
  cbn [objectPrototypeKeys In] in Hk.
  repeat (destruct Hk as [<-|Hk];
          [first [ left; symmetry; exact Heq | right; symmetry; exact Heq
                 | vm_compute in Hlow; discriminate Hlow ]|]).
  destruct Hk.
Qed.

(** The commands that the two loops of [parseNativeCommand] can give. *)
Lemma translationLoop_command (language : SupportedLanguage)
    (words rest args : list jsstring) (translated : PropertyValue) :
  translationLoop (COMMAND_TRANSLATIONS language) words rest = Some (translated, args) →
  truthyValue translated = true
  ∧ ((∃ c, In c (map snd (COMMAND_TRANSLATIONS EN)) ∧ translated = PString (js c))
     ∨ translated = PInherited (js "constructor")
     ∨ translated = PInherited (js "__proto__")).
Proof.
  induction rest as [|word rest IH]; [discriminate|].
  cbn [translationLoop]. unfold getProperty.
  destruct (ownProperty (COMMAND_TRANSLATIONS language) (toLowerCase word)) as [v|] eqn:Hown.
  - destruct (truthyValue (PString (js v))) eqn:Htruthy; [|exact IH].
    intros H. injection H as <- _. split; [exact Htruthy|]. left. exists v. split; [|reflexivity].
    apply ownProperty_In in Hown.
    apply in_map_iff in Hown. destruct Hown as (e & <- & He).
    pose proof (COMMAND_TRANSLATIONS_values language) as Hall.
    rewrite Forall_forall in Hall. apply Hall, list_elem_of_In. exact He.
  - destruct (existsb _ objectPrototypeKeys) eqn:Hinh; [|exact IH].
    cbn [truthyValue]. intros H. injection H as <- _. split; [reflexivity|]. right.
    destruct (inherited_lower_case_key word Hinh) as [-> | ->]; [left | right]; reflexivity.
Qed.

Lemma phraseLoop_command (language : SupportedLanguage) (patterns : list PhrasePattern.t)
    (input cmd : jsstring) (args args' : list jsstring) :
  PHRASE_PATTERNS language = Some patterns →
  phraseLoop input patterns args = Some (cmd, args') →
  ∃ c, In c (map snd (COMMAND_TRANSLATIONS EN)) ∧ cmd = js c.
Proof.
  intros Hp Hloop.
  assert (Hcmd : In cmd (map (fun p => js (PhrasePattern.command p)) patterns)).
  { clear Hp. induction patterns as [|p rest IH]; [discriminate|].
    cbn [phraseLoop] in Hloop. cbn [map In].
    destruct (matchGroups input (PhrasePattern.pattern p)).
    - injection Hloop as <- _. left. reflexivity.
    - right. apply IH. exact Hloop. }
  apply in_map_iff in Hcmd. destruct Hcmd as (p & <- & Hin).
  exists (PhrasePattern.command p). split; [|reflexivity].
  destruct language; try discriminate Hp; injection Hp as <-;
    cbn [In] in Hin; repeat (destruct Hin as [<-|Hin]; [cbn; tauto|]); destruct Hin.
Qed.

Lemma parseNativeCommand_command (input : jsstring) (language : SupportedLanguage) :
  let command := ParsedCommand.command (parseNativeCommand input language) in
  command = PString []
  ∨ (truthyValue command = true
     ∧ ((∃ c, In c (map snd (COMMAND_TRANSLATIONS EN)) ∧ command = PString (js c))
        ∨ command = PInherited (js "constructor")
        ∨ command = PInherited (js "__proto__"))).
Proof.
  cbv zeta. unfold parseNativeCommand.
  destruct (translationLoop _ _ _) as [[translated rest]|] eqn:Hloop.
  - destruct (translationLoop_command _ _ _ _ _ Hloop) as [Htruthy Hkind].
    rewrite Htruthy. destruct (parseFlags rest [] ∅). cbn [ParsedCommand.command].
    right. split; assumption.
  - cbn [truthyValue truthy].
    destruct (PHRASE_PATTERNS language) as [patterns|] eqn:Hp.
    + destruct (phraseLoop input patterns []) as [[cmd args']|] eqn:Hphrase.
      * destruct (phraseLoop_command _ _ _ _ _ _ Hp Hphrase) as (c & Hc & ->).
        destruct (parseFlags args' [] ∅). cbn [ParsedCommand.command].
        right. split; [|left; exists c; split; [exact Hc | reflexivity]].
        cbn [COMMAND_TRANSLATIONS map snd In] in Hc.
        repeat (destruct Hc as [<-|Hc]; [reflexivity|]). destruct Hc.
      * destruct (parseFlags [] [] ∅). left. reflexivity.
    + destruct (parseFlags [] [] ∅). left. reflexivity.
Qed.

Lemma mapIntentToCommand_label (intent : jsstring) :
  intent ∈ map js ["create"; "delete"; "update"; "search"; "help"; "general"]%string →
  ∃ c, In c ["create"; "remove"; "update"; "find"; "help"]%string
    ∧ mapIntentToCommand intent = PString (js c).
Proof.
  intros Hin. apply list_elem_of_In in Hin. cbn [map In] in Hin.
  destruct Hin as [<-|[<-|[<-|[<-|[<-|[<-|[]]]]]]];
    [ exists "create"%string | exists "remove"%string | exists "update"%string
    | exists "find"%string | exists "help"%string | exists "help"%string ];
    (split; [cbn; tauto | vm_compute; reflexivity]).
Qed.

(** X30: the command that [parseCommand] returns is never empty.  It is
    one of the fourteen commands of the table or, from the intent, one of
    [remove], [update] and [find]; or it is no string at all: a word
    [constructor] or [__proto__] in the input is looked up in the table
    like any other and finds what the table inherits. *)
Theorem parseCommand_command
    (input : jsstring) (languageManager languageManager' : LanguageManager.t)
    (r : CommandResult.t) :
  parseCommand input languageManager = Normal (r, languageManager') →
  truthyValue (CommandResult.command r) = true
  ∧ ((∃ c, In c (map snd (COMMAND_TRANSLATIONS EN) ++ ["remove"; "update"; "find"]%string)
           ∧ CommandResult.command r = PString (js c))
     ∨ CommandResult.command r = PInherited (js "constructor")
     ∨ CommandResult.command r = PInherited (js "__proto__")).
Proof.
  unfold parseCommand.
  destruct (LanguageManager.detectLanguage input languageManager) as [[detection lm]|e];
    [|discriminate].
  cbn [mbind completion_bind]. intros H. injection H as <- _.
  cbn [CommandResult.command].
  set (language := LanguageDetectionResult.language detection).
  set (normalized := normalize input language).
  destruct (parseNativeCommand_command normalized language) as [Hempty | [Htruthy Hkind]].
  - rewrite Hempty. cbn [truthyValue truthy].
    destruct (mapIntentToCommand_label
                (IntentResult.intent (extractIntent normalized language)))
      as (c & Hc & ->).
    { destruct (Intent.patternMatched normalized language) eqn:Hm.
      - destruct (extractIntent_pattern_path normalized language Hm) as [_ Hin].
        rewrite resolvedPatterns_labels in Hin.
        apply list_elem_of_In in Hin. apply list_elem_of_In.
        cbn [map In] in *. tauto.
      - rewrite (extractIntent_keyword_path normalized language Hm).
        apply inferIntent_label. }
    split.
    + cbn [In] in Hc. repeat (destruct Hc as [<-|Hc]; [reflexivity|]). destruct Hc.
    + left. exists c. split; [|reflexivity].
      cbn [In] in Hc. cbn [COMMAND_TRANSLATIONS map snd app In].
      repeat (destruct Hc as [<-|Hc]; [tauto|]). destruct Hc.
  - rewrite Htruthy. split; [exact Htruthy|].
    destruct Hkind as [(c & Hc & Heq) | Hinh]; [left | right; exact Hinh].
    exists c. split; [apply in_or_app; left; exact Hc | exact Heq].
Qed.

Lemma parseCommand_command_witness :
  ∃ r languageManager',
    parseCommand (js "constructor now") LanguageManager.new = Normal (r, languageManager')
    ∧ CommandResult.command r = PInherited (js "constructor")
    ∧ truthyValue (CommandResult.command r) = true.
Proof.
  destruct (parseCommand (js "constructor now") LanguageManager.new)
    as [[r lm]|e] eqn:Hcall; [|vm_compute in Hcall; discriminate Hcall].
  exists r, lm. split; [reflexivity|].
  pose proof (parseCommand_command _ _ _ _ Hcall) as [Htruthy _].
  split; [|exact Htruthy].
  vm_compute in Hcall. injection Hcall as <- _. reflexivity.
Defined.
